(** * VoxelEngine: the simulation core of [src/services/VoxelEngine.ts]

    A shallow embedding of the particle store, the structural-integrity
    pass, the rebuild planner and the physics integrator, followed by the
    properties of the specification that concern them.

    Conventions of the embedding.
    - A JavaScript [number] is an exact rational ([Q]): the arithmetic of
      the source is kept expression by expression, its rounding is not.
    - [Math.random()], [Math.sqrt], [new THREE.Color(hex)] and
      [Color.offsetHSL] come from the host and from three.js; they are the
      fields of the class [Host].  The n-th call of [Math.random()] returns
      [Math_random n]; the engine counts the calls in [draws].
    - [Date.now()] is passed to the two methods that read it.
    - The callbacks [onStateChange] and [onCountChange] append to two logs.
    - A method that would raise a [TypeError] (an array read out of range
      followed by a field access) returns [None].
    - The scene graph, camera, renderer and the drawing of the instanced
      mesh carry no simulation state and are left out. *)

From Stdlib Require Import QArith Qround Qabs Qminmax ZArith Lia Lqa.
From stdpp Require Import gmap list.

Local Open Scope Q_scope.

(** ** Data model *)

(** [THREE.Color]: the three channels. *)
Record Color := mkColor { r : Q; g : Q; b : Q }.

(** [VoxelData] of [../types]: a position and a hex colour. *)
Module VoxelData.
Record t := mk { x : Q; y : Q; z : Q; color : Z }.
End VoxelData.

(** [RebuildTarget] of [../types]; [isRubble] is optional in the source and
    absent (falsy) on a matched target. *)
Module RebuildTarget.
Record t := mk { x : Q; y : Q; z : Q; delay : Q; isRubble : bool }.
End RebuildTarget.

(** [SimulationVoxel] of [../types]. *)
Record SimulationVoxel := mkVoxel {
  id : nat;
  x : Q; y : Q; z : Q;
  color : Color;
  vx : Q; vy : Q; vz : Q;
  rx : Q; ry : Q; rz : Q;
  rvx : Q; rvy : Q; rvz : Q;
  isFalling : bool;
  grounded : bool
}.

Inductive AppState := STABLE | DISMANTLING | REBUILDING.

#[global] Instance AppState_eq_dec : EqDecision AppState.
Proof. solve_decision. Defined.

(** The fields of the class [VoxelEngine] that the simulation reads or
    writes, the two callback logs (latest call first) and the number of
    [Math.random()] calls made so far. *)
Record Engine := mkEngine {
  voxels : list SimulationVoxel;
  rebuildTargets : list RebuildTarget.t;
  rebuildStartTime : Q;
  state : AppState;
  stateChanges : list AppState;
  countChanges : list nat;
  draws : nat
}.

(** What the engine takes from its host and from three.js. *)
Class Host := {
  Math_random : nat -> Q;
  Math_sqrt : Q -> Q;
  THREE_Color : Z -> Color;
  offsetHSL : Color -> Q -> Q -> Q -> Color
}.

(** [CONFIG.FLOOR_Y] of [src/utils/voxelConstants.ts]. *)
Definition FLOOR_Y : Q := -12.

(** ** Numbers *)

(** [a < b] on numbers. *)
Definition Qltb (a b : Q) : bool := (Qnum a * QDen b <? Qnum b * QDen a)%Z.

(** [Math.round]: the nearest integer, halves upwards. *)
Definition Math_round (q : Q) : Z := Qfloor (q + 0.5).

(** [Math.max(0, q)]. *)
Definition Math_max0 (q : Q) : Q := if Qltb 0 q then q else 0.

(** ** Sequencing *)

(** A [forEach] or [for ... of] whose body may raise: the body runs on the
    elements of [l] in order and the first failure ends the loop. *)
Fixpoint forEach {A B : Type} (body : B -> A -> option A) (l : list B) (a : A)
  : option A :=
  match l with
  | [] => Some a
  | b :: l' => a' ← body b a; forEach body l' a'
  end.

(** ** Field updates *)

Definition setGrounded (gr : bool) (v : SimulationVoxel) : SimulationVoxel :=
  {| id := id v; x := x v; y := y v; z := z v; color := color v;
     vx := vx v; vy := vy v; vz := vz v;
     rx := rx v; ry := ry v; rz := rz v;
     rvx := rvx v; rvy := rvy v; rvz := rvz v;
     isFalling := isFalling v; grounded := gr |}.

Definition setVelocity (ax ay az : Q) (v : SimulationVoxel) : SimulationVoxel :=
  {| id := id v; x := x v; y := y v; z := z v; color := color v;
     vx := ax; vy := ay; vz := az;
     rx := rx v; ry := ry v; rz := rz v;
     rvx := rvx v; rvy := rvy v; rvz := rvz v;
     isFalling := isFalling v; grounded := grounded v |}.

Definition setVoxels (vs : list SimulationVoxel) (e : Engine) : Engine :=
  {| voxels := vs; rebuildTargets := rebuildTargets e;
     rebuildStartTime := rebuildStartTime e; state := state e;
     stateChanges := stateChanges e; countChanges := countChanges e;
     draws := draws e |}.

Definition setDraws (n : nat) (e : Engine) : Engine :=
  {| voxels := voxels e; rebuildTargets := rebuildTargets e;
     rebuildStartTime := rebuildStartTime e; state := state e;
     stateChanges := stateChanges e; countChanges := countChanges e;
     draws := n |}.

(** [this.state = s; this.onStateChange(this.state)]. *)
Definition setState (s : AppState) (e : Engine) : Engine :=
  {| voxels := voxels e; rebuildTargets := rebuildTargets e;
     rebuildStartTime := rebuildStartTime e; state := s;
     stateChanges := s :: stateChanges e; countChanges := countChanges e;
     draws := draws e |}.

(** ** triggerFalling *)

(** The writes of [triggerFalling] on a voxel that is not falling yet; the
    six velocities use the draws [n .. n+5] in the order of the source. *)
Definition kick `{Host} (n : nat) (v : SimulationVoxel) : SimulationVoxel :=
  {| id := id v; x := x v; y := y v; z := z v; color := color v;
     vx := (Math_random n - 0.5) * 0.5;
     vy := Math_random (n + 1) * 0.3;
     vz := (Math_random (n + 2) - 0.5) * 0.5;
     rx := rx v; ry := ry v; rz := rz v;
     rvx := (Math_random (n + 3) - 0.5) * 0.3;
     rvy := (Math_random (n + 4) - 0.5) * 0.3;
     rvz := (Math_random (n + 5) - 0.5) * 0.3;
     isFalling := true; grounded := false |}.

Definition triggerFalling `{Host} (index : nat) (e : Engine) : option Engine :=
  v ← voxels e !! index;
  if isFalling v then Some e
  else Some (setDraws (draws e + 6)
               (setVoxels (<[index := kick (draws e) v]> (voxels e)) e)).

(** ** checkStructuralIntegrity *)

(** The key of [voxelMap]: the template string of the three rounded
    coordinates, which determines the triple and is determined by it. *)
Definition cell (v : SimulationVoxel) : Z * Z * Z :=
  (Math_round (x v), Math_round (y v), Math_round (z v)).

Definition isAnchor (v : SimulationVoxel) : bool :=
  negb (isFalling v) && Qle_bool (y v) (FLOOR_Y + 1.2).

(** Second [forEach]: ground the anchors and queue their indices; [i] is
    the index of the head of [vs]. *)
Fixpoint markAnchors (i : nat) (vs : list SimulationVoxel)
  : list SimulationVoxel * list nat :=
  match vs with
  | [] => ([], [])
  | v :: vs' =>
      let '(ws, queue) := markAnchors (S i) vs' in
      if isAnchor v then (setGrounded true v :: ws, i :: queue)
      else (v :: ws, queue)
  end.

(** Third [forEach]: [voxelMap.set(key, i)] for the voxels not falling; a
    later voxel of the same cell replaces an earlier one. *)
Fixpoint buildMap (i : nat) (vs : list SimulationVoxel)
    (voxelMap : gmap (Z * Z * Z) nat) : gmap (Z * Z * Z) nat :=
  match vs with
  | [] => voxelMap
  | v :: vs' =>
      buildMap (S i) vs'
        (if isFalling v then voxelMap else <[cell v := i]> voxelMap)
  end.

Definition neighbors : list (Z * Z * Z) :=
  [(1, 0, 0); (-1, 0, 0); (0, 1, 0); (0, -1, 0); (0, 0, 1); (0, 0, -1)]%Z.

Definition shift (c d : Z * Z * Z) : Z * Z * Z :=
  (c.1.1 + d.1.1, c.1.2 + d.1.2, c.2 + d.2)%Z.

(** One turn of the [for ... of neighbors] loop, for the voxel [v] taken
    from the queue and the offset [d]. *)
Definition visit (voxelMap : gmap (Z * Z * Z) nat) (v : SimulationVoxel)
    (d : Z * Z * Z) (st : list SimulationVoxel * list nat)
  : option (list SimulationVoxel * list nat) :=
  match voxelMap !! shift (cell v) d with
  | None => Some st
  | Some neighborIdx =>
      nv ← st.1 !! neighborIdx;
      if negb (isFalling nv) && negb (grounded nv)
      then Some (<[neighborIdx := setGrounded true nv]> st.1,
                 st.2 ++ [neighborIdx])
      else Some st
  end.

Definition visitAll (voxelMap : gmap (Z * Z * Z) nat) (v : SimulationVoxel)
    (st : list SimulationVoxel * list nat)
  : option (list SimulationVoxel * list nat) :=
  forEach (visit voxelMap v) neighbors st.

(** The [while (head < queue.length)] loop.  [queue !! head] is [None]
    exactly when the loop condition fails.  [fuel] bounds the number of
    turns; [None] is returned when it runs out (see
    [checkStructuralIntegrity_total]). *)
Fixpoint bfs (fuel : nat) (voxelMap : gmap (Z * Z * Z) nat)
    (vs : list SimulationVoxel) (queue : list nat) (head : nat)
  : option (list SimulationVoxel) :=
  match queue !! head with
  | None => Some vs
  | Some currentIdx =>
      match fuel with
      | O => None
      | S fuel' =>
          v ← vs !! currentIdx;
          st ← visitAll voxelMap v (vs, queue);
          bfs fuel' voxelMap st.1 st.2 (S head)
      end
  end.

(** Last [forEach]: the voxels left neither falling nor grounded start to
    fall, in index order. *)
Definition dropAt `{Host} (i : nat) (e : Engine) : option Engine :=
  v ← voxels e !! i;
  if negb (isFalling v) && negb (grounded v) then triggerFalling i e
  else Some e.

Definition dropUnsupported `{Host} (e : Engine) : option Engine :=
  forEach dropAt (seq 0 (length (voxels e))) e.

Definition checkStructuralIntegrity `{Host} (e : Engine) : option Engine :=
  let vs1 := setGrounded false <$> voxels e in
  let '(vs2, queue) := markAnchors 0 vs1 in
  let voxelMap := buildMap 0 vs2 ∅ in
  vs3 ← bfs (S (length vs2)) voxelMap vs2 queue 0;
  dropUnsupported (setVoxels vs3 e).

(** [onMouseClick], once the ray has hit instance [instanceId]. *)
Definition onMouseClick `{Host} (instanceId : nat) (e : Engine)
  : option Engine :=
  if decide (state e = STABLE)
  then e1 ← triggerFalling instanceId e; checkStructuralIntegrity e1
  else Some e.

(** ** loadInitialModel *)

(** The object built for the [i]-th entry of [data] in [createVoxels]; the
    lightness jitter uses draw [n]. *)
Definition newVoxel `{Host} (n i : nat) (d : VoxelData.t) : SimulationVoxel :=
  {| id := i;
     x := VoxelData.x d; y := VoxelData.y d; z := VoxelData.z d;
     color := offsetHSL (THREE_Color (VoxelData.color d)) 0 0
                (Math_random n * 0.04 - 0.02);
     vx := 0; vy := 0; vz := 0; rx := 0; ry := 0; rz := 0;
     rvx := 0; rvy := 0; rvz := 0;
     isFalling := false; grounded := true |}.

Definition createVoxels `{Host} (data : list VoxelData.t) (e : Engine) : Engine :=
  setDraws (draws e + length data)
    (setVoxels (imap (fun i d => newVoxel (draws e + i) i d) data) e).

Definition loadInitialModel `{Host} (data : list VoxelData.t) (e : Engine)
  : Engine :=
  let e1 := createVoxels data e in
  let e2 :=
    {| voxels := voxels e1; rebuildTargets := rebuildTargets e1;
       rebuildStartTime := rebuildStartTime e1; state := state e1;
       stateChanges := stateChanges e1;
       countChanges := length (voxels e1) :: countChanges e1;
       draws := draws e1 |} in
  setState STABLE e2.

(** The engine as the constructor leaves it. *)
Definition newEngine : Engine :=
  {| voxels := []; rebuildTargets := []; rebuildStartTime := 0;
     state := STABLE; stateChanges := []; countChanges := []; draws := 0 |}.

(** ** dismantle *)

(** The body of the [forEach] of [dismantle] for the voxel at index [i]:
    [triggerFalling(v.id)], then the scatter velocity written on [v]. *)
Definition scatterAt `{Host} (i : nat) (e : Engine) : option Engine :=
  v ← voxels e !! i;
  e1 ← triggerFalling (id v) e;
  v1 ← voxels e1 !! i;
  let n := draws e1 in
  Some (setDraws (n + 3)
          (setVoxels
             (<[i := setVelocity ((Math_random n - 0.5) * 1.6)
                       (Math_random (n + 1) * 1.4)
                       ((Math_random (n + 2) - 0.5) * 1.6) v1]> (voxels e1))
             e1)).

Definition dismantle `{Host} (e : Engine) : option Engine :=
  if decide (state e = STABLE)
  then forEach scatterAt (seq 0 (length (voxels e)))
         (setState DISMANTLING e)
  else Some e.

(** ** rebuild *)

Definition getColorDist `{Host} (c1 : Color) (hex2 : Z) : Q :=
  let c2 := THREE_Color hex2 in
  let r := (r c1 - r c2) * 0.3 in
  let g := (g c1 - g c2) * 0.59 in
  let b := (b c1 - b c2) * 0.11 in
  Math_sqrt (r * r + g * g + b * b).

(** An entry of the pool [available]. *)
Module Candidate.
Record t := mk { index : nat; color : Color; taken : bool }.
Definition take (c : t) : t :=
  {| index := index c; color := color c; taken := true |}.
End Candidate.

(** The [for (let i = ...)] scan over the pool from position [i] on, with
    the running [(bestDist, bestIdx)]; [bestIdx = -1] is [None]. *)
Fixpoint scan `{Host} (hex : Z) (available : list Candidate.t) (i : nat)
    (best : Q * option nat) : Q * option nat :=
  match available with
  | [] => best
  | c :: rest =>
      if Candidate.taken c then scan hex rest (S i) best
      else
        let d := getColorDist (Candidate.color c) hex in
        if Qltb d best.1 then
          if Qltb d 0.01 then (d, Some i)
          else scan hex rest (S i) (d, Some i)
        else scan hex rest (S i) best
  end.

(** The delay of a matched target of height [ty]. *)
Definition delayOf (ty : Q) : Q :=
  let h := Math_max0 ((ty - FLOOR_Y) / 15) in h * 800.

Definition matched (target : VoxelData.t) : RebuildTarget.t :=
  {| RebuildTarget.x := VoxelData.x target;
     RebuildTarget.y := VoxelData.y target;
     RebuildTarget.z := VoxelData.z target;
     RebuildTarget.delay := delayOf (VoxelData.y target);
     RebuildTarget.isRubble := false |}.

Definition rubble (v : SimulationVoxel) : RebuildTarget.t :=
  {| RebuildTarget.x := x v; RebuildTarget.y := y v; RebuildTarget.z := z v;
     RebuildTarget.delay := 0; RebuildTarget.isRubble := true |}.

(** The body of [targetModel.forEach]; the state is the pool and the
    array [mappings] ([null] is [None]).  The pool read at [bestIdx] cannot
    miss, [bestIdx] being a position the scan went through. *)
Definition assign `{Host}
    (st : list Candidate.t * list (option RebuildTarget.t))
    (target : VoxelData.t)
  : list Candidate.t * list (option RebuildTarget.t) :=
  match (scan (VoxelData.color target) st.1 0 (9999, None)).2 with
  | None => st
  | Some bestIdx =>
      match st.1 !! bestIdx with
      | None => st
      | Some c =>
          (<[bestIdx := Candidate.take c]> st.1,
           <[Candidate.index c := Some (matched target)]> st.2)
      end
  end.

Definition pool (vs : list SimulationVoxel) : list Candidate.t :=
  imap (fun i v => {| Candidate.index := i; Candidate.color := color v;
                      Candidate.taken := false |}) vs.

(** The pool and [mappings] after the targets of [targetModel] are
    processed, in their order. *)
Definition planState `{Host} (vs : list SimulationVoxel)
    (targetModel : list VoxelData.t)
  : list Candidate.t * list (option RebuildTarget.t) :=
  foldl assign (pool vs, replicate (length vs) None) targetModel.

Definition plan `{Host} (vs : list SimulationVoxel)
    (targetModel : list VoxelData.t) : list (option RebuildTarget.t) :=
  (planState vs targetModel).2.

(** The closing [for] loop: an entry still [null] becomes rubble at the
    voxel's own position. *)
Definition fillRubble (vs : list SimulationVoxel)
    (mappings : list (option RebuildTarget.t)) : list RebuildTarget.t :=
  zip_with (fun v m => default (rubble v) m) vs mappings.

Definition rebuild `{Host} (targetModel : list VoxelData.t) (now : Q)
    (e : Engine) : Engine :=
  let e1 := setState REBUILDING e in
  {| voxels := voxels e1;
     rebuildTargets := fillRubble (voxels e1) (plan (voxels e1) targetModel);
     rebuildStartTime := now; state := state e1;
     stateChanges := stateChanges e1; countChanges := countChanges e1;
     draws := draws e1 |}.

(** ** updatePhysics *)

(** The callback of the [forEach] of the [REBUILDING] branch on voxel [v]
    with its target [t]: the voxel afterwards, and [false] when the
    callback sets [allDone = false]. *)
Definition converge (elapsed : Q) (v : SimulationVoxel) (t : RebuildTarget.t)
  : SimulationVoxel * bool :=
  if RebuildTarget.isRubble t then (v, true)
  else if Qltb elapsed (RebuildTarget.delay t) then (v, false)
  else
    let speed := 0.12 in
    let x1 := x v + (RebuildTarget.x t - x v) * speed in
    let y1 := y v + (RebuildTarget.y t - y v) * speed in
    let z1 := z v + (RebuildTarget.z t - z v) * speed in
    let rx1 := rx v + (0 - rx v) * speed in
    let ry1 := ry v + (0 - ry v) * speed in
    let rz1 := rz v + (0 - rz v) * speed in
    if Qltb 0.01 ((RebuildTarget.x t - x1) ^ 2 + (RebuildTarget.y t - y1) ^ 2
                  + (RebuildTarget.z t - z1) ^ 2)
    then
      ({| id := id v; x := x1; y := y1; z := z1; color := color v;
          vx := vx v; vy := vy v; vz := vz v;
          rx := rx1; ry := ry1; rz := rz1;
          rvx := rvx v; rvy := rvy v; rvz := rvz v;
          isFalling := isFalling v; grounded := grounded v |}, false)
    else
      ({| id := id v;
          x := RebuildTarget.x t; y := RebuildTarget.y t;
          z := RebuildTarget.z t; color := color v;
          vx := 0; vy := 0; vz := 0;
          rx := 0; ry := 0; rz := 0;
          rvx := rvx v; rvy := rvy v; rvz := rvz v;
          isFalling := false; grounded := true |}, true).

(** The [forEach] of the [REBUILDING] branch: voxel [i] meets
    [rebuildTargets[i]]; a missing target is a [TypeError]. *)
Fixpoint convergeAll (elapsed : Q) (vs : list SimulationVoxel)
    (ts : list RebuildTarget.t) : option (list SimulationVoxel * bool) :=
  match vs with
  | [] => Some ([], true)
  | v :: vs' =>
      match ts with
      | [] => None
      | t :: ts' =>
          let '(v', done) := converge elapsed v t in
          rest ← convergeAll elapsed vs' ts';
          Some (v' :: rest.1, done && rest.2)
      end
  end.

(** The callback of the [forEach] of the other branch. *)
Definition fall (v : SimulationVoxel) : SimulationVoxel :=
  if isFalling v then
    let vy1 := vy v - 0.052 in
    let x1 := x v + vx v in
    let y1 := y v + vy1 in
    let z1 := z v + vz v in
    let rx1 := rx v + rvx v in
    let ry1 := ry v + rvy v in
    let rz1 := rz v + rvz v in
    if Qltb y1 (FLOOR_Y + 0.5) then
      let y2 := FLOOR_Y + 0.5 in
      let vy2 := vy1 * -0.42 in
      let vx2 := vx v * 0.75 in
      let vz2 := vz v * 0.75 in
      let rvx2 := rvx v * 0.65 in
      let rvy2 := rvy v * 0.65 in
      let rvz2 := rvz v * 0.65 in
      if Qltb (Qabs vy2) 0.05 && Qltb (Qabs vx2) 0.05 && Qltb (Qabs vz2) 0.05
      then
        {| id := id v; x := x1; y := y2; z := z1; color := color v;
           vx := 0; vy := 0; vz := 0;
           rx := rx1; ry := ry1; rz := rz1;
           rvx := 0; rvy := 0; rvz := 0;
           isFalling := isFalling v; grounded := grounded v |}
      else
        {| id := id v; x := x1; y := y2; z := z1; color := color v;
           vx := vx2; vy := vy2; vz := vz2;
           rx := rx1; ry := ry1; rz := rz1;
           rvx := rvx2; rvy := rvy2; rvz := rvz2;
           isFalling := isFalling v; grounded := grounded v |}
    else
      {| id := id v; x := x1; y := y1; z := z1; color := color v;
         vx := vx v; vy := vy1; vz := vz v;
         rx := rx1; ry := ry1; rz := rz1;
         rvx := rvx v; rvy := rvy v; rvz := rvz v;
         isFalling := isFalling v; grounded := grounded v |}
  else v.

Definition updatePhysics (now : Q) (e : Engine) : option Engine :=
  if decide (state e = REBUILDING) then
    let elapsed := now - rebuildStartTime e in
    '(vs, allDone) ← convergeAll elapsed (voxels e) (rebuildTargets e);
    let e1 := setVoxels vs e in
    Some (if allDone : bool then setState STABLE e1 else e1)
  else Some (setVoxels (fall <$> voxels e) e).

(** ** Runs of the engine *)

(** What can happen to an engine: the public methods, a click that hits
    an instance, a frame of [animate], and the two private methods on
    their own. *)
Inductive Op :=
| OpLoad (data : list VoxelData.t)
| OpClick (instanceId : nat)
| OpDismantle
| OpRebuild (targetModel : list VoxelData.t) (now : Q)
| OpFrame (now : Q)
| OpTriggerFalling (index : nat)
| OpCheck.

Definition exec `{Host} (op : Op) (e : Engine) : option Engine :=
  match op with
  | OpLoad data => Some (loadInitialModel data e)
  | OpClick i => onMouseClick i e
  | OpDismantle => dismantle e
  | OpRebuild targetModel now => Some (rebuild targetModel now e)
  | OpFrame now => updatePhysics now e
  | OpTriggerFalling i => triggerFalling i e
  | OpCheck => checkStructuralIntegrity e
  end.

Definition run `{Host} (ops : list Op) (e : Engine) : option Engine :=
  forEach exec ops e.

(** ** Predicates of the specification *)

(** A particle is not both falling and grounded. *)
Definition flagsOk (v : SimulationVoxel) : Prop :=
  isFalling v && grounded v = false.

(** During a step the particle, once moved, is below the floor plane
    [FLOOR_Y + 0.5]; the vertical velocity it is moved with is
    [vy v - 0.052]. *)
Definition crossesFloor (v : SimulationVoxel) : Prop :=
  y v + (vy v - 0.052) < FLOOR_Y + 0.5.

(** The three linear components, once damped by the bounce, are all below
    0.05 in magnitude. *)
Definition restsOnBounce (v : SimulationVoxel) : Prop :=
  Qabs ((vy v - 0.052) * -0.42) < 0.05 /\
  Qabs (vx v * 0.75) < 0.05 /\
  Qabs (vz v * 0.75) < 0.05.

(** The callback of the [REBUILDING] branch, run on [v] and its target
    [t], leaves [allDone] as it is. *)
Definition arrived (elapsed : Q) (v : SimulationVoxel) (t : RebuildTarget.t)
  : Prop :=
  (converge elapsed v t).2 = true.

(** The distance of pool entry [c] to the colour [hex] of a target. *)
Definition distTo `{Host} (hex : Z) (c : Candidate.t) : Q :=
  getColorDist (Candidate.color c) hex.

(** [j] is the entry a scan of the pool for [hex] has to select: an untaken
    entry below the initial bound 9999, strictly closer than every untaken
    entry before it (first-found minimum), none of which was a near-exact
    match that would have stopped the scan, and either a near-exact match
    itself (the scan stops at [j]) or at least as close as every untaken
    entry of the pool. *)
Definition selected `{Host} (hex : Z) (available : list Candidate.t) (j : nat)
  : Prop :=
  exists c,
    available !! j = Some c /\ Candidate.taken c = false /\
    distTo hex c < 9999 /\
    (forall k c', (k < j)%nat -> available !! k = Some c' ->
       Candidate.taken c' = false ->
       distTo hex c < distTo hex c' /\ 0.01 <= distTo hex c') /\
    (distTo hex c < 0.01 \/
     forall k c', available !! k = Some c' -> Candidate.taken c' = false ->
       distTo hex c <= distTo hex c').

(** No untaken entry is below the initial bound. *)
Definition noCandidate `{Host} (hex : Z) (available : list Candidate.t)
  : Prop :=
  forall k c, available !! k = Some c -> Candidate.taken c = false ->
    9999 <= distTo hex c.

(** The planner seen from the particles.  The distance of particle [v] to
    the colour of [target]; slot [k] has no target yet in [mappings]; and
    the slot [j] that [target] has to take, given the assignments made so
    far: a slot without target whose particle is below the initial bound
    9999, strictly closer than the particle of every earlier slot without
    target (first-found minimum), none of which is a near-exact match, and
    either a near-exact match itself or at least as close as the particle
    of every slot without target. *)
Definition colourDist `{Host} (v : SimulationVoxel) (target : VoxelData.t)
  : Q :=
  getColorDist (color v) (VoxelData.color target).

Definition untaken (mappings : list (option RebuildTarget.t)) (k : nat)
  : Prop :=
  mappings !! k = Some None.

Definition chosen `{Host} (vs : list SimulationVoxel)
    (mappings : list (option RebuildTarget.t)) (target : VoxelData.t)
    (j : nat) : Prop :=
  exists v,
    vs !! j = Some v /\ untaken mappings j /\
    colourDist v target < 9999 /\
    (forall k w, (k < j)%nat -> vs !! k = Some w -> untaken mappings k ->
       colourDist v target < colourDist w target /\
       0.01 <= colourDist w target) /\
    (colourDist v target < 0.01 \/
     forall k w, vs !! k = Some w -> untaken mappings k ->
       colourDist v target <= colourDist w target).

(** No particle without target is below the initial bound. *)
Definition noneLeft `{Host} (vs : list SimulationVoxel)
    (mappings : list (option RebuildTarget.t)) (target : VoxelData.t)
  : Prop :=
  forall k w, vs !! k = Some w -> untaken mappings k ->
    9999 <= colourDist w target.

(** Every particle is at a distance below the initial bound 9999 from every
    target; colours with channels in [0,1] are at most 0.68 apart. *)
Definition withinBound `{Host} (vs : list SimulationVoxel)
    (targetModel : list VoxelData.t) : bool :=
  forallb (fun v =>
    forallb (fun target =>
      Qltb (getColorDist (color v) (VoxelData.color target)) 9999)
      targetModel) vs.

(** The channels of a colour are in [0,1]. *)
Definition inUnit (c : Color) : Prop :=
  (0 <= r c /\ r c <= 1) /\ (0 <= g c /\ g c <= 1) /\ (0 <= b c /\ b c <= 1).

(** The entries of the assignment array that are rubble, and those that
    hold a target. *)
Definition rubbleCount (ts : list RebuildTarget.t) : nat :=
  length (List.filter RebuildTarget.isRubble ts).

Definition matchedCount (ts : list RebuildTarget.t) : nat :=
  length (List.filter (fun t => negb (RebuildTarget.isRubble t)) ts).

(** What [scan] knows about the entries [pre] it has gone through when it
    holds [(bestDist, bestIdx)]. *)
Definition scanned `{Host} (hex : Z) (pre : list Candidate.t)
    (best : Q * option nat) : Prop :=
  (forall k c, pre !! k = Some c -> Candidate.taken c = false ->
     0.01 <= distTo hex c /\ best.1 <= distTo hex c) /\
  match best.2 with
  | None => best.1 = 9999
  | Some j =>
      exists c,
        pre !! j = Some c /\ Candidate.taken c = false /\
        best.1 = distTo hex c /\ best.1 < 9999 /\
        (forall k c', (k < j)%nat -> pre !! k = Some c' ->
           Candidate.taken c' = false -> distTo hex c < distTo hex c')
  end.

(** What the scan of the whole pool returns. *)
Definition scanResult `{Host} (hex : Z) (available : list Candidate.t)
    (best : Q * option nat) : Prop :=
  match best.2 with
  | None => noCandidate hex available
  | Some j => selected hex available j
  end.

(** The number of entries of [mappings] that hold a target. *)
Fixpoint assignedCount (mappings : list (option RebuildTarget.t)) : nat :=
  match mappings with
  | [] => 0
  | Some _ :: rest => S (assignedCount rest)
  | None :: rest => assignedCount rest
  end.

(** The pool and [mappings] are those of the particles [vs] after the
    targets [seen]: one pool entry and one mapping per particle, an entry
    is taken exactly when its particle has a target, and a target in
    [mappings] is the matched form of one of [seen]. *)
Record planned (vs : list SimulationVoxel) (seen : list VoxelData.t)
    (st : list Candidate.t * list (option RebuildTarget.t)) : Prop :=
  mkPlanned {
    planned_pool : length st.1 = length vs;
    planned_map : length st.2 = length vs;
    planned_entry : forall i c, st.1 !! i = Some c ->
      Candidate.index c = i /\
      exists v, vs !! i = Some v /\ Candidate.color c = color v;
    planned_taken : forall i c, st.1 !! i = Some c ->
      Candidate.taken c = true <-> exists t, st.2 !! i = Some (Some t);
    planned_from : forall i t, st.2 !! i = Some (Some t) ->
      exists target, target ∈ seen /\ t = matched target
  }.

(** ** The structural-integrity pass *)

(** The particles with [grounded] cleared, as the first [forEach] of the
    pass leaves them. *)
Definition base (vs : list SimulationVoxel) : list SimulationVoxel :=
  setGrounded false <$> vs.

(** The number of particles whose [grounded] flag is off. *)
Fixpoint ungrounded (vs : list SimulationVoxel) : nat :=
  match vs with
  | [] => 0
  | v :: rest => (if grounded v then 0 else 1) + ungrounded rest
  end.

(** Two cells of the integer grid are 6-connected neighbours: they differ
    by one unit along exactly one axis. *)
Definition adjacent (c c' : Z * Z * Z) : Prop :=
  (Z.abs (c'.1.1 - c.1.1) + Z.abs (c'.1.2 - c.1.2) + Z.abs (c'.2 - c.2)
   = 1)%Z.

(** Particle [i] of [vs] is reachable from a ground anchor through a chain
    of particles that are not falling, each in a cell adjacent to the cell
    of the one before. *)
Inductive supported (vs : list SimulationVoxel) : nat -> Prop :=
| supported_anchor i v :
    vs !! i = Some v -> isAnchor v = true -> supported vs i
| supported_step i j v w :
    supported vs i -> vs !! i = Some v -> vs !! j = Some w ->
    isFalling w = false -> adjacent (cell v) (cell w) ->
    supported vs j.

(** Particle [i] is the last particle of its cell that is not falling: the
    one [voxelMap] holds for the cell.  A particle with no other particle
    that is not falling in its cell is one. *)
Definition lastInCell (vs : list SimulationVoxel) (i : nat) : Prop :=
  forall v j w,
    vs !! i = Some v -> vs !! j = Some w -> (i < j)%nat ->
    isFalling w = false -> cell w <> cell v.

Definition aloneInCell (vs : list SimulationVoxel) (i : nat) : Prop :=
  forall v j w,
    vs !! i = Some v -> vs !! j = Some w -> j <> i ->
    isFalling w = false -> cell w <> cell v.

(** [vs'] has every [grounded] flag that [vs] has. *)
Definition grows (vs vs' : list SimulationVoxel) : Prop :=
  forall i v, vs !! i = Some v -> grounded v = true ->
    exists v', vs' !! i = Some v' /\ grounded v' = true.

(** [voxelMap] maps a cell to a particle of that cell that is not falling. *)
Definition mapSound (voxelMap : gmap (Z * Z * Z) nat)
    (vs : list SimulationVoxel) : Prop :=
  forall c j, voxelMap !! c = Some j ->
    exists v, vs !! j = Some v /\ isFalling v = false /\ cell v = c.

(** The neighbours of particle [v] that [voxelMap] knows are grounded. *)
Definition closedAt (voxelMap : gmap (Z * Z * Z) nat)
    (vs : list SimulationVoxel) (v : SimulationVoxel) (ds : list (Z * Z * Z))
  : Prop :=
  forall d j, d ∈ ds -> voxelMap !! shift (cell v) d = Some j ->
    exists w, vs !! j = Some w /\ grounded w = true.

(** The invariant of the [while] loop of the pass, for the particles [B]
    with flags cleared: the live list differs from [B] in [grounded] flags
    only; [head] is within the queue; the queue holds exactly the grounded
    particles, none of them falling, all of them reachable; and the
    neighbours of the entries before [head] are grounded. *)
Record bfsInv (B : list SimulationVoxel) (voxelMap : gmap (Z * Z * Z) nat)
    (vs : list SimulationVoxel) (queue : list nat) (head : nat) : Prop :=
  mkBfsInv {
    bfs_head : (head <= length queue)%nat;
    bfs_base : base vs = B;
    bfs_queue : forall i, i ∈ queue ->
      exists v, vs !! i = Some v /\ grounded v = true /\ isFalling v = false;
    bfs_all : forall i v, vs !! i = Some v -> grounded v = true -> i ∈ queue;
    bfs_sound : forall i v, vs !! i = Some v -> grounded v = true ->
      supported B i;
    bfs_closed : forall k i v, (k < head)%nat -> queue !! k = Some i ->
      vs !! i = Some v -> closedAt voxelMap vs v neighbors
  }.

(** The outcome of the [while] loop started on [vs]. *)
Definition bfsFinal (B : list SimulationVoxel)
    (voxelMap : gmap (Z * Z * Z) nat) (vs vs' : list SimulationVoxel) : Prop :=
  base vs' = B /\ grows vs vs' /\
  forall i v, vs' !! i = Some v -> grounded v = true ->
    supported B i /\ closedAt voxelMap vs' v neighbors.

(** The test of the last [forEach] of the pass. *)
Definition unsupportedNow (v : SimulationVoxel) : bool :=
  negb (isFalling v) && negb (grounded v).

(** What the second [forEach] of the pass does to one particle. *)
Definition groundAnchor (v : SimulationVoxel) : SimulationVoxel :=
  if isAnchor v then setGrounded true v else v.

(** ** Engines that do not raise *)

(** The [id] of a particle is its slot, as [createVoxels] sets it, and in
    state [REBUILDING] the assignment array has one entry per particle, as
    [rebuild] leaves it. *)
Definition wellFormed (e : Engine) : Prop :=
  (forall i v, voxels e !! i = Some v -> id v = i) /\
  (state e = REBUILDING -> length (rebuildTargets e) = length (voxels e)).

(** The clicks and [triggerFalling] calls of [ops] name particles that
    exist, [n] being the number of particles before the first of them. *)
Fixpoint validOps (n : nat) (ops : list Op) : Prop :=
  match ops with
  | [] => True
  | OpLoad data :: ops' => validOps (length data) ops'
  | OpClick i :: ops' => (i < n)%nat /\ validOps n ops'
  | OpTriggerFalling i :: ops' => (i < n)%nat /\ validOps n ops'
  | _ :: ops' => validOps n ops'
  end.

(** ** Relations between a particle before and after *)

(** [v'] is in the slot of [v]: same [id] and same colour. *)
Definition sameSlot (v v' : SimulationVoxel) : Prop :=
  id v' = id v /\ color v' = color v.

(** [v'] is where [v] was: same position and same rotation. *)
Definition samePose (v v' : SimulationVoxel) : Prop :=
  x v' = x v /\ y v' = y v /\ z v' = z v /\
  rx v' = rx v /\ ry v' = ry v /\ rz v' = rz v.

(** If [v] is falling, [v'] is. *)
Definition staysFalling (v v' : SimulationVoxel) : Prop :=
  isFalling v = true -> isFalling v' = true.

(** ** Kinds of operations *)

Definition notLoad (op : Op) : Prop :=
  match op with OpLoad _ => False | _ => True end.

(** Neither a load nor a frame. *)
Definition noMotion (op : Op) : Prop :=
  match op with OpLoad _ | OpFrame _ => False | _ => True end.

(** Neither a load nor a rebuild. *)
Definition noReassembly (op : Op) : Prop :=
  match op with OpLoad _ | OpRebuild _ _ => False | _ => True end.

(** ** Rest *)

(** A falling particle lying on the floor plane with no velocity left;
    numbers are compared by value. *)
Definition atRest (v : SimulationVoxel) : Prop :=
  isFalling v = true /\ y v == FLOOR_Y + 0.5 /\
  vx v == 0 /\ vy v == 0 /\ vz v == 0 /\
  rvx v == 0 /\ rvy v == 0 /\ rvz v == 0.

(** The position and rotation of [v'] have the values of those of [v]. *)
Definition samePlace (v v' : SimulationVoxel) : Prop :=
  x v' == x v /\ y v' == y v /\ z v' == z v /\
  rx v' == rx v /\ ry v' == ry v /\ rz v' == rz v.

(** ** The end of a rebuild *)

(** The squared distance of particle [v] to the position of target [t]. *)
Definition dist2 (v : SimulationVoxel) (t : RebuildTarget.t) : Q :=
  (RebuildTarget.x t - x v) ^ 2 + (RebuildTarget.y t - y v) ^ 2
  + (RebuildTarget.z t - z v) ^ 2.

(** The factor by which [k] easing steps of speed 0.12 scale a squared
    distance: [(1 - 0.12)^2 = 0.7744] per step. *)
Fixpoint shrink (k : nat) : Q :=
  match k with
  | O => 1
  | S k' => 0.7744 * shrink k'
  end.

(** Particle [v] sits on target [t] as the snap of the rebuild leaves it. *)
Definition onTarget (v : SimulationVoxel) (t : RebuildTarget.t) : Prop :=
  x v = RebuildTarget.x t /\ y v = RebuildTarget.y t /\
  z v = RebuildTarget.z t /\
  rx v = 0 /\ ry v = 0 /\ rz v = 0 /\ vx v = 0 /\ vy v = 0 /\ vz v = 0 /\
  isFalling v = false /\ grounded v = true.

(** At time [now] the delay of every target of [ts] that is not rubble
    has passed, the rebuild having started at [start]. *)
Definition lateFor (ts : list RebuildTarget.t) (start now : Q) : Prop :=
  forall t, t ∈ ts -> RebuildTarget.isRubble t = false ->
    RebuildTarget.delay t <= now - start.

(** ** What the traversal reaches *)

(** Particle [j] is reached from a ground anchor by the lookups the
    traversal makes: each step goes from a reached particle to the index
    [voxelMap] holds for one of the six cells around it. *)
Inductive linked (voxelMap : gmap (Z * Z * Z) nat)
    (B : list SimulationVoxel) : nat -> Prop :=
| linked_anchor i v :
    B !! i = Some v -> isAnchor v = true -> linked voxelMap B i
| linked_step i j v w d :
    linked voxelMap B i -> B !! i = Some v -> d ∈ neighbors ->
    voxelMap !! shift (cell v) d = Some j ->
    B !! j = Some w -> isFalling w = false ->
    linked voxelMap B j.

(** The traversal state [(vs, queue)] holds reached particles only. *)
Definition linkedInv (voxelMap : gmap (Z * Z * Z) nat)
    (B : list SimulationVoxel) (st : list SimulationVoxel * list nat)
  : Prop :=
  base st.1 = B /\
  (forall i, i ∈ st.2 -> linked voxelMap B i) /\
  (forall k u, st.1 !! k = Some u -> grounded u = true ->
     linked voxelMap B k).

(** ** getJsonData *)

(** [+q.toFixed(2)]: the multiple of 0.01 nearest to [q], a tie going
    away from zero ([toFixed] rounds the absolute value, of two nearest
    integers it takes the larger, and puts the sign back). *)
Definition toFixed2 (q : Q) : Q :=
  let n := Qfloor (Qabs q * 100 + 0.5) in
  if Qltb q 0 then inject_Z (- n) / 100 else inject_Z n / 100.

(** An element of the array that [getJsonData] serialises; [Str] is the
    type of the colour string. *)
Module JsonVoxel.
Record t (Str : Type) := mk { id : nat; x : Q; y : Q; z : Q; c : Str }.
Arguments mk {Str} _ _ _ _ _.
Arguments id {Str} _.
Arguments x {Str} _.
Arguments y {Str} _.
Arguments z {Str} _.
Arguments c {Str} _.
End JsonVoxel.

(** The array handed to [JSON.stringify]; [hex c] stands for
    ['#' + c.getHexString()]. *)
Definition getJsonData {Str : Type} (hex : Color -> Str) (e : Engine)
  : list (JsonVoxel.t Str) :=
  imap (fun i v =>
          {| JsonVoxel.id := i;
             JsonVoxel.x := toFixed2 (x v);
             JsonVoxel.y := toFixed2 (y v);
             JsonVoxel.z := toFixed2 (z v);
             JsonVoxel.c := hex (color v) |}) (voxels e).

(** [q] is a whole number of hundredths. *)
Definition centesimal (q : Q) : Prop := exists m : Z, q == inject_Z m / 100.

Definition centesimalData (d : VoxelData.t) : Prop :=
  centesimal (VoxelData.x d) /\ centesimal (VoxelData.y d) /\
  centesimal (VoxelData.z d).

(** ** The callbacks *)

(** The last state reported through [onStateChange] is the state of the
    engine, and the last count reported through [onCountChange] is the
    number of particles. *)
Definition mirrored (e : Engine) : Prop :=
  head (stateChanges e) = Some (state e) /\
  head (countChanges e) = Some (length (voxels e)).

(** ** Free flight *)

(** The number [k] as a number of the engine. *)
Definition frames (k : nat) : Q := inject_Z (Z.of_nat k).

(** The height of particle [v] after [k] frames of free flight: gravity
    0.052 is taken off [vy] before the position is advanced, which gives
    [y + k vy - 0.052 (1 + ... + k)]. *)
Definition flightY (v : SimulationVoxel) (k : nat) : Q :=
  y v + frames k * vy v - 0.026 * frames k * (frames k + 1).

(** Particle [v'] is where [k] frames of free flight take particle [v]. *)
Definition flownTo (k : nat) (v v' : SimulationVoxel) : Prop :=
  isFalling v' = true /\
  x v' == x v + frames k * vx v /\ y v' == flightY v k /\
  z v' == z v + frames k * vz v /\
  vx v' == vx v /\ vy v' == vy v - 0.052 * frames k /\ vz v' == vz v /\
  rx v' == rx v + frames k * rvx v /\ ry v' == ry v + frames k * rvy v /\
  rz v' == rz v + frames k * rvz v /\
  rvx v' == rvx v /\ rvy v' == rvy v /\ rvz v' == rvz v.
(** ** A concrete host

    Used to run the engine on concrete inputs: a fixed sequence of draws,
    a square root truncated to six decimals, the channels of a hex colour
    divided by 255, and a lightness offset added to every channel. *)

Definition sampleRandom (n : nat) : Q :=
  inject_Z ((Z.of_nat n * 37 + 11) mod 100) / 100.

Definition sampleSqrt (q : Q) : Q :=
  inject_Z (Z.sqrt (Qnum q * 10 ^ 12 / Zpos (Qden q))) / 1000000.

Definition sampleColor (hex : Z) : Color :=
  {| r := inject_Z (Z.land (Z.shiftr hex 16) 255) / 255;
     g := inject_Z (Z.land (Z.shiftr hex 8) 255) / 255;
     b := inject_Z (Z.land hex 255) / 255 |}.

Definition sampleOffsetHSL (c : Color) (h s l : Q) : Color :=
  {| r := r c + l; g := g c + l; b := b c + l |}.

Definition sampleHost : Host :=
  {| Math_random := sampleRandom; Math_sqrt := sampleSqrt;
     THREE_Color := sampleColor; offsetHSL := sampleOffsetHSL |}.

(** ** Concrete engines *)

(** Six particles: a column of three from the floor up, a second particle
    on the floor, one particle in the air, and a second particle in the
    cell of the top of the column. *)
Definition sampleData : list VoxelData.t :=
  [VoxelData.mk 0 (-12) 0 0xff0000; VoxelData.mk 1 (-12) 0 0x00ff00;
   VoxelData.mk 0 (-11) 0 0x0000ff; VoxelData.mk 5 (-9) 0 0xffffff;
   VoxelData.mk 0 (-10) 0 0x000000; VoxelData.mk 0 (-10.4) 0.2 0x000000].

Definition sampleEngine : Engine :=
  Eval vm_compute in @loadInitialModel sampleHost sampleData newEngine.

Definition sampleTargets : list VoxelData.t :=
  [VoxelData.mk 0 0 0 0xffffff; VoxelData.mk 0 3 0 0x0000fe].

Definition sampleOps : list Op :=
  [OpClick 1; OpDismantle; OpFrame 0; OpFrame 16;
   OpRebuild sampleTargets 100; OpFrame 120; OpFrame 2000; OpCheck].

Definition samplePassed : Engine :=
  Eval vm_compute in
    default newEngine (@checkStructuralIntegrity sampleHost sampleEngine).

Definition sampleEnd : Engine :=
  Eval vm_compute in default newEngine (@run sampleHost sampleOps samplePassed).

(** A particle falling fast towards the floor plane, and one about to
    come to rest on it. *)
Definition fastVoxel : SimulationVoxel :=
  {| id := 0; x := 0; y := -11.4; z := 0; color := mkColor 1 0 0;
     vx := 0.2; vy := -0.5; vz := 0.1; rx := 0; ry := 0; rz := 0;
     rvx := 0.1; rvy := 0.2; rvz := -0.1;
     isFalling := true; grounded := false |}.

Definition slowVoxel : SimulationVoxel :=
  {| id := 0; x := 0; y := -11.5; z := 0; color := mkColor 1 0 0;
     vx := 0.01; vy := -0.05; vz := 0; rx := 0; ry := 0; rz := 0;
     rvx := 0.1; rvy := 0.2; rvz := -0.1;
     isFalling := true; grounded := false |}.

(** A particle near the top of its flight, far above the floor. *)
Definition floatingVoxel : SimulationVoxel :=
  {| id := 0; x := 0; y := 0; z := 0; color := mkColor 1 0 0;
     vx := 0.01; vy := 0.04; vz := 0.02; rx := 0; ry := 0; rz := 0;
     rvx := 0.1; rvy := 0.2; rvz := -0.1;
     isFalling := true; grounded := false |}.

Definition engineOf (v : SimulationVoxel) : Engine :=
  {| voxels := [v]; rebuildTargets := []; rebuildStartTime := 0;
     state := DISMANTLING; stateChanges := [DISMANTLING];
     countChanges := [1%nat]; draws := 1 |}.

Definition fastVoxel' : SimulationVoxel := Eval vm_compute in fall fastVoxel.
Definition slowVoxel' : SimulationVoxel := Eval vm_compute in fall slowVoxel.
Definition floatingVoxel' : SimulationVoxel :=
  Eval vm_compute in fall floatingVoxel.

(** The particles of the sample engine, each with its colour, at another
    place and in motion. *)
Definition paletteB : list SimulationVoxel :=
  Eval vm_compute in
    (fun v =>
       {| id := id v; x := x v + 7; y := y v + 1; z := z v - 2;
          color := color v; vx := 1; vy := 2; vz := 3;
          rx := rx v; ry := ry v; rz := rz v;
          rvx := rvx v; rvy := rvy v; rvz := rvz v;
          isFalling := isFalling v; grounded := false |})
      <$> voxels sampleEngine.

(** The sample engine with its particles moved and set in motion. *)
Definition movedEngine : Engine :=
  Eval vm_compute in setVoxels paletteB sampleEngine.

(** The sample engine in the middle of a rebuild towards two targets. *)
Definition sampleRebuilding : Engine :=
  Eval vm_compute in @rebuild sampleHost sampleTargets 100 sampleEngine.

Definition sampleRebuilding1 : Engine :=
  Eval vm_compute in
    default newEngine (@run sampleHost [OpFrame 120; OpFrame 136] sampleRebuilding).

Definition sampleRebuilding2 : Engine :=
  Eval vm_compute in default newEngine (updatePhysics 152 sampleRebuilding1).

(** A particle on the floor carrying two particles that share one cell. *)
Definition stackedData : list VoxelData.t :=
  [VoxelData.mk 0 (-11) 0 0xff0000; VoxelData.mk 0 (-10) 0 0x00ff00;
   VoxelData.mk 0 (-10) 0 0x0000ff].

Definition stackedEngine : Engine :=
  Eval vm_compute in @loadInitialModel sampleHost stackedData newEngine.

Definition stackedPassed : Engine :=
  Eval vm_compute in
    default newEngine (@checkStructuralIntegrity sampleHost stackedEngine).

(** A column of three from the floor up and a particle in the air, each in
    a cell of its own. *)
Definition towerData : list VoxelData.t :=
  [VoxelData.mk 0 (-11) 0 0xff0000; VoxelData.mk 0 (-10) 0 0x00ff00;
   VoxelData.mk 0 (-9) 0 0x0000ff; VoxelData.mk 5 (-9) 0 0xffffff].

Definition towerEngine : Engine :=
  Eval vm_compute in @loadInitialModel sampleHost towerData newEngine.

(** ** Further concrete engines *)

(** The sample engine after a click, a dismantle, a rebuild and a pass,
    with no frame in between. *)
Definition stillOps : list Op :=
  [OpClick 1; OpDismantle; OpRebuild sampleTargets 100; OpCheck].

Definition sampleStill : Engine :=
  Eval vm_compute in default newEngine (@run sampleHost stillOps samplePassed).

(** The sample engine after a click, a dismantle, two frames and a pass. *)
Definition fallOps : list Op :=
  [OpClick 1; OpDismantle; OpFrame 0; OpFrame 16; OpCheck].

Definition sampleFallen : Engine :=
  Eval vm_compute in default newEngine (@run sampleHost fallOps samplePassed).

(** The whole sample run, from the constructor on. *)
Definition sampleLoadedEnd : Engine :=
  Eval vm_compute in
    default newEngine
      (@run sampleHost (OpLoad sampleData :: sampleOps) newEngine).

(** The particle at rest of [slowVoxel'] three frames later. *)
Definition restFrames : list Q := [16; 32; 48].

Definition restedEngine : Engine :=
  Eval vm_compute in
    default newEngine
      (@run sampleHost (OpFrame <$> restFrames) (engineOf slowVoxel')).

(** The first frame of the sample rebuild, 20 ms after its start. *)
Definition sampleWaiting : Engine :=
  Eval vm_compute in
    default newEngine (updatePhysics 120 sampleRebuilding).

Definition sampleClicked : Engine :=
  Eval vm_compute in
    default newEngine (@onMouseClick sampleHost 1 samplePassed).

Definition sampleDismantled : Engine :=
  Eval vm_compute in default newEngine (@dismantle sampleHost sampleEngine).

(** Two particles, one of them 0.15 above the only target of a rebuild
    started at time 0, and the frames that end that rebuild. *)
Definition driftData : list VoxelData.t :=
  [VoxelData.mk 0 0.15 0 0xffffff; VoxelData.mk 3 (-11) 0 0x00ff00].

Definition driftTargets : list VoxelData.t := [VoxelData.mk 0 0 0 0xffffff].

Definition driftEngine : Engine :=
  Eval vm_compute in
    @rebuild sampleHost driftTargets 0
      (@loadInitialModel sampleHost driftData newEngine).

Definition driftFrames : list Q := [700; 716; 732; 748].

Definition driftAlmost : Engine :=
  Eval vm_compute in
    default newEngine
      (@run sampleHost (OpFrame <$> [700; 716; 732]) driftEngine).

Definition driftDone : Engine :=
  Eval vm_compute in default newEngine (updatePhysics 748 driftAlmost).

(** As many targets as the stacked engine has particles, and one more. *)
Definition fullTargets : list VoxelData.t :=
  [VoxelData.mk 0 0 0 0xffffff; VoxelData.mk 0 3 0 0x0000fe;
   VoxelData.mk 1 1 1 0x00ff00].

Definition moreTargets : list VoxelData.t := [VoxelData.mk 2 2 2 0x123456].

(** The colour itself in place of its hex string. *)
Definition color_of_self (c : Color) : Color := c.

(** The floating particle three frames later. *)
Definition floatedEngine : Engine :=
  Eval vm_compute in
    default newEngine
      (@run sampleHost (OpFrame <$> restFrames) (engineOf floatingVoxel)).

(** * Properties *)

Section Properties.

Context `{Host}.

(** ** Loops *)

Lemma forEach_invariant {A B : Type} (P : A -> Prop)
    (body : B -> A -> option A) (l : list B) :
  (forall b a a', b ∈ l -> P a -> body b a = Some a' -> P a') ->
  forall a a', P a -> forEach body l a = Some a' -> P a'.
Proof.
  induction l as [|b l IH]; simpl; intros Hbody a a' Ha Hrun.
  - by simplify_eq.
  - destruct (body b a) as [a1|] eqn:Hb; simpl in Hrun; [|done].
    eapply IH; [|eapply Hbody; [left|..]; eassumption|exact Hrun].
    intros b' a0 a0' Hin. apply Hbody. by right.
Qed.

Lemma forEach_total {A B : Type} (P : A -> Prop)
    (body : B -> A -> option A) (l : list B) :
  (forall b a, b ∈ l -> P a -> exists a', body b a = Some a' /\ P a') ->
  forall a, P a -> exists a', forEach body l a = Some a' /\ P a'.
Proof.
  induction l as [|b l IH]; simpl; intros Hbody a Ha.
  - eauto.
  - destruct (Hbody b a) as (a1 & -> & Ha1); [left|done|]. simpl.
    apply IH; [|done]. intros b' a0 Hin. apply Hbody. by right.
Qed.

Lemma forEach_app {A B : Type} (body : B -> A -> option A) (l1 l2 : list B) a :
  forEach body (l1 ++ l2) a = forEach body l1 a ≫= forEach body l2.
Proof.
  revert a. induction l1 as [|b l1 IH]; simpl; intros a; [done|].
  destruct (body b a); simpl; [apply IH|done].
Qed.

(** ** Numbers *)

Lemma Qltb_lt (a b : Q) : Qltb a b = true <-> a < b.
Proof. unfold Qltb, Qlt. apply Z.ltb_lt. Qed.

Lemma Qltb_ge (a b : Q) : Qltb a b = false <-> b <= a.
Proof. unfold Qltb, Qle. rewrite Z.ltb_ge. done. Qed.

(** ** The two flags *)

Lemma flagsOk_setGrounded_false v : flagsOk (setGrounded false v).
Proof. unfold flagsOk. simpl. apply andb_false_r. Qed.

Lemma flagsOk_ground v : isFalling v = false -> flagsOk (setGrounded true v).
Proof. unfold flagsOk. simpl. by intros ->. Qed.

Lemma flagsOk_kick n v : flagsOk (kick n v).
Proof. done. Qed.

Lemma flagsOk_setVelocity a1 a2 a3 v :
  flagsOk v -> flagsOk (setVelocity a1 a2 a3 v).
Proof. done. Qed.

Lemma flagsOk_fall v : flagsOk v -> flagsOk (fall v).
Proof.
  unfold fall, flagsOk. intros Hv.
  destruct (isFalling v) eqn:Hf; [|by rewrite Hf].
  repeat case_match; simpl; by rewrite ?Hf.
Qed.

Lemma flagsOk_converge elapsed v t :
  flagsOk v -> flagsOk (converge elapsed v t).1.
Proof.
  unfold converge, flagsOk. intros Hv.
  repeat case_match; simpl; done.
Qed.

Lemma triggerFalling_flags i e e' :
  Forall flagsOk (voxels e) -> triggerFalling i e = Some e' ->
  Forall flagsOk (voxels e').
Proof.
  unfold triggerFalling. intros He Hrun.
  destruct (voxels e !! i) as [v|]; simpl in Hrun; [|done].
  destruct (isFalling v); simplify_eq; simpl; [done|].
  apply Forall_insert; [done|apply flagsOk_kick].
Qed.

Lemma markAnchors_flags i vs :
  Forall flagsOk vs -> Forall flagsOk (markAnchors i vs).1.
Proof.
  revert i. induction vs as [|v vs IH]; simpl; intros i Hvs; [done|].
  inversion_clear Hvs as [|? ? Hv Hvs'].
  specialize (IH (S i) Hvs'). destruct (markAnchors (S i) vs) as [ws q].
  unfold isAnchor. destruct (isFalling v) eqn:Hf; simpl.
  - by constructor.
  - destruct (Qle_bool _ _); simpl; constructor; try done.
    by apply flagsOk_ground.
Qed.

Lemma visit_flags voxelMap v d st st' :
  Forall flagsOk st.1 -> visit voxelMap v d st = Some st' ->
  Forall flagsOk st'.1.
Proof.
  unfold visit. intros Hst Hrun.
  destruct (voxelMap !! _) as [j|]; [|by simplify_eq].
  destruct (st.1 !! j) as [nv|]; simpl in Hrun; [|done].
  destruct (isFalling nv) eqn:Hf; simpl in Hrun; [by simplify_eq|].
  destruct (grounded nv); simpl in Hrun; simplify_eq; [done|]. simpl.
  apply Forall_insert; [done|by apply flagsOk_ground].
Qed.

Lemma bfs_flags fuel voxelMap vs queue head vs' :
  Forall flagsOk vs -> bfs fuel voxelMap vs queue head = Some vs' ->
  Forall flagsOk vs'.
Proof.
  revert vs queue head.
  induction fuel as [|fuel IH]; simpl; intros vs queue head Hvs Hrun.
  - destruct (queue !! head); by simplify_eq.
  - destruct (queue !! head) as [i|]; [|by simplify_eq].
    destruct (vs !! i) as [v|]; simpl in Hrun; [|done].
    destruct (visitAll voxelMap v (vs, queue)) as [st|] eqn:Hst;
      simpl in Hrun; [|done].
    eapply IH; [|exact Hrun].
    refine (forEach_invariant (fun st => Forall flagsOk st.1)
              _ _ _ (vs, queue) st Hvs Hst).
    intros d a a' _. apply visit_flags.
Qed.

Lemma dropUnsupported_flags e e' :
  Forall flagsOk (voxels e) -> dropUnsupported e = Some e' ->
  Forall flagsOk (voxels e').
Proof.
  unfold dropUnsupported.
  apply (forEach_invariant (fun e => Forall flagsOk (voxels e))).
  intros i a a' _ Ha. unfold dropAt.
  destruct (voxels a !! i) as [v|]; simpl; [|done].
  destruct (negb _ && negb _); [by apply triggerFalling_flags|].
  by intros; simplify_eq.
Qed.

(** A completed pass leaves the flags right whatever they were before. *)
Lemma checkStructuralIntegrity_flags e e' :
  checkStructuralIntegrity e = Some e' -> Forall flagsOk (voxels e').
Proof.
  unfold checkStructuralIntegrity. intros Hrun.
  assert (Forall flagsOk (setGrounded false <$> voxels e)) as H1.
  { apply Forall_fmap, Forall_true. intros v. apply flagsOk_setGrounded_false. }
  apply (markAnchors_flags 0) in H1.
  destruct (markAnchors 0 _) as [vs2 queue]. simpl in H1.
  destruct (bfs _ _ vs2 queue 0) as [vs3|] eqn:Hbfs; simpl in Hrun; [|done].
  eapply dropUnsupported_flags; [|exact Hrun]. simpl.
  by eapply bfs_flags.
Qed.

Lemma loadInitialModel_flags data e :
  Forall flagsOk (voxels (loadInitialModel data e)).
Proof.
  simpl. apply Forall_lookup. intros i v Hv.
  apply list_lookup_imap_Some in Hv as (d & _ & ->). done.
Qed.

Lemma dismantle_flags e e' :
  Forall flagsOk (voxels e) -> dismantle e = Some e' ->
  Forall flagsOk (voxels e').
Proof.
  unfold dismantle. intros He. case_decide; [|by intros; simplify_eq].
  apply (forEach_invariant (fun e => Forall flagsOk (voxels e))); [|done].
  intros i a a' _ Ha. unfold scatterAt.
  destruct (voxels a !! i) as [v|]; simpl; [|done].
  destruct (triggerFalling (id v) a) as [e1|] eqn:Ht; simpl; [|done].
  apply triggerFalling_flags in Ht; [|done].
  destruct (voxels e1 !! i) as [v1|] eqn:Hv1; simpl; [|done].
  intros; simplify_eq. simpl.
  apply Forall_insert; [done|]. apply flagsOk_setVelocity.
  by eapply Forall_lookup_1.
Qed.

Lemma convergeAll_flags elapsed vs ts res :
  Forall flagsOk vs -> convergeAll elapsed vs ts = Some res ->
  Forall flagsOk res.1.
Proof.
  revert ts res. induction vs as [|v vs IH]; simpl; intros ts res Hvs Hrun.
  - by simplify_eq.
  - destruct ts as [|t ts]; [done|].
    inversion_clear Hvs as [|? ? Hv Hvs'].
    pose proof (flagsOk_converge elapsed v t Hv) as Hc.
    destruct (converge elapsed v t) as [v' dn].
    destruct (convergeAll elapsed vs ts) as [rest|] eqn:Hrest;
      simpl in Hrun; [|done].
    simplify_eq. simpl. constructor; [done|]. by eapply IH.
Qed.

Lemma updatePhysics_flags now e e' :
  Forall flagsOk (voxels e) -> updatePhysics now e = Some e' ->
  Forall flagsOk (voxels e').
Proof.
  unfold updatePhysics. intros He Hrun. case_decide.
  - destruct (convergeAll _ _ _) as [[vs allDone]|] eqn:Hc;
      simpl in Hrun; [|done].
    apply convergeAll_flags in Hc; [|done].
    destruct allDone; by simplify_eq.
  - simplify_eq. simpl. apply Forall_fmap.
    eapply Forall_impl; [exact He|]. intros v. apply flagsOk_fall.
Qed.

Lemma exec_flags op e e' :
  Forall flagsOk (voxels e) -> exec op e = Some e' ->
  Forall flagsOk (voxels e').
Proof.
  destruct op; simpl; intros He Hrun.
  - simplify_eq. apply loadInitialModel_flags.
  - unfold onMouseClick in Hrun. case_decide; [|by simplify_eq].
    destruct (triggerFalling instanceId e) as [e1|]; simpl in Hrun; [|done].
    by eapply checkStructuralIntegrity_flags.
  - by eapply dismantle_flags.
  - by simplify_eq.
  - by eapply updatePhysics_flags.
  - by eapply triggerFalling_flags.
  - by eapply checkStructuralIntegrity_flags.
Qed.

(** C1.  Once a structural-integrity pass has completed, whatever the
    engine was before it, no particle is both falling and grounded after
    any further sequence of loads, clicks, dismantles, rebuilds, frames,
    single [triggerFalling] calls and further passes. *)
Theorem flags_exclusive_after_pass (e0 e1 e2 : Engine) (ops : list Op) :
  checkStructuralIntegrity e0 = Some e1 ->
  run ops e1 = Some e2 ->
  forall v, v ∈ voxels e2 -> ~ (isFalling v = true /\ grounded v = true).
Proof.
  intros Hpass Hrun v Hv [Hf Hg].
  assert (Forall flagsOk (voxels e2)) as Hall.
  { revert Hrun.
    apply (forEach_invariant (fun e => Forall flagsOk (voxels e))).
    - intros op a a' _. apply exec_flags.
    - by eapply checkStructuralIntegrity_flags. }
  rewrite Forall_forall in Hall. specialize (Hall v Hv).
  unfold flagsOk in Hall. by rewrite Hf, Hg in Hall.
Qed.

(** The same holds from the moment a shape is loaded. *)
Lemma flags_exclusive_after_load data e0 ops e2 :
  run ops (loadInitialModel data e0) = Some e2 ->
  Forall flagsOk (voxels e2).
Proof.
  apply (forEach_invariant (fun e => Forall flagsOk (voxels e))).
  - intros op a a' _. apply exec_flags.
  - apply loadInitialModel_flags.
Qed.

(** ** The physics step outside a rebuild *)

Lemma updatePhysics_fall now e e' i v :
  state e <> REBUILDING -> updatePhysics now e = Some e' ->
  voxels e !! i = Some v -> voxels e' !! i = Some (fall v).
Proof.
  unfold updatePhysics. intros Hs Hrun Hv. case_decide; [done|].
  simplify_eq. simpl. by rewrite list_lookup_fmap, Hv.
Qed.

Lemma fall_bounce v :
  isFalling v = true -> crossesFloor v ->
  fall v =
    if Qltb (Qabs ((vy v - 0.052) * -0.42)) 0.05
       && Qltb (Qabs (vx v * 0.75)) 0.05 && Qltb (Qabs (vz v * 0.75)) 0.05
    then
      {| id := id v; x := x v + vx v; y := FLOOR_Y + 0.5; z := z v + vz v;
         color := color v; vx := 0; vy := 0; vz := 0;
         rx := rx v + rvx v; ry := ry v + rvy v; rz := rz v + rvz v;
         rvx := 0; rvy := 0; rvz := 0;
         isFalling := true; grounded := grounded v |}
    else
      {| id := id v; x := x v + vx v; y := FLOOR_Y + 0.5; z := z v + vz v;
         color := color v;
         vx := vx v * 0.75; vy := (vy v - 0.052) * -0.42; vz := vz v * 0.75;
         rx := rx v + rvx v; ry := ry v + rvy v; rz := rz v + rvz v;
         rvx := rvx v * 0.65; rvy := rvy v * 0.65; rvz := rvz v * 0.65;
         isFalling := true; grounded := grounded v |}.
Proof.
  intros Hf Hc. apply Qltb_lt in Hc. unfold fall. rewrite Hf, Hc. done.
Qed.

Lemma restsOnBounce_test v :
  Qltb (Qabs ((vy v - 0.052) * -0.42)) 0.05
  && Qltb (Qabs (vx v * 0.75)) 0.05 && Qltb (Qabs (vz v * 0.75)) 0.05 = true
  <-> restsOnBounce v.
Proof.
  unfold restsOnBounce. rewrite !andb_true_iff, !Qltb_lt. tauto.
Qed.

Lemma fall_flags v :
  isFalling (fall v) = isFalling v /\ grounded (fall v) = grounded v.
Proof.
  unfold fall. destruct (isFalling v) eqn:Hf; [|done].
  repeat case_match; simpl; by rewrite ?Hf.
Qed.

(** C3, as amended.  A falling particle that a step outside a rebuild
    moves below [FLOOR_Y + 0.5] ends the step at height [FLOOR_Y + 0.5]
    exactly and, unless its three damped linear components are all below
    0.05 in magnitude, with vertical velocity -0.42 times the velocity it
    was moved with, horizontal velocities times 0.75 and angular velocities
    times 0.65. *)
Theorem floor_bounce (now : Q) (e e' : Engine) (i : nat)
    (v v' : SimulationVoxel) :
  state e <> REBUILDING ->
  updatePhysics now e = Some e' ->
  voxels e !! i = Some v ->
  voxels e' !! i = Some v' ->
  isFalling v = true ->
  crossesFloor v ->
  y v' = FLOOR_Y + 0.5 /\
  (~ restsOnBounce v ->
   vy v' = (vy v - 0.052) * -0.42 /\
   vx v' = vx v * 0.75 /\ vz v' = vz v * 0.75 /\
   rvx v' = rvx v * 0.65 /\ rvy v' = rvy v * 0.65 /\ rvz v' = rvz v * 0.65).
Proof.
  intros Hs Hrun Hv Hv' Hf Hc.
  rewrite (updatePhysics_fall now e e' i v Hs Hrun Hv) in Hv'.
  injection Hv' as <-. rewrite (fall_bounce v Hf Hc).
  destruct (_ && _) eqn:Hrest.
  - split; [done|]. intros Hn. by apply restsOnBounce_test in Hrest.
  - done.
Qed.

(** C4, as amended.  When a falling particle bounces on the floor in a
    step outside a rebuild and its three damped linear components are all
    below 0.05 in magnitude, its six velocity components are 0 at the end
    of the step and it is still falling, its [grounded] flag untouched. *)
Theorem rest_snap (now : Q) (e e' : Engine) (i : nat)
    (v v' : SimulationVoxel) :
  state e <> REBUILDING ->
  updatePhysics now e = Some e' ->
  voxels e !! i = Some v ->
  voxels e' !! i = Some v' ->
  isFalling v = true ->
  crossesFloor v ->
  restsOnBounce v ->
  (vx v' = 0 /\ vy v' = 0 /\ vz v' = 0 /\
   rvx v' = 0 /\ rvy v' = 0 /\ rvz v' = 0) /\
  isFalling v' = true /\ grounded v' = grounded v.
Proof.
  intros Hs Hrun Hv Hv' Hf Hc Hrest.
  rewrite (updatePhysics_fall now e e' i v Hs Hrun Hv) in Hv'.
  injection Hv' as <-. rewrite (fall_bounce v Hf Hc).
  apply restsOnBounce_test in Hrest. by rewrite Hrest.
Qed.

(** A step outside a rebuild never changes either flag. *)
Lemma updatePhysics_keeps_flags now e e' i v v' :
  state e <> REBUILDING -> updatePhysics now e = Some e' ->
  voxels e !! i = Some v -> voxels e' !! i = Some v' ->
  isFalling v' = isFalling v /\ grounded v' = grounded v.
Proof.
  intros Hs Hrun Hv Hv'.
  rewrite (updatePhysics_fall now e e' i v Hs Hrun Hv) in Hv'.
  injection Hv' as <-. apply fall_flags.
Qed.

(** ** The physics step during a rebuild *)

Lemma convergeAll_lookup elapsed vs ts res i v :
  convergeAll elapsed vs ts = Some res -> vs !! i = Some v ->
  exists t, ts !! i = Some t /\ res.1 !! i = Some (converge elapsed v t).1.
Proof.
  revert ts res i. induction vs as [|w vs IH]; intros ts res i Hrun Hv;
    [done|].
  simpl in Hrun. destruct ts as [|t ts]; [done|].
  destruct (converge elapsed w t) as [w' dn] eqn:Hw.
  destruct (convergeAll elapsed vs ts) as [rest|] eqn:Hrest;
    simpl in Hrun; [|done].
  simplify_eq. destruct i as [|i]; simpl in *.
  - simplify_eq. exists t. by rewrite Hw.
  - by eapply IH.
Qed.

Lemma convergeAll_done elapsed vs ts res :
  convergeAll elapsed vs ts = Some res ->
  res.2 = true <->
  (forall i v t, vs !! i = Some v -> ts !! i = Some t -> arrived elapsed v t).
Proof.
  unfold arrived.
  revert ts res. induction vs as [|w vs IH]; intros ts res Hrun.
  - simpl in Hrun. simplify_eq. simpl. split; [|done]. by intros _ [].
  - simpl in Hrun. destruct ts as [|t ts]; [done|].
    destruct (converge elapsed w t) as [w' dn] eqn:Hw.
    destruct (convergeAll elapsed vs ts) as [rest|] eqn:Hrest;
      simpl in Hrun; [|done].
    simplify_eq. simpl. rewrite andb_true_iff, (IH ts rest Hrest). split.
    + intros [-> Hall] [|i] v t' Hv Ht; simpl in *.
      * simplify_eq. by rewrite Hw.
      * by eapply Hall.
    + intros Hall. split.
      * specialize (Hall 0%nat w t eq_refl eq_refl). by rewrite Hw in Hall.
      * intros i v t' Hv Ht. by apply (Hall (S i)).
Qed.

Lemma convergeAll_total elapsed vs ts :
  (length vs <= length ts)%nat -> is_Some (convergeAll elapsed vs ts).
Proof.
  revert ts. induction vs as [|w vs IH]; intros ts Hlen; [by eexists|].
  destruct ts as [|t ts]; simpl in *; [lia|].
  destruct (converge elapsed w t) as [w' dn].
  destruct (IH ts) as [rest ->]; [lia|]. by eexists.
Qed.

Lemma updatePhysics_rebuilding now e e' :
  state e = REBUILDING -> updatePhysics now e = Some e' ->
  exists res,
    convergeAll (now - rebuildStartTime e) (voxels e) (rebuildTargets e)
      = Some res /\
    voxels e' = res.1 /\
    rebuildTargets e' = rebuildTargets e /\
    rebuildStartTime e' = rebuildStartTime e /\
    state e' = (if res.2 then STABLE else REBUILDING) /\
    stateChanges e' =
      (if res.2 then STABLE :: stateChanges e else stateChanges e).
Proof.
  unfold updatePhysics. intros Hs Hrun. case_decide; [|done].
  destruct (convergeAll _ _ _) as [[vs allDone]|] eqn:Hc;
    simpl in Hrun; [|done].
  exists (vs, allDone). destruct allDone; by simplify_eq.
Qed.

(** In a step taken in state [REBUILDING] a rubble particle is left as it
    is, and so is the assignment array. *)
Lemma rubble_untouched_step (now : Q) (e e' : Engine) (i : nat)
    (v : SimulationVoxel) (t : RebuildTarget.t) :
  state e = REBUILDING ->
  updatePhysics now e = Some e' ->
  voxels e !! i = Some v ->
  rebuildTargets e !! i = Some t ->
  RebuildTarget.isRubble t = true ->
  voxels e' !! i = Some v /\ rebuildTargets e' = rebuildTargets e.
Proof.
  intros Hs Hrun Hv Ht Hr.
  destruct (updatePhysics_rebuilding now e e' Hs Hrun)
    as (res & Hc & -> & -> & _).
  split; [|done].
  destruct (convergeAll_lookup _ _ _ _ i v Hc Hv) as (t' & Ht' & ->).
  rewrite Ht in Ht'. injection Ht' as <-. unfold converge. by rewrite Hr.
Qed.

Lemma updatePhysics_state_back now e e' :
  updatePhysics now e = Some e' -> state e' = REBUILDING ->
  state e = REBUILDING.
Proof.
  unfold updatePhysics. intros Hrun Hs'. case_decide; [done|].
  by simplify_eq.
Qed.

Lemma frames_state_back nows e e1 :
  run (OpFrame <$> nows) e = Some e1 -> state e1 = REBUILDING ->
  state e = REBUILDING.
Proof.
  unfold run. revert e. induction nows as [|n nows IH]; simpl; intros e Hrun Hs.
  - by simplify_eq.
  - destruct (updatePhysics n e) as [e2|] eqn:H2; simpl in Hrun; [|done].
    eapply updatePhysics_state_back; [exact H2|]. by eapply IH.
Qed.

(** C8.  In every step taken in state [REBUILDING] a rubble particle is
    left entirely unchanged, and this for the whole cycle: after any number
    of frames that leave the engine in state [REBUILDING], and one more
    frame, the particle is the record it was when the first frame began
    (position, rotation, velocities, flags), and the assignment array is
    the same. *)
Theorem rubble_untouched (nows : list Q) (now : Q) (e e1 e' : Engine)
    (i : nat) (v : SimulationVoxel) (t : RebuildTarget.t) :
  run (OpFrame <$> nows) e = Some e1 ->
  state e1 = REBUILDING ->
  updatePhysics now e1 = Some e' ->
  voxels e !! i = Some v ->
  rebuildTargets e !! i = Some t ->
  RebuildTarget.isRubble t = true ->
  voxels e' !! i = Some v /\ rebuildTargets e' = rebuildTargets e.
Proof.
  revert e. induction nows as [|n nows IH]; intros e Hrun Hs Hstep Hv Ht Hr.
  - unfold run in Hrun. simpl in Hrun. simplify_eq.
    by eapply rubble_untouched_step.
  - pose proof Hrun as Hrun'. unfold run in Hrun. simpl in Hrun.
    destruct (updatePhysics n e) as [e2|] eqn:H2; simpl in Hrun; [|done].
    pose proof (frames_state_back nows e2 e1 Hrun Hs) as Hs2.
    pose proof (updatePhysics_state_back _ _ _ H2 Hs2) as Hse.
    destruct (rubble_untouched_step n e e2 i v t Hse H2 Hv Ht Hr)
      as [Hv2 Ht2].
    destruct (IH e2 Hrun Hs Hstep Hv2) as [Hv' Ht'];
      [by rewrite Ht2|done|].
    split; [done|]. by rewrite Ht', Ht2.
Qed.

(** A particle with a target has arrived when its delay has passed and
    the eased position is within 0.1 of the target. *)
Lemma arrived_matched elapsed v t :
  RebuildTarget.isRubble t = false ->
  arrived elapsed v t <->
  RebuildTarget.delay t <= elapsed /\
  (RebuildTarget.x t - (x v + (RebuildTarget.x t - x v) * 0.12)) ^ 2
  + (RebuildTarget.y t - (y v + (RebuildTarget.y t - y v) * 0.12)) ^ 2
  + (RebuildTarget.z t - (z v + (RebuildTarget.z t - z v) * 0.12)) ^ 2
  <= 0.01.
Proof.
  intros Hr. unfold arrived, converge. rewrite Hr.
  destruct (Qltb elapsed (RebuildTarget.delay t)) eqn:Hd; simpl.
  - apply Qltb_lt in Hd. split; [done|]. intros [Hle _]. lra.
  - apply Qltb_ge in Hd.
    destruct (Qltb 0.01 _) eqn:Hfar; simpl.
    + apply Qltb_lt in Hfar. split; [done|]. intros [_ Hle]. lra.
    + apply Qltb_ge in Hfar. by split.
Qed.

(** The completion check looks at the particles with a target only:
    the step ends the rebuild exactly when each of them has arrived. *)
Lemma completion_ignores_rubble now e e' :
  state e = REBUILDING -> updatePhysics now e = Some e' ->
  state e' = STABLE <->
  (forall i v t, voxels e !! i = Some v -> rebuildTargets e !! i = Some t ->
     RebuildTarget.isRubble t = false ->
     arrived (now - rebuildStartTime e) v t).
Proof.
  intros Hs Hrun.
  destruct (updatePhysics_rebuilding now e e' Hs Hrun)
    as (res & Hc & _ & _ & _ & -> & _).
  pose proof (convergeAll_done _ _ _ _ Hc) as Hd.
  destruct (res.2) eqn:Hres.
  - split; [|done]. intros _ i v t Hv Ht _.
    by apply (proj1 Hd eq_refl i v t).
  - split; [done|]. intros Hall. exfalso.
    assert (false = true); [|done]. apply Hd. intros i v t Hv Ht.
    destruct (RebuildTarget.isRubble t) eqn:Hr; [|by eapply Hall].
    unfold arrived, converge. by rewrite Hr.
Qed.

(** ** The scan of the pool *)

Lemma scanned_bound hex pre best :
  scanned hex pre best -> 0.01 <= best.1 /\ best.1 <= 9999.
Proof.
  intros [Hall Hbest]. destruct best as [bd [j|]]; simpl in *.
  - destruct Hbest as (c & Hc & Ht & -> & Hlt & _).
    destruct (Hall j c Hc Ht). lra.
  - subst bd. lra.
Qed.

Lemma scanned_skip hex pre c best :
  Candidate.taken c = true -> scanned hex pre best ->
  scanned hex (pre ++ [c]) best.
Proof.
  intros Htaken [Hall Hbest]. split.
  - intros k c' Hk Hc'. apply lookup_snoc_Some in Hk as [[_ Hk]|[_ <-]].
    + by apply (Hall k c').
    + congruence.
  - destruct best as [bd [j|]]; simpl in *; [|done].
    destruct Hbest as (cj & Hj & Htj & Hbd & Hlt & Hfirst).
    exists cj. split; [by apply lookup_app_l_Some|].
    do 3 (split; [done|]).
    intros k c' Hkj Hk Hc'. apply (Hfirst k c'); [done| |done].
    apply lookup_snoc_Some in Hk as [[_ Hk]|[Hlen _]]; [done|].
    apply lookup_lt_Some in Hj. lia.
Qed.

Lemma scanned_keep hex pre c best :
  Candidate.taken c = false -> best.1 <= distTo hex c ->
  scanned hex pre best -> scanned hex (pre ++ [c]) best.
Proof.
  intros Hfree Hle Hs. pose proof (scanned_bound hex pre best Hs) as [Hlo _].
  destruct Hs as [Hall Hbest]. split.
  - intros k c' Hk Hc'. apply lookup_snoc_Some in Hk as [[_ Hk]|[_ <-]].
    + by apply (Hall k c').
    + split; [lra|done].
  - destruct best as [bd [j|]]; simpl in *; [|done].
    destruct Hbest as (cj & Hj & Htj & Hbd & Hlt & Hfirst).
    exists cj. split; [by apply lookup_app_l_Some|].
    do 3 (split; [done|]).
    intros k c' Hkj Hk Hc'. apply (Hfirst k c'); [done| |done].
    apply lookup_snoc_Some in Hk as [[_ Hk]|[Hlen _]]; [done|].
    apply lookup_lt_Some in Hj. lia.
Qed.

Lemma scanned_improve hex pre c best :
  Candidate.taken c = false -> distTo hex c < best.1 ->
  0.01 <= distTo hex c ->
  scanned hex pre best ->
  scanned hex (pre ++ [c]) (distTo hex c, Some (length pre)).
Proof.
  intros Hfree Hlt Hlo Hs.
  pose proof (scanned_bound hex pre best Hs) as [_ Hhi].
  destruct Hs as [Hall _]. split; simpl.
  - intros k c' Hk Hc'. apply lookup_snoc_Some in Hk as [[_ Hk]|[_ <-]].
    + destruct (Hall k c' Hk Hc'). split; [done|lra].
    + split; [done|lra].
  - exists c. split; [by apply list_lookup_middle|].
    split; [done|]. split; [done|]. split; [lra|].
    intros k c' Hkj Hk Hc'.
    apply lookup_snoc_Some in Hk as [[_ Hk]|[Hlen _]]; [|lia].
    destruct (Hall k c' Hk Hc'). lra.
Qed.

Lemma scan_correct hex rest :
  forall pre best,
    scanned hex pre best ->
    scanResult hex (pre ++ rest) (scan hex rest (length pre) best).
Proof.
  induction rest as [|c rest IH]; intros pre best Hs.
  - simpl. rewrite app_nil_r. pose proof Hs as [Hall Hbest].
    unfold scanResult. destruct best as [bd [j|]]; simpl in *.
    + destruct Hbest as (cj & Hj & Htj & -> & Hlt & Hfirst).
      exists cj. split; [done|]. split; [done|]. split; [done|]. split.
      * intros k c' Hkj Hk Hc'. split; [by eapply Hfirst|].
        by apply (Hall k c').
      * right. intros k c' Hk Hc'. by apply (Hall k c').
    + subst bd. intros k c' Hk Hc'. by apply (Hall k c').
  - simpl. replace (S (length pre)) with (length (pre ++ [c]))
      by (rewrite length_app; simpl; lia).
    rewrite (cons_middle c pre rest), app_assoc.
    destruct (Candidate.taken c) eqn:Htaken.
    { apply IH. by apply scanned_skip. }
    fold (distTo hex c).
    destruct (Qltb (distTo hex c) best.1) eqn:Hlt.
    + apply Qltb_lt in Hlt.
      destruct (Qltb (distTo hex c) 0.01) eqn:Hnear.
      * apply Qltb_lt in Hnear.
        pose proof (scanned_bound hex pre best Hs) as [_ Hhi].
        destruct Hs as [Hall _]. exists c.
        split; [rewrite <- app_assoc; by apply list_lookup_middle|].
        split; [done|]. split; [lra|]. split; [|by left].
        intros k c' Hkj Hk Hc'. rewrite <- app_assoc in Hk.
        rewrite lookup_app_l in Hk by done.
        destruct (Hall k c' Hk Hc'). split; [lra|done].
      * apply Qltb_ge in Hnear. apply IH. by apply (scanned_improve hex pre c best).
    + apply Qltb_ge in Hlt. apply IH. by apply scanned_keep.
Qed.

(** The scan as [assign] starts it. *)
Lemma scan_selected hex available :
  scanResult hex available (scan hex available 0 (9999, None)).
Proof.
  apply (scan_correct hex available [] (9999, None)). split; [|done].
  intros k c Hk. done.
Qed.

(** At most one entry qualifies. *)
Lemma selected_unique hex available j1 j2 :
  selected hex available j1 -> selected hex available j2 -> j1 = j2.
Proof.
  intros (c1 & Hc1 & Ht1 & _ & Hbefore1 & Hmin1)
         (c2 & Hc2 & Ht2 & _ & Hbefore2 & Hmin2).
  destruct (Nat.lt_trichotomy j1 j2) as [Hlt|[Heq|Hlt]]; [|done|]; exfalso.
  - destruct (Hbefore2 j1 c1 Hlt Hc1 Ht1) as [Hless Hfar].
    destruct Hmin1 as [Hnear|Hmin1]; [lra|].
    specialize (Hmin1 j2 c2 Hc2 Ht2). lra.
  - destruct (Hbefore1 j2 c2 Hlt Hc2 Ht2) as [Hless Hfar].
    destruct Hmin2 as [Hnear|Hmin2]; [lra|].
    specialize (Hmin2 j1 c1 Hc1 Ht1). lra.
Qed.

(** ** The planner *)

Lemma planned_start vs :
  planned vs [] (pool vs, replicate (length vs) None).
Proof.
  split; simpl.
  - unfold pool. by rewrite length_imap.
  - by rewrite length_replicate.
  - intros i c Hc. unfold pool in Hc.
    apply list_lookup_imap_Some in Hc as (v & Hv & ->). simpl. eauto.
  - intros i c Hc. unfold pool in Hc.
    apply list_lookup_imap_Some in Hc as (v & Hv & ->). simpl.
    split; [done|]. intros [t Ht].
    apply lookup_replicate in Ht as [? _]. done.
  - intros i t Ht. apply lookup_replicate in Ht as [? _]. done.
Qed.

Lemma planned_more vs seen target st :
  planned vs seen st -> planned vs (seen ++ [target]) st.
Proof.
  intros [H1 H2 H3 H4 H5]. split; try done.
  intros i t Ht. destruct (H5 i t Ht) as (tg & Hin & ->).
  exists tg. split; [|done]. apply elem_of_app. by left.
Qed.

(** What one target does to the pool and to [mappings]. *)
Lemma assign_cases vs seen st target :
  planned vs seen st ->
  (noCandidate (VoxelData.color target) st.1 /\ assign st target = st) \/
  (exists j c,
     selected (VoxelData.color target) st.1 j /\ st.1 !! j = Some c /\
     assign st target =
       (<[j := Candidate.take c]> st.1, <[j := Some (matched target)]> st.2)).
Proof.
  intros Hst. unfold assign.
  pose proof (scan_selected (VoxelData.color target) st.1) as Hscan.
  unfold scanResult in Hscan.
  destruct (scan _ _ _ _).2 as [j|]; [right|by left].
  pose proof Hscan as (c & Hc & _). exists j, c. rewrite Hc.
  destruct (planned_entry _ _ _ Hst j c Hc) as [-> _]. done.
Qed.

Lemma assign_planned vs seen st target :
  planned vs seen st -> planned vs (seen ++ [target]) (assign st target).
Proof.
  intros Hst.
  destruct (assign_cases vs seen st target Hst)
    as [[_ ->]|(j & c & Hsel & Hc & ->)]; [by apply planned_more|].
  destruct Hsel as (c0 & Hc0 & Hfree & _). rewrite Hc in Hc0.
  injection Hc0 as <-.
  destruct Hst as [H1 H2 H3 H4 H5]. split; simpl.
  - by rewrite length_insert.
  - by rewrite length_insert.
  - intros i c' Hc'. destruct (decide (i = j)) as [->|Hne].
    + rewrite list_lookup_insert_eq in Hc'
        by (by eapply lookup_lt_Some). injection Hc' as <-. simpl.
      by apply H3.
    + rewrite list_lookup_insert_ne in Hc' by done. by apply H3.
  - intros i c' Hc'. destruct (decide (i = j)) as [->|Hne].
    + rewrite list_lookup_insert_eq in Hc'
        by (by eapply lookup_lt_Some). injection Hc' as <-. simpl.
      split; [intros _|done]. exists (matched target).
      apply list_lookup_insert_eq. rewrite H2, <- H1.
      by eapply lookup_lt_Some.
    + rewrite list_lookup_insert_ne in Hc' by done.
      rewrite list_lookup_insert_ne by done. by apply H4.
  - intros i t Ht. destruct (decide (i = j)) as [->|Hne].
    + rewrite list_lookup_insert_eq in Ht
        by (rewrite H2, <- H1; by eapply lookup_lt_Some).
      injection Ht as <-. exists target. split; [|done].
      apply elem_of_app. right. by apply list_elem_of_singleton.
    + rewrite list_lookup_insert_ne in Ht by done.
      destruct (H5 i t Ht) as (tg & Hin & ->).
      exists tg. split; [|done]. apply elem_of_app. by left.
Qed.

Lemma planState_snoc vs seen target :
  planState vs (seen ++ [target]) = assign (planState vs seen) target.
Proof. unfold planState. by rewrite foldl_app. Qed.

Lemma planState_planned vs targetModel :
  planned vs targetModel (planState vs targetModel).
Proof.
  induction targetModel as [|target seen IH] using rev_ind.
  - apply planned_start.
  - rewrite planState_snoc. by apply assign_planned.
Qed.

(** The pool is made of the colours alone. *)
Lemma planState_colors vs1 vs2 targetModel :
  color <$> vs1 = color <$> vs2 ->
  planState vs1 targetModel = planState vs2 targetModel.
Proof.
  intros Hcol. unfold planState. f_equal. f_equal.
  - unfold pool.
    transitivity (imap (fun i c => {| Candidate.index := i;
                                      Candidate.color := c;
                                      Candidate.taken := false |})
                    (color <$> vs1)).
    + by rewrite imap_fmap.
    + rewrite Hcol. by rewrite imap_fmap.
  - f_equal. by rewrite <- (length_fmap color vs1), Hcol, length_fmap.
Qed.

(** The pool and the particles tell the same story. *)
Lemma planned_view vs seen st target k :
  planned vs seen st ->
  (forall c, st.1 !! k = Some c ->
     exists w, vs !! k = Some w /\
       distTo (VoxelData.color target) c = colourDist w target /\
       (Candidate.taken c = false <-> untaken st.2 k)) /\
  (forall w, vs !! k = Some w ->
     exists c, st.1 !! k = Some c /\
       distTo (VoxelData.color target) c = colourDist w target /\
       (Candidate.taken c = false <-> untaken st.2 k)).
Proof.
  intros Hst.
  assert (forall c w, st.1 !! k = Some c -> vs !! k = Some w ->
            distTo (VoxelData.color target) c = colourDist w target /\
            (Candidate.taken c = false <-> untaken st.2 k)) as Hboth.
  { intros c w Hc Hw.
    destruct (planned_entry _ _ _ Hst k c Hc) as (_ & w' & Hw' & Hcol).
    assert (w' = w) as -> by congruence.
    split; [unfold distTo, colourDist; by rewrite Hcol|].
    pose proof (planned_taken _ _ _ Hst k c Hc) as Htaken.
    destruct (lookup_lt_is_Some_2 st.2 k) as [m Hm].
    { rewrite (planned_map _ _ _ Hst). by eapply lookup_lt_Some. }
    unfold untaken. rewrite Hm. destruct m as [t|].
    - split; [|done]. intros Hfree.
      assert (Candidate.taken c = true) by (apply Htaken; by exists t).
      congruence.
    - split; [done|]. intros _. destruct (Candidate.taken c) eqn:Ht; [|done].
      destruct (proj1 Htaken eq_refl) as [t Ht']. congruence. }
  split.
  - intros c Hc. destruct (lookup_lt_is_Some_2 vs k) as [w Hw].
    { rewrite <- (planned_pool _ _ _ Hst). by eapply lookup_lt_Some. }
    exists w. split; [done|]. by apply Hboth.
  - intros w Hw. destruct (lookup_lt_is_Some_2 st.1 k) as [c Hc].
    { rewrite (planned_pool _ _ _ Hst). by eapply lookup_lt_Some. }
    exists c. split; [done|]. by apply Hboth.
Qed.

Lemma selected_chosen vs seen st target j :
  planned vs seen st ->
  selected (VoxelData.color target) st.1 j <-> chosen vs st.2 target j.
Proof.
  intros Hst. split.
  - intros (c & Hc & Hfree & Hbound & Hbefore & Hmin).
    destruct (proj1 (planned_view vs seen st target j Hst) c Hc)
      as (v & Hv & Hd & Hu).
    exists v. split; [done|]. split; [by apply Hu|]. rewrite <- Hd.
    split; [done|]. split.
    + intros k w Hlt Hw Huk.
      destruct (proj2 (planned_view vs seen st target k Hst) w Hw)
        as (c' & Hc' & Hd' & Hu').
      rewrite <- Hd'. apply (Hbefore k c' Hlt Hc'). by apply Hu'.
    + destruct Hmin as [Hnear|Hmin]; [by left|right].
      intros k w Hw Huk.
      destruct (proj2 (planned_view vs seen st target k Hst) w Hw)
        as (c' & Hc' & Hd' & Hu').
      rewrite <- Hd'. apply (Hmin k c' Hc'). by apply Hu'.
  - intros (v & Hv & Hfree & Hbound & Hbefore & Hmin).
    destruct (proj2 (planned_view vs seen st target j Hst) v Hv)
      as (c & Hc & Hd & Hu).
    exists c. split; [done|]. split; [by apply Hu|]. rewrite Hd.
    split; [done|]. split.
    + intros k c' Hlt Hc' Hfk.
      destruct (proj1 (planned_view vs seen st target k Hst) c' Hc')
        as (w & Hw & Hd' & Hu').
      rewrite Hd'. apply (Hbefore k w Hlt Hw). by apply Hu'.
    + destruct Hmin as [Hnear|Hmin]; [by left|right].
      intros k c' Hc' Hfk.
      destruct (proj1 (planned_view vs seen st target k Hst) c' Hc')
        as (w & Hw & Hd' & Hu').
      rewrite Hd'. apply (Hmin k w Hw). by apply Hu'.
Qed.

Lemma noCandidate_noneLeft vs seen st target :
  planned vs seen st ->
  noCandidate (VoxelData.color target) st.1 -> noneLeft vs st.2 target.
Proof.
  intros Hst Hnone k w Hw Huk.
  destruct (proj2 (planned_view vs seen st target k Hst) w Hw)
    as (c & Hc & Hd & Hu).
  rewrite <- Hd. apply (Hnone k c Hc). by apply Hu.
Qed.

(** The plan after one more target. *)
Lemma plan_snoc vs seen target :
  (noneLeft vs (plan vs seen) target /\
   plan vs (seen ++ [target]) = plan vs seen) \/
  (exists j,
     chosen vs (plan vs seen) target j /\
     (forall j', chosen vs (plan vs seen) target j' -> j' = j) /\
     plan vs (seen ++ [target])
     = <[j := Some (matched target)]> (plan vs seen)).
Proof.
  unfold plan. rewrite planState_snoc.
  pose proof (planState_planned vs seen) as Hst.
  destruct (assign_cases vs seen _ target Hst)
    as [[Hnone ->]|(j & c & Hsel & Hc & ->)].
  - left. split; [by eapply noCandidate_noneLeft|done].
  - right. exists j. split; [by apply (selected_chosen vs seen)|].
    split; [|done]. intros j' Hj'.
    apply (selected_unique (VoxelData.color target) (planState vs seen).1);
      [|done].
    by apply (selected_chosen vs seen).
Qed.

(** The array [rebuild] installs, entry by entry. *)
Lemma rebuild_lookup targetModel now e i v :
  voxels e !! i = Some v ->
  exists m, plan (voxels e) targetModel !! i = Some m /\
    rebuildTargets (rebuild targetModel now e) !! i
    = Some (default (rubble v) m).
Proof.
  intros Hv.
  destruct (lookup_lt_is_Some_2 (plan (voxels e) targetModel) i) as [m Hm].
  { unfold plan.
    rewrite (planned_map _ _ _ (planState_planned (voxels e) targetModel)).
    by eapply lookup_lt_Some. }
  exists m. split; [done|]. simpl. unfold fillRubble.
  apply lookup_zip_with_Some. by exists v, m.
Qed.

(** C5.  The planner is a function of the particle colours, in slot
    order, and of the ordered target list: two engines with the same
    colours get the same plan, and [rebuild] gives them the same matched
    entries and rubble in the same slots.  [rebuild] installs the plan,
    an empty slot becoming rubble.  The plan starts empty and takes the
    targets in their order; for each, either no particle without target is
    below the initial bound and nothing changes, or the one slot [j] that
    [chosen] describes (first-found minimum of the distance over the
    particles without target, the scan stopping at the first distance
    below 0.01) gets the target.  The distance is [Math_sqrt] of the
    weighted sum of squares. *)
Theorem planner_deterministic (e1 e2 : Engine)
    (targetModel : list VoxelData.t) (now1 now2 : Q) :
  color <$> voxels e1 = color <$> voxels e2 ->
  plan (voxels e1) targetModel = plan (voxels e2) targetModel /\
  (forall i t,
     rebuildTargets (rebuild targetModel now1 e1) !! i = Some t ->
     if RebuildTarget.isRubble t
     then exists t', rebuildTargets (rebuild targetModel now2 e2) !! i = Some t'
                     /\ RebuildTarget.isRubble t' = true
     else rebuildTargets (rebuild targetModel now2 e2) !! i = Some t) /\
  (forall i v, voxels e1 !! i = Some v ->
     exists m, plan (voxels e1) targetModel !! i = Some m /\
       rebuildTargets (rebuild targetModel now1 e1) !! i
       = Some (default (rubble v) m)) /\
  plan (voxels e1) [] = replicate (length (voxels e1)) None /\
  (forall seen target,
     let ms := plan (voxels e1) seen in
     (noneLeft (voxels e1) ms target /\
      plan (voxels e1) (seen ++ [target]) = ms) \/
     (exists j,
        chosen (voxels e1) ms target j /\
        (forall j', chosen (voxels e1) ms target j' -> j' = j) /\
        plan (voxels e1) (seen ++ [target])
        = <[j := Some (matched target)]> ms)) /\
  (forall v target,
     let c2 := THREE_Color (VoxelData.color target) in
     let dr := (r (color v) - r c2) * 0.3 in
     let dg := (g (color v) - g c2) * 0.59 in
     let db := (b (color v) - b c2) * 0.11 in
     colourDist v target = Math_sqrt (dr * dr + dg * dg + db * db)).
Proof.
  intros Hcol.
  assert (plan (voxels e1) targetModel = plan (voxels e2) targetModel)
    as Hplan.
  { unfold plan. by rewrite (planState_colors (voxels e1) (voxels e2)). }
  split; [exact Hplan|]. split; [|split; [|split; [|split]]].
  - intros i t Ht. simpl in Ht. unfold fillRubble in Ht.
    apply lookup_zip_with_Some in Ht as (v1 & m & -> & Hv1 & Hm).
    assert (exists v2, voxels e2 !! i = Some v2) as [v2 Hv2].
    { apply lookup_lt_is_Some_2.
      rewrite <- (length_fmap color (voxels e2)), <- Hcol, length_fmap.
      by eapply lookup_lt_Some. }
    destruct (rebuild_lookup targetModel now2 e2 i v2 Hv2) as (m' & Hm' & Ht2).
    rewrite <- Hplan in Hm'. assert (m' = m) as -> by congruence.
    destruct m as [t|]; simpl in *.
    + destruct (planned_from _ _ _
                  (planState_planned (voxels e1) targetModel) i t Hm)
        as (tg & _ & ->).
      simpl. exact Ht2.
    + by eexists.
  - intros i v Hv. by apply rebuild_lookup.
  - done.
  - intros seen target ms. apply plan_snoc.
  - done.
Qed.

(** ** Counting the assignments *)

Lemma assignedCount_le ms : (assignedCount ms <= length ms)%nat.
Proof.
  induction ms as [|[t|] ms IH]; simpl; lia.
Qed.

Lemma assignedCount_insert ms j t :
  ms !! j = Some None ->
  assignedCount (<[j := Some t]> ms) = S (assignedCount ms).
Proof.
  revert j.
  induction ms as [|m ms IH]; intros [|j] Hj; simpl in *; try done.
  - by simplify_eq.
  - rewrite (IH j Hj). by destruct m.
Qed.

Lemma assignedCount_missing ms :
  (assignedCount ms < length ms)%nat -> exists i, ms !! i = Some None.
Proof.
  induction ms as [|[t|] ms IH]; simpl; intros Hlt.
  - lia.
  - destruct IH as [i Hi]; [lia|]. by exists (S i).
  - by exists 0%nat.
Qed.

Lemma withinBound_spec vs targetModel :
  withinBound vs targetModel = true <->
  (forall v target, v ∈ vs -> target ∈ targetModel ->
     getColorDist (color v) (VoxelData.color target) < 9999).
Proof.
  unfold withinBound. rewrite forallb_forall. split.
  - intros Hall v target Hv Ht. apply list_elem_of_In in Hv, Ht.
    specialize (Hall v Hv). rewrite forallb_forall in Hall.
    by apply Qltb_lt, Hall.
  - intros Hall v Hv. apply forallb_forall. intros target Ht.
    apply Qltb_lt, Hall; by apply list_elem_of_In.
Qed.

Lemma square_nonneg (a : Q) : 0 <= a * a.
Proof. nra. Qed.

Lemma square_scaled (a k : Q) :
  -1 <= a -> a <= 1 -> 0 <= k -> a * k * (a * k) <= k * k.
Proof.
  intros Hlo Hhi Hk. assert (a * a <= 1) by nra.
  assert (0 <= k * k) by nra.
  assert (a * k * (a * k) == (a * a) * (k * k)) as -> by ring. nra.
Qed.

(** The bound asked of the colours holds when all channels are in [0,1]
    and the host's square root is below 9999 on [0,1]. *)
Lemma withinBound_colours vs targetModel :
  (forall q, 0 <= q -> q <= 1 -> Math_sqrt q < 9999) ->
  (forall v, v ∈ vs -> inUnit (color v)) ->
  (forall target, target ∈ targetModel ->
     inUnit (THREE_Color (VoxelData.color target))) ->
  withinBound vs targetModel = true.
Proof.
  intros Hsqrt Hvs Htm. apply withinBound_spec. intros v target Hv Ht.
  destruct (Hvs v Hv) as (Hr1 & Hg1 & Hb1).
  destruct (Htm target Ht) as (Hr2 & Hg2 & Hb2).
  unfold getColorDist.
  set (c1 := color v) in *. set (c2 := THREE_Color _) in *.
  pose proof (square_nonneg ((r c1 - r c2) * 0.3)).
  pose proof (square_nonneg ((g c1 - g c2) * 0.59)).
  pose proof (square_nonneg ((b c1 - b c2) * 0.11)).
  pose proof (square_scaled (r c1 - r c2) 0.3).
  pose proof (square_scaled (g c1 - g c2) 0.59).
  pose proof (square_scaled (b c1 - b c2) 0.11).
  assert (0.3 * 0.3 + 0.59 * 0.59 + 0.11 * 0.11 <= 1)
    by (vm_compute; discriminate).
  apply Hsqrt; lra.
Qed.

Lemma assign_count vs seen st target :
  planned vs seen st ->
  (forall v, v ∈ vs ->
     getColorDist (color v) (VoxelData.color target) < 9999) ->
  assignedCount (assign st target).2
  = Nat.min (length vs) (S (assignedCount st.2)).
Proof.
  intros Hst Hbound. pose proof (assignedCount_le st.2) as Hle.
  rewrite (planned_map _ _ _ Hst) in Hle.
  destruct (assign_cases vs seen st target Hst)
    as [[Hnone ->]|(j & c & Hsel & Hc & ->)].
  - destruct (decide (assignedCount st.2 < length vs)%nat) as [Hlt|]; [|lia].
    exfalso. rewrite <- (planned_map _ _ _ Hst) in Hlt.
    destruct (assignedCount_missing _ Hlt) as [i Hi].
    destruct (lookup_lt_is_Some_2 st.1 i) as [c Hc].
    { rewrite (planned_pool _ _ _ Hst), <- (planned_map _ _ _ Hst).
      by eapply lookup_lt_Some. }
    destruct (planned_entry _ _ _ Hst i c Hc) as (_ & v & Hv & Hcol).
    assert (Candidate.taken c = false) as Hfree.
    { destruct (Candidate.taken c) eqn:Ht; [|done].
      apply (planned_taken _ _ _ Hst i c Hc) in Ht as [t Ht]. congruence. }
    specialize (Hnone i c Hc Hfree). unfold distTo in Hnone.
    rewrite Hcol in Hnone.
    specialize (Hbound v (list_elem_of_lookup_2 _ _ _ Hv)). lra.
  - simpl. destruct Hsel as (c0 & Hc0 & Hfree & _).
    rewrite Hc in Hc0. injection Hc0 as <-.
    assert (st.2 !! j = Some None) as Hj.
    { destruct (lookup_lt_is_Some_2 st.2 j) as [[t|] Ht]; [| |done].
      - rewrite (planned_map _ _ _ Hst), <- (planned_pool _ _ _ Hst).
        by eapply lookup_lt_Some.
      - assert (Candidate.taken c = true); [|congruence].
        apply (planned_taken _ _ _ Hst j c Hc). by exists t. }
    rewrite (assignedCount_insert _ _ _ Hj).
    pose proof (assignedCount_le (<[j := Some (matched target)]> st.2)) as H1.
    rewrite (assignedCount_insert _ _ _ Hj), length_insert,
      (planned_map _ _ _ Hst) in H1. lia.
Qed.

Lemma plan_count vs targetModel :
  withinBound vs targetModel = true ->
  assignedCount (plan vs targetModel)
  = Nat.min (length vs) (length targetModel).
Proof.
  rewrite withinBound_spec. unfold plan.
  induction targetModel as [|target seen IH] using rev_ind; intros Hb.
  - unfold planState. simpl.
    induction (length vs) as [|n IHn]; simpl; [done|]. lia.
  - rewrite planState_snoc.
    rewrite (assign_count vs seen); [|apply planState_planned|].
    + rewrite IH, length_app; simpl; [lia|].
      intros v tg Hv Htg. apply Hb; [done|]. apply elem_of_app. by left.
    + intros v Hv. apply Hb; [done|]. apply elem_of_app. right.
      by apply list_elem_of_singleton.
Qed.

Lemma fillRubble_lookup vs ms i t :
  fillRubble vs ms !! i = Some t <->
  exists v m, vs !! i = Some v /\ ms !! i = Some m /\ t = default (rubble v) m.
Proof.
  unfold fillRubble. rewrite lookup_zip_with_Some. split.
  - intros (v & m & -> & Hv & Hm). by exists v, m.
  - intros (v & m & Hv & Hm & ->). by exists v, m.
Qed.

Lemma fillRubble_counts vs ms :
  length ms = length vs ->
  (forall i t, ms !! i = Some (Some t) -> RebuildTarget.isRubble t = false) ->
  matchedCount (fillRubble vs ms) = assignedCount ms /\
  (rubbleCount (fillRubble vs ms) + assignedCount ms = length vs)%nat.
Proof.
  unfold matchedCount, rubbleCount, fillRubble.
  revert ms. induction vs as [|v vs IH]; intros [|m ms] Hlen Hms;
    simpl in *; try done.
  destruct (IH ms) as [IH1 IH2]; [lia|by intros i; apply (Hms (S i))|].
  destruct m as [t|]; simpl.
  - rewrite (Hms 0%nat t eq_refl). simpl. lia.
  - lia.
Qed.

Lemma matched_not_rubble target :
  RebuildTarget.isRubble (matched target) = false.
Proof. done. Qed.

Lemma plan_targets vs targetModel i t :
  fillRubble vs (plan vs targetModel) !! i = Some t ->
  RebuildTarget.isRubble t = false ->
  exists target, target ∈ targetModel /\ t = matched target.
Proof.
  intros Ht Hr. apply fillRubble_lookup in Ht as (v & m & Hv & Hm & ->).
  destruct m as [t|]; simpl in *; [|done].
  by apply (planned_from _ _ _ (planState_planned vs targetModel) i t).
Qed.

Lemma scan_all_taken hex available i best :
  (forall c, c ∈ available -> Candidate.taken c = true) ->
  scan hex available i best = best.
Proof.
  revert i. induction available as [|c rest IH]; intros i Hall; [done|].
  simpl. rewrite (Hall c) by left. apply IH. intros c' Hc'.
  apply Hall. by right.
Qed.

(** A target that finds every pool entry taken changes nothing. *)
Lemma assign_exhausted st target :
  (forall c, c ∈ st.1 -> Candidate.taken c = true) -> assign st target = st.
Proof.
  intros Hall. unfold assign. by rewrite scan_all_taken.
Qed.

Lemma rebuild_fields targetModel now e :
  let e1 := rebuild targetModel now e in
  voxels e1 = voxels e /\ state e1 = REBUILDING /\
  rebuildStartTime e1 = now /\
  stateChanges e1 = REBUILDING :: stateChanges e /\
  rebuildTargets e1 = fillRubble (voxels e) (plan (voxels e) targetModel).
Proof. done. Qed.

(** C6.  When there are more particles than targets, and every colour
    distance is below the initial bound of the scan (as it is for colours
    with channels in [0,1], see [withinBound_colours]), every target is
    matched and exactly (particles - targets) particles are marked rubble;
    a target that finds the pool exhausted changes nothing; and the
    completion check of any step taken in state [REBUILDING] is decided by
    the particles that are not rubble alone. *)
Theorem rubble_count (targetModel : list VoxelData.t) (now : Q) (e : Engine) :
  (length targetModel < length (voxels e))%nat ->
  withinBound (voxels e) targetModel = true ->
  let e1 := rebuild targetModel now e in
  matchedCount (rebuildTargets e1) = length targetModel /\
  rubbleCount (rebuildTargets e1)
    = (length (voxels e) - length targetModel)%nat /\
  (forall st target,
     (forall c, c ∈ st.1 -> Candidate.taken c = true) ->
     assign st target = st) /\
  (forall e2 now' e',
     state e2 = REBUILDING ->
     updatePhysics now' e2 = Some e' ->
     state e' = STABLE <->
     (forall i v t,
        voxels e2 !! i = Some v -> rebuildTargets e2 !! i = Some t ->
        RebuildTarget.isRubble t = false ->
        arrived (now' - rebuildStartTime e2) v t)).
Proof.
  intros Hlt Hb e1.
  destruct (fillRubble_counts (voxels e) (plan (voxels e) targetModel))
    as [Hm Hr].
  { apply (planned_map _ _ _ (planState_planned (voxels e) targetModel)). }
  { intros i t Ht.
    destruct (planned_from _ _ _ (planState_planned (voxels e) targetModel)
                i t Ht) as (tg & _ & ->). done. }
  rewrite (plan_count _ _ Hb) in Hm, Hr.
  split; [|split; [|split]].
  - simpl. lia.
  - simpl. lia.
  - apply assign_exhausted.
  - intros e2 now' e' Hs Hstep.
    by apply (completion_ignores_rubble now' e2 e').
Qed.

(** ** The activation delay *)

Lemma delayOf_formula ty :
  delayOf ty == Qmax 0 ((ty - FLOOR_Y) / 15) * 800.
Proof.
  unfold delayOf, Math_max0.
  destruct (Qltb 0 ((ty - FLOOR_Y) / 15)) eqn:Hpos.
  - apply Qltb_lt in Hpos. rewrite Q.max_r; [done|]. by apply Qlt_le_weak.
  - apply Qltb_ge in Hpos. by rewrite Q.max_l.
Qed.

Lemma delayOf_monotone h1 h2 : h1 <= h2 -> delayOf h1 <= delayOf h2.
Proof.
  intros Hle. rewrite !delayOf_formula.
  apply Qmult_le_compat_r; [|done].
  apply Q.max_le_compat_l.
  apply Qmult_le_compat_r; [|done]. lra.
Qed.

(** C7.  Every matched entry of the array a rebuild installs carries the
    position of a target of the model and the delay
    [max(0, (y - FLOOR_Y)/15) * 800] for its height [y]; and of two matched
    entries the one that is not higher has the delay that is not larger.
    The heights need not be above the floor. *)
Theorem delay_monotone (targetModel : list VoxelData.t) (now : Q)
    (e : Engine) :
  let ts := rebuildTargets (rebuild targetModel now e) in
  (forall i t, ts !! i = Some t -> RebuildTarget.isRubble t = false ->
     (exists target, target ∈ targetModel /\
        RebuildTarget.x t = VoxelData.x target /\
        RebuildTarget.y t = VoxelData.y target /\
        RebuildTarget.z t = VoxelData.z target) /\
     RebuildTarget.delay t
       == Qmax 0 ((RebuildTarget.y t - FLOOR_Y) / 15) * 800) /\
  (forall i1 i2 t1 t2,
     ts !! i1 = Some t1 -> ts !! i2 = Some t2 ->
     RebuildTarget.isRubble t1 = false ->
     RebuildTarget.isRubble t2 = false ->
     RebuildTarget.y t1 <= RebuildTarget.y t2 ->
     RebuildTarget.delay t1 <= RebuildTarget.delay t2).
Proof.
  intros ts. split.
  - intros i t Ht Hr.
    destruct (plan_targets _ _ _ _ Ht Hr) as (tg & Hin & ->).
    split; [by exists tg|]. simpl. apply delayOf_formula.
  - intros i1 i2 t1 t2 H1 H2 Hr1 Hr2 Hle.
    destruct (plan_targets _ _ _ _ H1 Hr1) as (tg1 & _ & ->).
    destruct (plan_targets _ _ _ _ H2 Hr2) as (tg2 & _ & ->).
    simpl in *. by apply delayOf_monotone.
Qed.

(** ** rebuild and the state machine *)

Lemma dismantle_guard e : state e <> STABLE -> dismantle e = Some e.
Proof. unfold dismantle. intros Hs. by case_decide. Qed.

Lemma fillRubble_length vs targetModel :
  length (fillRubble vs (plan vs targetModel)) = length vs.
Proof.
  unfold fillRubble. rewrite length_zip_with.
  pose proof (planned_map _ _ _ (planState_planned vs targetModel)) as Hl.
  unfold plan. simpl in Hl. lia.
Qed.

(** C9.  From any state [rebuild] sets the state to [REBUILDING], calls
    the state-change callback with it, and installs an assignment array
    and a start time that are functions of the particles, the targets and
    the clock alone; it never returns the engine it was given, whereas
    [dismantle] called in the state it leaves returns the engine
    unchanged. *)
Theorem rebuild_unconditional (targetModel : list VoxelData.t) (now : Q)
    (e : Engine) :
  let e1 := rebuild targetModel now e in
  state e1 = REBUILDING /\
  stateChanges e1 = REBUILDING :: stateChanges e /\
  rebuildStartTime e1 = now /\
  rebuildTargets e1 = fillRubble (voxels e) (plan (voxels e) targetModel) /\
  length (rebuildTargets e1) = length (voxels e) /\
  voxels e1 = voxels e /\
  e1 <> e /\
  dismantle e1 = Some e1.
Proof.
  intros e1. repeat split; try done.
  - apply fillRubble_length.
  - intros Heq. apply (f_equal stateChanges) in Heq. simpl in Heq.
    apply (f_equal length) in Heq. simpl in Heq. lia.
Qed.

Lemma fillRubble_none vs :
  fillRubble vs (replicate (length vs) None) = rubble <$> vs.
Proof.
  unfold fillRubble. induction vs as [|v vs IH]; simpl; [done|].
  by rewrite IH.
Qed.

Lemma convergeAll_rubble elapsed vs :
  convergeAll elapsed vs (rubble <$> vs) = Some (vs, true).
Proof.
  induction vs as [|v vs IH]; simpl; [done|].
  change (list_fmap _ _ rubble vs) with (rubble <$> vs). by rewrite IH.
Qed.

(** C10.  A rebuild with no target marks every particle rubble, at its
    own position and with delay 0; the next physics step finds the
    completion check satisfied, returns to [STABLE], notifies the
    callback, and leaves every particle as it was. *)
Theorem empty_rebuild (now now' : Q) (e : Engine) :
  let e1 := rebuild [] now e in
  rebuildTargets e1 = rubble <$> voxels e /\
  (forall i t, rebuildTargets e1 !! i = Some t ->
     RebuildTarget.isRubble t = true /\ RebuildTarget.delay t = 0 /\
     exists v, voxels e !! i = Some v /\
       RebuildTarget.x t = x v /\ RebuildTarget.y t = y v /\
       RebuildTarget.z t = z v) /\
  exists e2,
    updatePhysics now' e1 = Some e2 /\
    state e2 = STABLE /\
    voxels e2 = voxels e /\
    stateChanges e2 = STABLE :: REBUILDING :: stateChanges e.
Proof.
  intros e1.
  assert (rebuildTargets e1 = rubble <$> voxels e) as Hts.
  { simpl. unfold plan, planState. simpl. apply fillRubble_none. }
  split; [done|]. split.
  - intros i t Ht. rewrite Hts, list_lookup_fmap in Ht.
    destruct (voxels e !! i) as [v|] eqn:Hv; simpl in Ht; [|done].
    injection Ht as <-. simpl. eauto 10.
  - unfold updatePhysics. rewrite Hts. simpl.
    rewrite convergeAll_rubble. simpl. eauto.
Qed.

(** ** The grid of the structural-integrity pass *)

Lemma adjacent_shift c c' :
  adjacent c c' <-> exists d, d ∈ neighbors /\ c' = shift c d.
Proof.
  destruct c as [[cx cy] cz], c' as [[cx' cy'] cz'].
  unfold adjacent, shift, neighbors. simpl. split.
  - intros Hadj.
    assert ((cx' = cx + 1 /\ cy' = cy /\ cz' = cz) \/
            (cx' = cx - 1 /\ cy' = cy /\ cz' = cz) \/
            (cx' = cx /\ cy' = cy + 1 /\ cz' = cz) \/
            (cx' = cx /\ cy' = cy - 1 /\ cz' = cz) \/
            (cx' = cx /\ cy' = cy /\ cz' = cz + 1) \/
            (cx' = cx /\ cy' = cy /\ cz' = cz - 1))%Z
      as [(-> & -> & ->)|[(-> & -> & ->)|[(-> & -> & ->)|
          [(-> & -> & ->)|[(-> & -> & ->)|(-> & -> & ->)]]]]] by lia.
    + exists (1, 0, 0)%Z. split; [set_solver|]. simpl. repeat f_equal; lia.
    + exists (-1, 0, 0)%Z. split; [set_solver|]. simpl. repeat f_equal; lia.
    + exists (0, 1, 0)%Z. split; [set_solver|]. simpl. repeat f_equal; lia.
    + exists (0, -1, 0)%Z. split; [set_solver|]. simpl. repeat f_equal; lia.
    + exists (0, 0, 1)%Z. split; [set_solver|]. simpl. repeat f_equal; lia.
    + exists (0, 0, -1)%Z. split; [set_solver|]. simpl. repeat f_equal; lia.
  - intros (d & Hd & Heq).
    repeat (apply elem_of_cons in Hd as [->|Hd]);
      try (by apply elem_of_nil in Hd);
      simpl in Heq; injection Heq as -> -> ->; lia.
Qed.

Lemma base_length vs : length (base vs) = length vs.
Proof. apply length_fmap. Qed.

Lemma base_lookup vs i v :
  vs !! i = Some v -> base vs !! i = Some (setGrounded false v).
Proof. intros Hv. unfold base. by rewrite list_lookup_fmap, Hv. Qed.

Lemma base_lookup_inv vs i b :
  base vs !! i = Some b ->
  exists v, vs !! i = Some v /\ b = setGrounded false v.
Proof.
  unfold base. rewrite list_lookup_fmap. intros Hb.
  destruct (vs !! i) as [v|]; simpl in Hb; [|done].
  injection Hb as <-. by exists v.
Qed.

Lemma base_insert vs j nv gr :
  vs !! j = Some nv -> base (<[j := setGrounded gr nv]> vs) = base vs.
Proof.
  intros Hj. unfold base. rewrite list_fmap_insert. simpl.
  apply list_insert_id. by rewrite list_lookup_fmap, Hj.
Qed.

Lemma base_base vs : base (base vs) = base vs.
Proof. unfold base. rewrite <- list_fmap_compose. done. Qed.

Lemma setGrounded_same v : setGrounded (grounded v) v = v.
Proof. by destruct v. Qed.

(** Reachability does not look at [grounded]. *)
Lemma supported_base vs vs' i :
  base vs = base vs' -> supported vs i -> supported vs' i.
Proof.
  intros Hb Hs. induction Hs as [i v Hv Ha|i j v w _ IH Hv Hw Hf Hadj].
  - apply base_lookup in Hv. rewrite Hb in Hv.
    apply base_lookup_inv in Hv as (v' & Hv' & Heq).
    apply (supported_anchor vs' i v' Hv').
    change (isAnchor (setGrounded false v') = true). by rewrite <- Heq.
  - apply base_lookup in Hv, Hw. rewrite Hb in Hv, Hw.
    apply base_lookup_inv in Hv as (v' & Hv' & Heqv).
    apply base_lookup_inv in Hw as (w' & Hw' & Heqw).
    apply (supported_step vs' i j v' w' IH Hv' Hw').
    + change (isFalling (setGrounded false w') = false). by rewrite <- Heqw.
    + change (adjacent (cell (setGrounded false v'))
                (cell (setGrounded false w'))).
      by rewrite <- Heqv, <- Heqw.
Qed.

Lemma supported_not_falling vs i v :
  supported vs i -> vs !! i = Some v -> isFalling v = false.
Proof.
  intros Hs Hv. destruct Hs as [i v' Hv' Ha|i j v' w _ _ Hw Hf _].
  - rewrite Hv in Hv'. injection Hv' as <-. unfold isAnchor in Ha.
    by destruct (isFalling v).
  - rewrite Hv in Hw. by injection Hw as <-.
Qed.

(** ** The map of the pass *)

Lemma buildMap_base i vs m : buildMap i (base vs) m = buildMap i vs m.
Proof.
  revert i m. induction vs as [|v vs IH]; intros i m; [done|].
  simpl. apply IH.
Qed.

Lemma buildMap_sound i vs m c j :
  buildMap i vs m !! c = Some j ->
  m !! c = Some j \/
  exists k v, j = (i + k)%nat /\ vs !! k = Some v /\
    isFalling v = false /\ cell v = c.
Proof.
  revert i m. induction vs as [|v vs IH]; intros i m Hj; simpl in Hj.
  - by left.
  - apply IH in Hj as [Hj|(k & w & -> & Hk & Hf & Hc)].
    + destruct (isFalling v) eqn:Hfv; [by left|].
      destruct (decide (cell v = c)) as [<-|Hne].
      * rewrite lookup_insert_eq in Hj. injection Hj as <-.
        right. exists 0%nat, v. split; [lia|done].
      * rewrite lookup_insert_ne in Hj by done. by left.
    + right. exists (S k), w. split; [lia|done].
Qed.

Lemma buildMap_other i vs m c :
  (forall k v, vs !! k = Some v -> isFalling v = false -> cell v <> c) ->
  buildMap i vs m !! c = m !! c.
Proof.
  revert i m. induction vs as [|v vs IH]; intros i m Hno; [done|].
  simpl. rewrite IH by (intros k w Hk; apply (Hno (S k) w Hk)).
  destruct (isFalling v) eqn:Hf; [done|].
  apply lookup_insert_ne. by apply (Hno 0%nat v).
Qed.

Lemma buildMap_complete i vs m k v :
  vs !! k = Some v -> isFalling v = false ->
  (forall k' v', (k < k')%nat -> vs !! k' = Some v' ->
     isFalling v' = false -> cell v' <> cell v) ->
  buildMap i vs m !! cell v = Some (i + k)%nat.
Proof.
  revert i m k. induction vs as [|w vs IH]; intros i m k Hk Hf Hlast; [done|].
  destruct k as [|k]; simpl in *.
  - injection Hk as ->. rewrite Hf.
    rewrite buildMap_other.
    + rewrite lookup_insert_eq. f_equal. lia.
    + intros k' v' Hk'. apply (Hlast (S k') v'); [lia|done].
  - rewrite (IH (S i) _ k Hk Hf).
    + f_equal. lia.
    + intros k' v' Hlt Hk'. apply (Hlast (S k') v'); [lia|done].
Qed.

Lemma voxelMap_sound vs : mapSound (buildMap 0 vs ∅) vs.
Proof.
  intros c j Hj. apply buildMap_sound in Hj as [Hj|(k & v & -> & H1)].
  - by rewrite lookup_empty in Hj.
  - by exists v.
Qed.


(** ** The traversal *)

Lemma ungrounded_le vs : (ungrounded vs <= length vs)%nat.
Proof. induction vs as [|v vs IH]; simpl; [done|]. destruct (grounded v); lia. Qed.

Lemma ungrounded_insert vs j nv :
  vs !! j = Some nv -> grounded nv = false ->
  S (ungrounded (<[j := setGrounded true nv]> vs)) = ungrounded vs.
Proof.
  revert j. induction vs as [|v vs IH]; intros [|j] Hj Hg; simpl in *;
    try done.
  - injection Hj as ->. rewrite Hg. simpl. lia.
  - rewrite <- (IH j Hj Hg). lia.
Qed.

Lemma grows_refl vs : grows vs vs.
Proof. intros i v Hv Hg. by exists v. Qed.

Lemma grows_trans vs1 vs2 vs3 : grows vs1 vs2 -> grows vs2 vs3 -> grows vs1 vs3.
Proof.
  intros H12 H23 i v Hv Hg. destruct (H12 i v Hv Hg) as (v2 & Hv2 & Hg2).
  by apply (H23 i v2).
Qed.

Lemma grows_insert vs j nv :
  vs !! j = Some nv -> grows vs (<[j := setGrounded true nv]> vs).
Proof.
  intros Hj i v Hv Hg. destruct (decide (i = j)) as [->|Hne].
  - exists (setGrounded true nv). split; [|done].
    apply list_lookup_insert_eq. by eapply lookup_lt_Some.
  - exists v. by rewrite list_lookup_insert_ne.
Qed.

Lemma closedAt_grows voxelMap vs vs' v ds :
  grows vs vs' -> closedAt voxelMap vs v ds -> closedAt voxelMap vs' v ds.
Proof.
  intros Hgr Hcl d j Hd Hj. destruct (Hcl d j Hd Hj) as (w & Hw & Hg).
  by apply (Hgr j w).
Qed.

Lemma closedAt_cell voxelMap vs v v' ds :
  cell v = cell v' -> closedAt voxelMap vs v ds -> closedAt voxelMap vs v' ds.
Proof. unfold closedAt. by intros ->. Qed.

Lemma base_cell vs vs' i v v' :
  base vs = base vs' -> vs !! i = Some v -> vs' !! i = Some v' ->
  cell v = cell v' /\ isFalling v = isFalling v' /\ isAnchor v = isAnchor v'.
Proof.
  intros Hb Hv Hv'. apply base_lookup in Hv, Hv'. rewrite Hb, Hv' in Hv.
  assert (setGrounded false v = setGrounded false v') as Heq by congruence.
  change (cell (setGrounded false v) = cell (setGrounded false v') /\
          isFalling (setGrounded false v) = isFalling (setGrounded false v') /\
          isAnchor (setGrounded false v) = isAnchor (setGrounded false v')).
  by rewrite Heq.
Qed.

(** What one neighbour offset does to the loop state. *)
Lemma visit_inv B voxelMap vs queue head i v d :
  mapSound voxelMap B ->
  bfsInv B voxelMap vs queue head ->
  i ∈ queue -> vs !! i = Some v -> d ∈ neighbors ->
  exists vs' ext,
    visit voxelMap v d (vs, queue) = Some (vs', queue ++ ext) /\
    bfsInv B voxelMap vs' (queue ++ ext) head /\
    grows vs vs' /\
    closedAt voxelMap vs' v [d] /\
    (ungrounded vs' + length (queue ++ ext) = ungrounded vs + length queue)%nat.
Proof.
  intros Hmap Hinv Hi Hv Hd. unfold visit. simpl.
  destruct (voxelMap !! shift (cell v) d) as [j|] eqn:Hj.
  2:{ exists vs, []. rewrite app_nil_r.
      split; [done|]. split; [done|]. split; [apply grows_refl|].
      split; [|done].
      intros d' j' Hd' Hj'. apply list_elem_of_singleton in Hd' as ->.
      congruence. }
  destruct (Hmap _ _ Hj) as (b & Hb & Hfb & Hcb).
  rewrite <- (bfs_base _ _ _ _ _ Hinv) in Hb.
  apply base_lookup_inv in Hb as (nv & Hnv & ->).
  rewrite Hnv. simpl. change (isFalling nv = false) in Hfb.
  change (cell nv = shift (cell v) d) in Hcb. rewrite Hfb. simpl.
  destruct (grounded nv) eqn:Hg; simpl.
  { exists vs, []. rewrite app_nil_r.
    split; [done|]. split; [done|]. split; [apply grows_refl|].
    split; [|done].
    intros d' j' Hd' Hj'. apply list_elem_of_singleton in Hd' as ->.
    rewrite Hj in Hj'. injection Hj' as <-. by exists nv. }
  exists (<[j := setGrounded true nv]> vs), [j].
  assert (j < length vs)%nat as Hlen by (by eapply lookup_lt_Some).
  split; [done|]. split; [|split; [|split]].
  - destruct Hinv as [H0 H1 H2 H3 H4 H5]. split.
    + rewrite length_app. lia.
    + by rewrite base_insert.
    + intros k Hk. apply elem_of_app in Hk as [Hk|Hk].
      * destruct (H2 k Hk) as (u & Hu & Hgu & Hfu).
        destruct (decide (k = j)) as [->|Hne]; [congruence|].
        exists u. by rewrite list_lookup_insert_ne.
      * apply list_elem_of_singleton in Hk as ->.
        exists (setGrounded true nv). by rewrite list_lookup_insert_eq.
    + intros k u Hu Hgu. apply elem_of_app.
      destruct (decide (k = j)) as [->|Hne].
      * right. by apply list_elem_of_singleton.
      * left. rewrite list_lookup_insert_ne in Hu by done. by apply (H3 k u).
    + intros k u Hu Hgu. destruct (decide (k = j)) as [->|Hne].
      * destruct (H2 i Hi) as (v0 & Hv0 & Hgv & _).
        rewrite Hv in Hv0. injection Hv0 as <-.
        apply (supported_step B i j (setGrounded false v)
                 (setGrounded false nv)).
        -- by apply (H4 i v).
        -- rewrite <- H1. by apply base_lookup.
        -- rewrite <- H1. by apply base_lookup.
        -- done.
        -- apply adjacent_shift. by exists d.
      * rewrite list_lookup_insert_ne in Hu by done. by apply (H4 k u).
    + intros k i' u Hk Hq Hu.
      apply lookup_app_Some in Hq as [Hq|[Hge _]]; [|lia].
      assert (i' ∈ queue) as Hi' by (by eapply list_elem_of_lookup_2).
      destruct (H2 i' Hi') as (u0 & Hu0 & Hgu0 & _).
      assert (i' <> j) as Hne by congruence.
      rewrite list_lookup_insert_ne in Hu by done.
      eapply closedAt_grows; [by apply grows_insert|]. by eapply H5.
  - by apply grows_insert.
  - intros d' j' Hd' Hj'. apply list_elem_of_singleton in Hd' as ->.
    rewrite Hj in Hj'. injection Hj' as <-.
    exists (setGrounded true nv). by rewrite list_lookup_insert_eq.
  - rewrite length_app. simpl.
    pose proof (ungrounded_insert vs j nv Hnv Hg). lia.
Qed.

(** The [for ... of neighbors] loop for one queue entry. *)
Lemma visits_inv B voxelMap i v ds :
  mapSound voxelMap B ->
  (forall d, d ∈ ds -> d ∈ neighbors) ->
  forall vs queue head,
    bfsInv B voxelMap vs queue head ->
    i ∈ queue -> vs !! i = Some v ->
    exists vs' ext,
      forEach (visit voxelMap v) ds (vs, queue) = Some (vs', queue ++ ext) /\
      bfsInv B voxelMap vs' (queue ++ ext) head /\
      grows vs vs' /\
      closedAt voxelMap vs' v ds /\
      (ungrounded vs' + length (queue ++ ext)
       = ungrounded vs + length queue)%nat.
Proof.
  intros Hmap. induction ds as [|d ds IH]; intros Hds vs queue head Hinv Hi Hv.
  - exists vs, []. rewrite app_nil_r. simpl.
    split; [done|]. split; [done|]. split; [apply grows_refl|].
    split; [|done]. intros d j Hd. by apply elem_of_nil in Hd.
  - destruct (visit_inv B voxelMap vs queue head i v d Hmap Hinv Hi Hv)
      as (vs1 & ext1 & Hrun1 & Hinv1 & Hgr1 & Hcl1 & Hm1); [apply Hds; left|].
    assert (vs1 !! i = Some v) as Hv1.
    { destruct (bfs_queue _ _ _ _ _ Hinv i Hi) as (v0 & Hv0 & Hg0 & _).
      rewrite Hv in Hv0. injection Hv0 as <-.
      destruct (Hgr1 i v Hv Hg0) as (v1 & Hv1 & Hg1).
      destruct (base_cell vs vs1 i v v1) as (_ & _ & _); try done.
      - by rewrite (bfs_base _ _ _ _ _ Hinv), (bfs_base _ _ _ _ _ Hinv1).
      - rewrite Hv1. f_equal.
        rewrite <- (setGrounded_same v1), <- (setGrounded_same v), Hg0, Hg1.
        assert (setGrounded false v1 = setGrounded false v) as Heq.
        { apply base_lookup in Hv, Hv1.
          rewrite (bfs_base _ _ _ _ _ Hinv) in Hv.
          rewrite (bfs_base _ _ _ _ _ Hinv1) in Hv1. congruence. }
        change (setGrounded true (setGrounded false v1)
                = setGrounded true (setGrounded false v)).
        by rewrite Heq. }
    destruct (IH (fun d' Hd' => Hds d' (list_elem_of_further _ _ _ Hd'))
                vs1 (queue ++ ext1) head Hinv1)
      as (vs2 & ext2 & Hrun2 & Hinv2 & Hgr2 & Hcl2 & Hm2);
      [apply elem_of_app; by left|done|].
    exists vs2, (ext1 ++ ext2). rewrite app_assoc.
    split; [simpl; by rewrite Hrun1|]. split; [done|].
    split; [by eapply grows_trans|]. split; [|lia].
    intros d' j Hd' Hj. apply elem_of_cons in Hd' as [->|Hd'].
    + eapply closedAt_grows; [exact Hgr2| |left|exact Hj]. exact Hcl1.
    + by apply (Hcl2 d' j).
Qed.

(** The loop ends within its fuel and leaves the grounded particles closed
    under the neighbour relation of the map. *)
Lemma bfs_correct B voxelMap :
  mapSound voxelMap B ->
  forall fuel vs queue head,
    bfsInv B voxelMap vs queue head ->
    (ungrounded vs + length queue <= fuel + head)%nat ->
    exists vs', bfs fuel voxelMap vs queue head = Some vs' /\
                bfsFinal B voxelMap vs vs'.
Proof.
  intros Hmap. induction fuel as [|fuel IH]; intros vs queue head Hinv Hm.
  - pose proof (bfs_head _ _ _ _ _ Hinv) as Hh.
    assert (queue !! head = None) as Hnone by (apply lookup_ge_None; lia).
    simpl. rewrite Hnone. exists vs. split; [done|].
    split; [apply (bfs_base _ _ _ _ _ Hinv)|]. split; [apply grows_refl|].
    intros i v Hv Hg. split; [by apply (bfs_sound _ _ _ _ _ Hinv i v)|].
    pose proof (bfs_all _ _ _ _ _ Hinv i v Hv Hg) as Hi.
    apply list_elem_of_lookup_1 in Hi as [k Hk].
    apply (bfs_closed _ _ _ _ _ Hinv k i v); [|done|done].
    apply lookup_lt_Some in Hk. lia.
  - simpl. destruct (queue !! head) as [i|] eqn:Hhead.
    2:{ exists vs. split; [done|].
        split; [apply (bfs_base _ _ _ _ _ Hinv)|]. split; [apply grows_refl|].
        intros i v Hv Hg. split; [by apply (bfs_sound _ _ _ _ _ Hinv i v)|].
        pose proof (bfs_all _ _ _ _ _ Hinv i v Hv Hg) as Hi.
        apply list_elem_of_lookup_1 in Hi as [k Hk].
        apply (bfs_closed _ _ _ _ _ Hinv k i v); [|done|done].
        apply lookup_lt_Some in Hk. apply lookup_ge_None in Hhead. lia. }
    assert (i ∈ queue) as Hi by (by eapply list_elem_of_lookup_2).
    destruct (bfs_queue _ _ _ _ _ Hinv i Hi) as (v & Hv & Hg & Hf).
    rewrite Hv. simpl. unfold visitAll.
    destruct (visits_inv B voxelMap i v neighbors Hmap (fun d Hd => Hd)
                vs queue head Hinv Hi Hv)
      as (vs1 & ext & Hrun & Hinv1 & Hgr & Hcl & Hm1).
    rewrite Hrun. simpl.
    apply lookup_lt_Some in Hhead as Hlt.
    destruct (IH vs1 (queue ++ ext) (S head)) as (vs' & Hbfs & Hfin).
    + destruct Hinv1 as [H0 H1 H2 H3 H4 H5]. split; try done.
      * rewrite length_app. lia.
      * intros k i' u Hk Hq Hu. destruct (decide (k = head)) as [->|Hne].
        -- rewrite lookup_app_l in Hq by done. rewrite Hhead in Hq.
           injection Hq as <-.
           destruct (Hgr i v Hv Hg) as (v1 & Hv1 & _).
           rewrite Hu in Hv1. injection Hv1 as <-.
           apply (closedAt_cell voxelMap vs1 v u); [|done].
           apply (base_cell vs vs1 i v u); [|done|done].
           by rewrite (bfs_base _ _ _ _ _ Hinv).
        -- apply (H5 k i' u); [lia|done|done].
    + lia.
    + exists vs'. split; [done|]. destruct Hfin as (Hb & Hgr' & Hfin).
      split; [done|]. split; [by eapply grows_trans|done].
Qed.

(** ** The anchors *)

Lemma markAnchors_fst i vs : (markAnchors i vs).1 = groundAnchor <$> vs.
Proof.
  revert i. induction vs as [|v vs IH]; intros i; [done|].
  simpl. specialize (IH (S i)). destruct (markAnchors (S i) vs) as [ws q].
  simpl in IH. unfold groundAnchor at 1. destruct (isAnchor v); simpl; by rewrite IH.
Qed.

Lemma markAnchors_queue i vs j :
  j ∈ (markAnchors i vs).2 <->
  exists k v, j = (i + k)%nat /\ vs !! k = Some v /\ isAnchor v = true.
Proof.
  revert i. induction vs as [|v vs IH]; intros i; simpl.
  - split; [by intros ?%elem_of_nil|by intros (k & v & _ & ? & _)].
  - specialize (IH (S i)). destruct (markAnchors (S i) vs) as [ws q].
    simpl in IH. destruct (isAnchor v) eqn:Ha; simpl.
    + rewrite elem_of_cons, IH. split.
      * intros [->|(k & w & -> & Hk & Hw)].
        -- exists 0%nat, v. split; [lia|done].
        -- exists (S k), w. split; [lia|done].
      * intros ([|k] & w & -> & Hk & Hw); simpl in Hk.
        -- left. lia.
        -- right. exists k, w. split; [lia|done].
    + rewrite IH. split.
      * intros (k & w & -> & Hk & Hw). exists (S k), w. split; [lia|done].
      * intros ([|k] & w & -> & Hk & Hw); simpl in Hk.
        -- congruence.
        -- exists k, w. split; [lia|done].
Qed.

Lemma markAnchors_measure i vs :
  (forall v, v ∈ vs -> grounded v = false) ->
  (ungrounded (markAnchors i vs).1 + length (markAnchors i vs).2
   = length vs)%nat.
Proof.
  revert i. induction vs as [|v vs IH]; intros i Hall; [done|].
  simpl. specialize (IH (S i) (fun w Hw => Hall w (list_elem_of_further _ _ _ Hw))).
  destruct (markAnchors (S i) vs) as [ws q]. simpl in IH.
  destruct (isAnchor v); simpl; [lia|].
  rewrite (Hall v) by left. lia.
Qed.

Lemma base_grounded vs v : v ∈ base vs -> grounded v = false.
Proof.
  unfold base. intros Hv. apply list_elem_of_fmap in Hv as (w & -> & _). done.
Qed.

Lemma groundAnchor_base vs : base (groundAnchor <$> vs) = base vs.
Proof.
  unfold base. rewrite <- list_fmap_compose. apply list_fmap_ext.
  intros i v _. simpl. unfold groundAnchor. by destruct (isAnchor v).
Qed.

(** The loop invariant holds when the loop is entered. *)
Lemma bfsInv_start vs voxelMap :
  let B := base vs in
  bfsInv B voxelMap (markAnchors 0 B).1 (markAnchors 0 B).2 0.
Proof.
  intros B. split.
  - lia.
  - rewrite markAnchors_fst, groundAnchor_base. apply base_base.
  - intros j Hj. apply markAnchors_queue in Hj as (k & b & -> & Hk & Ha).
    simpl. exists (setGrounded true b).
    rewrite markAnchors_fst, list_lookup_fmap, Hk. simpl.
    unfold groundAnchor. rewrite Ha. split; [done|]. split; [done|].
    unfold isAnchor in Ha. simpl. by destruct (isFalling b).
  - intros k w Hw Hg. rewrite markAnchors_fst, list_lookup_fmap in Hw.
    destruct (B !! k) as [b|] eqn:Hk; simpl in Hw; [|done].
    injection Hw as <-. apply markAnchors_queue. exists k, b.
    split; [done|]. split; [done|]. unfold groundAnchor in Hg.
    destruct (isAnchor b); [done|].
    rewrite (base_grounded vs b) in Hg; [done|].
    by eapply list_elem_of_lookup_2.
  - intros k w Hw Hg. rewrite markAnchors_fst, list_lookup_fmap in Hw.
    destruct (B !! k) as [b|] eqn:Hk; simpl in Hw; [|done].
    injection Hw as <-. apply (supported_anchor B k b Hk).
    unfold groundAnchor in Hg. destruct (isAnchor b); [done|].
    rewrite (base_grounded vs b) in Hg; [done|].
    by eapply list_elem_of_lookup_2.
  - intros k i v Hk. lia.
Qed.

(** ** The particles that start to fall *)

Lemma triggerFalling_unsupported i e v :
  voxels e !! i = Some v -> isFalling v = false ->
  triggerFalling i e
  = Some (setDraws (draws e + 6)
            (setVoxels (<[i := kick (draws e) v]> (voxels e)) e)).
Proof. intros Hv Hf. unfold triggerFalling. by rewrite Hv; simpl; rewrite Hf. Qed.

Lemma dropAt_spec i e v :
  voxels e !! i = Some v ->
  exists e',
    dropAt i e = Some e' /\
    length (voxels e') = length (voxels e) /\
    rebuildTargets e' = rebuildTargets e /\
    rebuildStartTime e' = rebuildStartTime e /\
    state e' = state e /\ stateChanges e' = stateChanges e /\
    countChanges e' = countChanges e /\
    (forall j, j <> i -> voxels e' !! j = voxels e !! j) /\
    voxels e' !! i
    = Some (if unsupportedNow v then kick (draws e) v else v).
Proof.
  intros Hv. unfold dropAt. rewrite Hv. simpl. fold (unsupportedNow v).
  destruct (unsupportedNow v) eqn:Hu.
  - unfold unsupportedNow in Hu. apply andb_true_iff in Hu as [Hf _].
    apply negb_true_iff in Hf.
    rewrite (triggerFalling_unsupported i e v Hv Hf).
    eexists. split; [done|]. simpl. rewrite length_insert.
    repeat split; try done.
    + intros j Hne. by rewrite list_lookup_insert_ne.
    + apply list_lookup_insert_eq. by eapply lookup_lt_Some.
  - exists e. repeat split; done.
Qed.

Lemma dropAll_spec l :
  forall e,
    (forall i, i ∈ l -> (i < length (voxels e))%nat) ->
    exists e',
      forEach dropAt l e = Some e' /\
      length (voxels e') = length (voxels e) /\
      rebuildTargets e' = rebuildTargets e /\
      rebuildStartTime e' = rebuildStartTime e /\
      state e' = state e /\ stateChanges e' = stateChanges e /\
      countChanges e' = countChanges e /\
      forall i v, voxels e !! i = Some v ->
        exists v', voxels e' !! i = Some v' /\
          (i ∈ l -> unsupportedNow v = true -> exists n, v' = kick n v) /\
          (unsupportedNow v = false -> v' = v) /\
          (i ∉ l -> v' = v).
Proof.
  induction l as [|a l IH]; intros e Hin.
  - exists e. simpl. repeat split; try done. intros i v Hv. exists v.
    repeat split; try done. by intros ?%elem_of_nil.
  - destruct (lookup_lt_is_Some_2 (voxels e) a) as [va Hva];
      [apply Hin; left|].
    destruct (dropAt_spec a e va Hva)
      as (e1 & Hrun1 & Hlen1 & Hrt1 & Hst1 & Hs1 & Hsc1 & Hcc1 & Hne1 & Ha1).
    destruct (IH e1) as (e' & Hrun & Hlen & Hrt & Hst & Hs & Hsc & Hcc & Hall).
    { intros i Hi. rewrite Hlen1. apply Hin. by right. }
    exists e'. simpl. rewrite Hrun1. simpl.
    split; [done|]. split; [congruence|]. split; [congruence|].
    split; [congruence|]. split; [congruence|]. split; [congruence|].
    split; [congruence|].
    intros i v Hv. destruct (decide (i = a)) as [->|Hne].
    + rewrite Hva in Hv. injection Hv as <-.
      destruct (Hall a _ Ha1) as (v' & Hv' & _ & Hkeep & _).
      exists v'. split; [done|].
      destruct (unsupportedNow va) eqn:Hu.
      * rewrite (Hkeep eq_refl). split; [by eexists|]. split; [done|].
        intros Hnot. exfalso. apply Hnot. left.
      * rewrite (Hkeep Hu). split; [done|]. split; done.
    + rewrite <- (Hne1 i Hne) in Hv.
      destruct (Hall i v Hv) as (v' & Hv' & Hk & Hkeep & Hout).
      exists v'. split; [done|]. split; [|split; [done|]].
      * intros Hi. apply Hk. apply elem_of_cons in Hi as [?|?]; done.
      * intros Hnot. apply Hout. intros Hi. apply Hnot. by right.
Qed.

Lemma dropUnsupported_spec e :
  exists e',
    dropUnsupported e = Some e' /\
    length (voxels e') = length (voxels e) /\
    rebuildTargets e' = rebuildTargets e /\
    rebuildStartTime e' = rebuildStartTime e /\
    state e' = state e /\ stateChanges e' = stateChanges e /\
    countChanges e' = countChanges e /\
    forall i v, voxels e !! i = Some v ->
      exists v', voxels e' !! i = Some v' /\
        (unsupportedNow v = true -> exists n, v' = kick n v) /\
        (unsupportedNow v = false -> v' = v).
Proof.
  unfold dropUnsupported.
  destruct (dropAll_spec (seq 0 (length (voxels e))) e)
    as (e' & Hrun & Hlen & Hrt & Hst & Hs & Hsc & Hcc & Hall).
  { intros i Hi. apply elem_of_seq in Hi. lia. }
  exists e'. do 7 (split; [done|]).
  intros i v Hv. destruct (Hall i v Hv) as (v' & Hv' & Hk & Hkeep & _).
  exists v'. split; [done|]. split; [|done]. apply Hk.
  apply elem_of_seq. apply lookup_lt_Some in Hv. lia.
Qed.

(** ** The pass as a whole *)

Lemma checkStructuralIntegrity_run e :
  let B := base (voxels e) in
  exists vs3 e',
    checkStructuralIntegrity e = Some e' /\
    bfsFinal B (buildMap 0 B ∅) (groundAnchor <$> B) vs3 /\
    dropUnsupported (setVoxels vs3 e) = Some e'.
Proof.
  intros B. unfold checkStructuralIntegrity. fold (base (voxels e)). fold B.
  pose proof (markAnchors_fst 0 B) as Hfst.
  pose proof (markAnchors_measure 0 B (base_grounded (voxels e))) as Hm.
  pose proof (bfsInv_start (voxels e) (buildMap 0 B ∅)) as Hinv.
  fold B in Hinv. cbv zeta in Hinv.
  destruct (markAnchors 0 B) as [vs2 queue].
  cbn [fst snd] in Hfst, Hm, Hinv. subst vs2.
  assert (buildMap 0 (groundAnchor <$> B) ∅ = buildMap 0 B ∅) as ->.
  { rewrite <- (buildMap_base 0 (groundAnchor <$> B)), groundAnchor_base.
    unfold B. by rewrite base_base, buildMap_base. }
  destruct (bfs_correct B (buildMap 0 B ∅) (voxelMap_sound B)
              (S (length (groundAnchor <$> B))) (groundAnchor <$> B) queue 0
              Hinv) as (vs3 & Hrun & Hfin).
  { rewrite length_fmap. lia. }
  rewrite Hrun. simpl.
  destruct (dropUnsupported_spec (setVoxels vs3 e)) as (e' & Hdrop & _).
  by exists vs3, e'.
Qed.

(** The pass always completes. *)
Lemma checkStructuralIntegrity_total e :
  is_Some (checkStructuralIntegrity e).
Proof.
  destruct (checkStructuralIntegrity_run e) as (vs3 & e' & Hrun & _).
  by exists e'.
Qed.

(** ** The engine does not raise *)

Lemma triggerFalling_total i e :
  (i < length (voxels e))%nat -> wellFormed e ->
  exists e',
    triggerFalling i e = Some e' /\ wellFormed e' /\
    length (voxels e') = length (voxels e) /\ state e' = state e /\
    rebuildTargets e' = rebuildTargets e.
Proof.
  intros Hi Hwf. pose proof Hwf as [Hid Hlen]. unfold triggerFalling.
  destruct (lookup_lt_is_Some_2 _ _ Hi) as [v Hv]. rewrite Hv. simpl.
  destruct (isFalling v); [by exists e|].
  eexists. split; [done|]. simpl. rewrite length_insert.
  split; [|done]. split; simpl; [|by rewrite length_insert].
  intros j w Hw. destruct (decide (j = i)) as [->|Hne].
  - rewrite list_lookup_insert_eq in Hw by done. injection Hw as <-.
    simpl. by apply Hid.
  - rewrite list_lookup_insert_ne in Hw by done. by apply Hid.
Qed.

Lemma checkStructuralIntegrity_fields e e' :
  checkStructuralIntegrity e = Some e' ->
  rebuildTargets e' = rebuildTargets e /\ state e' = state e /\
  length (voxels e') = length (voxels e) /\
  forall i v', voxels e' !! i = Some v' ->
    exists v, voxels e !! i = Some v /\ id v' = id v.
Proof.
  intros Hrun.
  destruct (checkStructuralIntegrity_run e) as (vs3 & e1 & Hrun1 & Hfin & Hdrop).
  rewrite Hrun in Hrun1. injection Hrun1 as <-.
  destruct (dropUnsupported_spec (setVoxels vs3 e))
    as (e2 & Hdrop2 & Hlen & Hrt & _ & Hst & _ & _ & Hall).
  rewrite Hdrop in Hdrop2. injection Hdrop2 as <-. simpl in *.
  destruct Hfin as (Hb & _ & _).
  assert (length vs3 = length (voxels e)) as Hlen3.
  { rewrite <- (base_length vs3), Hb. apply base_length. }
  split; [done|]. split; [done|]. split; [congruence|].
  intros i v' Hv'.
  destruct (lookup_lt_is_Some_2 vs3 i) as [u Hu].
  { rewrite <- Hlen. by eapply lookup_lt_Some. }
  destruct (lookup_lt_is_Some_2 (voxels e) i) as [v Hv].
  { rewrite <- Hlen3. by eapply lookup_lt_Some. }
  exists v. split; [done|].
  assert (id u = id v) as <-.
  { apply base_lookup in Hu, Hv. rewrite Hb, Hv in Hu.
    assert (setGrounded false v = setGrounded false u) as Heq by congruence.
    change (id (setGrounded false u) = id (setGrounded false v)).
    by rewrite Heq. }
  destruct (Hall i u Hu) as (w & Hw & Hk & Hkeep).
  rewrite Hv' in Hw. injection Hw as <-.
  destruct (unsupportedNow u).
  - by destruct (Hk eq_refl) as [n ->].
  - by rewrite (Hkeep eq_refl).
Qed.

Lemma checkStructuralIntegrity_wf e :
  wellFormed e ->
  exists e',
    checkStructuralIntegrity e = Some e' /\ wellFormed e' /\
    length (voxels e') = length (voxels e).
Proof.
  intros [Hid Hlen].
  destruct (checkStructuralIntegrity_total e) as [e' Hrun].
  destruct (checkStructuralIntegrity_fields e e' Hrun)
    as (Hrt & Hst & Hl & Hids).
  exists e'. split; [done|]. split; [|done]. split.
  - intros i v' Hv'. destruct (Hids i v' Hv') as (v & Hv & ->). by apply Hid.
  - rewrite Hrt, Hst, Hl. done.
Qed.

Lemma scatterAt_total i e :
  (i < length (voxels e))%nat -> wellFormed e ->
  exists e',
    scatterAt i e = Some e' /\ wellFormed e' /\
    length (voxels e') = length (voxels e) /\ state e' = state e.
Proof.
  intros Hi Hwf. unfold scatterAt.
  destruct (lookup_lt_is_Some_2 _ _ Hi) as [v Hv]. rewrite Hv. simpl.
  rewrite (proj1 Hwf i v Hv).
  destruct (triggerFalling_total i e Hi Hwf)
    as (e1 & -> & [Hid1 Hlen1] & Hl1 & Hs1 & Hrt1).
  simpl. destruct (lookup_lt_is_Some_2 (voxels e1) i) as [v1 Hv1]; [lia|].
  rewrite Hv1. simpl. eexists. split; [done|]. simpl.
  rewrite length_insert. split; [|by split]. split; simpl.
  - intros j w Hw. destruct (decide (j = i)) as [->|Hne].
    + rewrite list_lookup_insert_eq in Hw by lia. injection Hw as <-.
      simpl. by apply Hid1.
    + rewrite list_lookup_insert_ne in Hw by done. by apply Hid1.
  - by rewrite length_insert.
Qed.

Lemma dismantle_total e :
  wellFormed e ->
  exists e',
    dismantle e = Some e' /\ wellFormed e' /\
    length (voxels e') = length (voxels e).
Proof.
  intros Hwf. unfold dismantle. case_decide as Hs; [|by exists e].
  destruct (forEach_total
              (fun e' => wellFormed e' /\
                         length (voxels e') = length (voxels e))
              scatterAt (seq 0 (length (voxels e))))
    with (a := setState DISMANTLING e) as (e' & Hrun & Hwf' & Hl).
  - intros i a Hin [Hwfa Hla]. apply elem_of_seq in Hin.
    destruct (scatterAt_total i a) as (a' & Ha & Hwa & Hl' & _);
      [lia|done|].
    exists a'. split; [done|]. split; [done|]. congruence.
  - split; [|done]. destruct Hwf as [Hid _]. split; [done|]. done.
  - by exists e'.
Qed.

Lemma converge_id elapsed v t : id (converge elapsed v t).1 = id v.
Proof. unfold converge. by repeat case_match. Qed.

Lemma fall_id v : id (fall v) = id v.
Proof. unfold fall. by repeat case_match. Qed.

Lemma convergeAll_length elapsed vs ts res :
  convergeAll elapsed vs ts = Some res -> length res.1 = length vs.
Proof.
  revert ts res. induction vs as [|v vs IH]; intros ts res Hrun; simpl in *.
  - by simplify_eq.
  - destruct ts as [|t ts]; [done|].
    destruct (converge elapsed v t) as [v' dn].
    destruct (convergeAll elapsed vs ts) as [rest|] eqn:Hrest;
      simpl in Hrun; [|done].
    simplify_eq. simpl. f_equal. by eapply IH.
Qed.

Lemma updatePhysics_total now e :
  wellFormed e ->
  exists e',
    updatePhysics now e = Some e' /\ wellFormed e' /\
    length (voxels e') = length (voxels e).
Proof.
  intros [Hid Hlen]. unfold updatePhysics. case_decide as Hs.
  - destruct (convergeAll_total (now - rebuildStartTime e) (voxels e)
                (rebuildTargets e)) as [[vs allDone] Hc].
    { rewrite Hlen by done. lia. }
    rewrite Hc. simpl. pose proof (convergeAll_length _ _ _ _ Hc) as Hl.
    simpl in Hl.
    assert (forall i v', vs !! i = Some v' -> id v' = i) as Hid'.
    { intros i v' Hv'.
      destruct (lookup_lt_is_Some_2 (voxels e) i) as [v Hv].
      { rewrite <- Hl. by eapply lookup_lt_Some. }
      destruct (convergeAll_lookup _ _ _ _ i v Hc Hv) as (t & _ & Hres).
      simpl in Hres. rewrite Hv' in Hres. injection Hres as ->.
      rewrite converge_id. by apply Hid. }
    eexists. split; [done|]. destruct allDone; simpl.
    + split; [|done]. split; [done|]. done.
    + split; [|done]. split; [done|]. simpl. intros _. rewrite Hl.
      by apply Hlen.
  - eexists. split; [done|]. simpl. rewrite length_fmap. split; [|done].
    split; simpl.
    + intros i v' Hv'. rewrite list_lookup_fmap in Hv'.
      destruct (voxels e !! i) as [v|] eqn:Hv; simpl in Hv'; [|done].
      injection Hv' as <-. rewrite fall_id. by apply Hid.
    + done.
Qed.

Lemma loadInitialModel_wf data e :
  wellFormed (loadInitialModel data e) /\
  length (voxels (loadInitialModel data e)) = length data.
Proof.
  split; [split|]; simpl.
  - intros i v Hv. by apply list_lookup_imap_Some in Hv as (d & _ & ->).
  - done.
  - apply length_imap.
Qed.

Lemma rebuild_wf targetModel now e :
  wellFormed e -> wellFormed (rebuild targetModel now e).
Proof.
  intros [Hid _]. split; simpl; [done|]. intros _. apply fillRubble_length.
Qed.

(** From a well-formed engine, and with clicks that hit particles, no
    sequence of operations raises, and the engine stays well formed. *)
Lemma run_total ops :
  forall e,
    wellFormed e -> validOps (length (voxels e)) ops ->
    exists e', run ops e = Some e' /\ wellFormed e'.
Proof.
  unfold run. induction ops as [|op ops IH]; intros e Hwf Hvalid.
  - by exists e.
  - assert (exists e1, exec op e = Some e1 /\ wellFormed e1 /\
                       validOps (length (voxels e1)) ops)
      as (e1 & Hrun1 & Hwf1 & Hvalid1).
    { destruct op; simpl in *.
      - eexists. split; [done|].
        destruct (loadInitialModel_wf data e) as [Hw Hl].
        split; [done|]. by rewrite Hl.
      - destruct Hvalid as [Hi Hvalid]. unfold onMouseClick.
        case_decide; [|by exists e].
        destruct (triggerFalling_total instanceId e Hi Hwf)
          as (e1 & -> & Hwf1 & Hl1 & _). simpl.
        destruct (checkStructuralIntegrity_wf e1 Hwf1) as (e2 & -> & Hwf2 & Hl2).
        exists e2. split; [done|]. split; [done|]. congruence.
      - destruct (dismantle_total e Hwf) as (e1 & -> & Hwf1 & Hl1).
        exists e1. split; [done|]. split; [done|]. congruence.
      - eexists. split; [done|]. split; [by apply rebuild_wf|done].
      - destruct (updatePhysics_total now e Hwf) as (e1 & -> & Hwf1 & Hl1).
        exists e1. split; [done|]. split; [done|]. congruence.
      - destruct Hvalid as [Hi Hvalid].
        destruct (triggerFalling_total index e Hi Hwf)
          as (e1 & -> & Hwf1 & Hl1 & _).
        exists e1. split; [done|]. split; [done|]. congruence.
      - destruct (checkStructuralIntegrity_wf e Hwf) as (e1 & -> & Hwf1 & Hl1).
        exists e1. split; [done|]. split; [done|]. congruence. }
    simpl. rewrite Hrun1. simpl. by apply IH.
Qed.

Lemma newEngine_wf : wellFormed newEngine.
Proof. split; [by intros i v ?|done]. Qed.

(** Every run from a loaded shape, with clicks that hit particles, ends,
    and ends with no particle both falling and grounded. *)
Lemma flags_exclusive_reachable data ops :
  validOps (length data) ops ->
  exists e',
    run ops (loadInitialModel data newEngine) = Some e' /\
    Forall flagsOk (voxels e').
Proof.
  intros Hvalid.
  destruct (loadInitialModel_wf data newEngine) as [Hwf Hlen].
  destruct (run_total ops (loadInitialModel data newEngine) Hwf)
    as (e' & Hrun & _); [by rewrite Hlen|].
  exists e'. split; [done|]. by eapply flags_exclusive_after_load.
Qed.

(** * Further properties of the engine *)

(** ** What the operations do to each particle *)

(** The two halves of a pass: the traversal ends on a list [vs3], and the
    last loop runs on it. *)
Lemma pass_trace e e' :
  checkStructuralIntegrity e = Some e' ->
  exists vs3,
    bfs (S (length (groundAnchor <$> base (voxels e))))
      (buildMap 0 (base (voxels e)) ∅)
      (groundAnchor <$> base (voxels e))
      (markAnchors 0 (base (voxels e))).2 0 = Some vs3 /\
    dropUnsupported (setVoxels vs3 e) = Some e'.
Proof.
  unfold checkStructuralIntegrity. fold (base (voxels e)).
  pose proof (markAnchors_fst 0 (base (voxels e))) as Hfst.
  destruct (markAnchors 0 (base (voxels e))) as [vs2 queue].
  cbn [fst snd] in *. subst vs2.
  assert (buildMap 0 (groundAnchor <$> base (voxels e)) ∅
          = buildMap 0 (base (voxels e)) ∅) as ->.
  { rewrite <- (buildMap_base 0 (groundAnchor <$> base (voxels e))),
      groundAnchor_base.
    by rewrite base_base, buildMap_base. }
  intros Hrun. destruct (bfs _ _ _ _ _) as [vs3|]; simpl in Hrun; [|done].
  by exists vs3.
Qed.

(** The outcome of a pass, particle by particle, with the list [vs3] the
    traversal ends on. *)
Lemma pass_outcome_at e e' vs3 :
  bfs (S (length (groundAnchor <$> base (voxels e))))
    (buildMap 0 (base (voxels e)) ∅)
    (groundAnchor <$> base (voxels e))
    (markAnchors 0 (base (voxels e))).2 0 = Some vs3 ->
  dropUnsupported (setVoxels vs3 e) = Some e' ->
  bfsFinal (base (voxels e)) (buildMap 0 (base (voxels e)) ∅)
    (groundAnchor <$> base (voxels e)) vs3 /\
  length (voxels e') = length (voxels e) /\
  rebuildTargets e' = rebuildTargets e /\
  rebuildStartTime e' = rebuildStartTime e /\
  state e' = state e /\ stateChanges e' = stateChanges e /\
  countChanges e' = countChanges e /\
  forall i v, voxels e !! i = Some v ->
    exists u v',
      vs3 !! i = Some u /\ voxels e' !! i = Some v' /\
      setGrounded false u = setGrounded false v /\
      (isFalling v = true -> grounded u = false /\ v' = setGrounded false v) /\
      (isFalling v = false -> grounded u = true -> v' = setGrounded true v) /\
      (isFalling v = false -> grounded u = false -> exists n, v' = kick n v).
Proof.
  intros Hbfs Hdrop.
  assert (bfsFinal (base (voxels e)) (buildMap 0 (base (voxels e)) ∅)
            (groundAnchor <$> base (voxels e)) vs3) as Hfin.
  { pose proof (bfsInv_start (voxels e) (buildMap 0 (base (voxels e)) ∅))
      as Hinv.
    cbv zeta in Hinv. rewrite markAnchors_fst in Hinv.
    pose proof (markAnchors_measure 0 (base (voxels e))
                  (base_grounded (voxels e))) as Hm.
    rewrite markAnchors_fst in Hm.
    destruct (bfs_correct (base (voxels e)) (buildMap 0 (base (voxels e)) ∅)
                (voxelMap_sound (base (voxels e)))
                (S (length (groundAnchor <$> base (voxels e))))
                (groundAnchor <$> base (voxels e))
                (markAnchors 0 (base (voxels e))).2 0 Hinv)
      as (vs' & Hrun & Hfin).
    { rewrite length_fmap. lia. }
    rewrite Hbfs in Hrun. by injection Hrun as <-. }
  destruct (dropUnsupported_spec (setVoxels vs3 e))
    as (e2 & Hdrop2 & Hlen & Hrt & Hrs & Hst & Hsc & Hcc & Hall).
  rewrite Hdrop in Hdrop2. injection Hdrop2 as <-. simpl in *.
  pose proof Hfin as (Hb & _ & Hclosed).
  assert (length vs3 = length (voxels e)) as Hlen3.
  { rewrite <- (base_length vs3), Hb. apply base_length. }
  split; [done|]. split; [congruence|].
  do 5 (split; [done|]).
  intros i v Hv.
  destruct (lookup_lt_is_Some_2 vs3 i) as [u Hu].
  { rewrite Hlen3. by eapply lookup_lt_Some. }
  assert (setGrounded false u = setGrounded false v) as Huv.
  { apply base_lookup in Hu, Hv. rewrite Hb in Hu. congruence. }
  assert (isFalling u = isFalling v) as Hfu.
  { change (isFalling (setGrounded false u) = isFalling (setGrounded false v)).
    by rewrite Huv. }
  destruct (Hall i u Hu) as (v' & Hv' & Hkicked & Hkept).
  exists u, v'. split; [done|]. split; [done|]. split; [done|].
  unfold unsupportedNow in Hkicked, Hkept. rewrite Hfu in Hkicked, Hkept.
  split; [|split].
  - intros Hf. rewrite Hf in Hkept. simpl in Hkept.
    assert (grounded u = false) as Hg.
    { destruct (grounded u) eqn:Hg; [|done].
      destruct (Hclosed i u Hu Hg) as [Hs _].
      apply base_lookup in Hv.
      pose proof (supported_not_falling _ _ _ Hs Hv) as Hnf.
      simpl in Hnf. congruence. }
    split; [done|]. rewrite (Hkept eq_refl).
    by rewrite <- (setGrounded_same u), Hg.
  - intros Hf Hg. rewrite Hf, Hg in Hkept. rewrite (Hkept eq_refl).
    rewrite <- (setGrounded_same u), Hg.
    change (setGrounded true (setGrounded false u)
            = setGrounded true (setGrounded false v)).
    by rewrite Huv.
  - intros Hf Hg. rewrite Hf, Hg in Hkicked.
    destruct (Hkicked eq_refl) as [n ->]. exists n.
    change (kick n (setGrounded false u) = kick n (setGrounded false v)).
    by rewrite Huv.
Qed.

Lemma pass_outcome e e' :
  checkStructuralIntegrity e = Some e' ->
  exists vs3,
    bfsFinal (base (voxels e)) (buildMap 0 (base (voxels e)) ∅)
      (groundAnchor <$> base (voxels e)) vs3 /\
    dropUnsupported (setVoxels vs3 e) = Some e' /\
    length (voxels e') = length (voxels e) /\
    rebuildTargets e' = rebuildTargets e /\
    rebuildStartTime e' = rebuildStartTime e /\
    state e' = state e /\ stateChanges e' = stateChanges e /\
    countChanges e' = countChanges e /\
    forall i v, voxels e !! i = Some v ->
      exists u v',
        vs3 !! i = Some u /\ voxels e' !! i = Some v' /\
        setGrounded false u = setGrounded false v /\
        (isFalling v = true -> grounded u = false /\ v' = setGrounded false v) /\
        (isFalling v = false -> grounded u = true -> v' = setGrounded true v) /\
        (isFalling v = false -> grounded u = false -> exists n, v' = kick n v).
Proof.
  intros Hrun. destruct (pass_trace e e' Hrun) as (vs3 & Hbfs & Hdrop).
  destruct (pass_outcome_at e e' vs3 Hbfs Hdrop) as (Hfin & Hrest).
  exists vs3. split; [done|]. split; [done|]. exact Hrest.
Qed.

Section Pointwise.

Variable R : SimulationVoxel -> SimulationVoxel -> Prop.
Hypothesis R_refl : forall v, R v v.
Hypothesis R_trans : forall v1 v2 v3, R v1 v2 -> R v2 v3 -> R v1 v3.

Lemma pointwise_refl vs : Forall2 R vs vs.
Proof. induction vs; by constructor. Qed.

Lemma pointwise_trans vs1 vs2 vs3 :
  Forall2 R vs1 vs2 -> Forall2 R vs2 vs3 -> Forall2 R vs1 vs3.
Proof.
  intros H12. revert vs3.
  induction H12 as [|v1 v2 vs1 vs2 Hv _ IH]; intros vs3 H23;
    inversion_clear H23; constructor; eauto.
Qed.

Lemma pointwise_insert vs i v v' :
  vs !! i = Some v -> R v v' -> Forall2 R vs (<[i := v']> vs).
Proof.
  intros Hv Hr. rewrite <- (list_insert_id vs i v Hv) at 1.
  apply Forall2_insert; [apply pointwise_refl|done].
Qed.

Hypothesis R_kick : forall n v, R v (kick n v).

Lemma triggerFalling_pointwise i e e' :
  triggerFalling i e = Some e' -> Forall2 R (voxels e) (voxels e').
Proof.
  unfold triggerFalling. intros Hrun.
  destruct (voxels e !! i) as [v|] eqn:Hv; simpl in Hrun; [|done].
  destruct (isFalling v); simplify_eq; simpl; [apply pointwise_refl|].
  by apply (pointwise_insert _ _ v).
Qed.

Hypothesis R_setGrounded : forall gr v, R v (setGrounded gr v).

Lemma pass_pointwise e e' :
  checkStructuralIntegrity e = Some e' -> Forall2 R (voxels e) (voxels e').
Proof.
  intros Hrun.
  destruct (pass_outcome e e' Hrun) as (vs3 & _ & _ & Hlen & _ & _ & _ & _ & _ & Hall).
  apply Forall2_same_length_lookup_2; [done|].
  intros i v v' Hv Hv'.
  destruct (Hall i v Hv) as (u & w & _ & Hw & _ & Hfall & Hground & Hkick).
  rewrite Hv' in Hw. injection Hw as <-.
  destruct (isFalling v) eqn:Hf.
  - destruct (Hfall eq_refl) as [_ ->]. apply R_setGrounded.
  - destruct (grounded u) eqn:Hg.
    + rewrite (Hground eq_refl eq_refl). apply R_setGrounded.
    + destruct (Hkick eq_refl eq_refl) as [n ->]. apply R_kick.
Qed.

Lemma onMouseClick_pointwise i e e' :
  onMouseClick i e = Some e' -> Forall2 R (voxels e) (voxels e').
Proof.
  unfold onMouseClick. intros Hrun.
  case_decide; [|simplify_eq; apply pointwise_refl].
  destruct (triggerFalling i e) as [e1|] eqn:H1; simpl in Hrun; [|done].
  eapply pointwise_trans; [by eapply triggerFalling_pointwise|].
  by apply pass_pointwise.
Qed.

Hypothesis R_setVelocity : forall a1 a2 a3 v, R v (setVelocity a1 a2 a3 v).

Lemma scatterAt_pointwise i e e' :
  scatterAt i e = Some e' -> Forall2 R (voxels e) (voxels e').
Proof.
  unfold scatterAt. intros Hrun.
  destruct (voxels e !! i) as [v|]; simpl in Hrun; [|done].
  destruct (triggerFalling (id v) e) as [e1|] eqn:H1; simpl in Hrun; [|done].
  destruct (voxels e1 !! i) as [v1|] eqn:Hv1; simpl in Hrun; [|done].
  simplify_eq. simpl.
  eapply pointwise_trans; [by eapply triggerFalling_pointwise|].
  by apply (pointwise_insert _ _ v1).
Qed.

Lemma dismantle_pointwise e e' :
  dismantle e = Some e' -> Forall2 R (voxels e) (voxels e').
Proof.
  unfold dismantle. case_decide; [|intros; simplify_eq; apply pointwise_refl].
  apply (forEach_invariant (fun a => Forall2 R (voxels e) (voxels a))).
  - intros i a a' _ Ha Hstep. eapply pointwise_trans; [exact Ha|].
    by eapply scatterAt_pointwise.
  - apply pointwise_refl.
Qed.

Lemma fall_pointwise now e e' :
  (forall v, R v (fall v)) ->
  state e <> REBUILDING -> updatePhysics now e = Some e' ->
  Forall2 R (voxels e) (voxels e').
Proof.
  intros Hfall Hs Hrun. unfold updatePhysics in Hrun.
  case_decide; [done|]. simplify_eq. simpl.
  apply Forall2_fmap_r, Forall_Forall2_diag, Forall_true. auto.
Qed.

Lemma converge_pointwise now e e' :
  (forall elapsed v t, R v (converge elapsed v t).1) ->
  state e = REBUILDING -> updatePhysics now e = Some e' ->
  Forall2 R (voxels e) (voxels e').
Proof.
  intros Hconv Hs Hrun.
  destruct (updatePhysics_rebuilding now e e' Hs Hrun)
    as (res & Hc & Hvs & _).
  pose proof (convergeAll_length _ _ _ _ Hc) as Hlen.
  apply Forall2_same_length_lookup_2; [congruence|].
  intros i v v' Hv Hv'.
  destruct (convergeAll_lookup _ _ _ _ i v Hc Hv) as (t & _ & Hres).
  rewrite Hvs, Hres in Hv'. injection Hv' as <-. apply Hconv.
Qed.

End Pointwise.

(** ** What stays the same *)

Lemma sameSlot_refl v : sameSlot v v.
Proof. done. Qed.

Lemma sameSlot_trans v1 v2 v3 :
  sameSlot v1 v2 -> sameSlot v2 v3 -> sameSlot v1 v3.
Proof. intros [H1 H2] [H3 H4]. split; congruence. Qed.

Lemma sameSlot_fall v : sameSlot v (fall v).
Proof. unfold fall. by repeat case_match. Qed.

Lemma sameSlot_converge elapsed v t : sameSlot v (converge elapsed v t).1.
Proof. unfold converge. by repeat case_match. Qed.

Lemma samePose_refl v : samePose v v.
Proof. done. Qed.

Lemma samePose_trans v1 v2 v3 :
  samePose v1 v2 -> samePose v2 v3 -> samePose v1 v3.
Proof.
  intros (A1 & A2 & A3 & A4 & A5 & A6) (B1 & B2 & B3 & B4 & B5 & B6).
  repeat split; congruence.
Qed.

Lemma staysFalling_trans v1 v2 v3 :
  staysFalling v1 v2 -> staysFalling v2 v3 -> staysFalling v1 v3.
Proof. unfold staysFalling. auto. Qed.

Lemma staysFalling_fall v : staysFalling v (fall v).
Proof. intros Hf. by rewrite (proj1 (fall_flags v)). Qed.

Lemma exec_sameSlot op e e' :
  notLoad op -> exec op e = Some e' ->
  Forall2 sameSlot (voxels e) (voxels e').
Proof.
  destruct op; simpl; intros Hop Hrun; try done.
  - by apply (onMouseClick_pointwise sameSlot sameSlot_refl sameSlot_trans)
      with (i := instanceId).
  - by apply (dismantle_pointwise sameSlot sameSlot_refl sameSlot_trans).
  - simplify_eq. apply pointwise_refl, sameSlot_refl.
  - destruct (decide (state e = REBUILDING)) as [Hs|Hs].
    + apply (converge_pointwise sameSlot now e e'); [|done|done].
      apply sameSlot_converge.
    + apply (fall_pointwise sameSlot now e e'); [|done|done].
      apply sameSlot_fall.
  - by apply (triggerFalling_pointwise sameSlot sameSlot_refl)
      with (i := index).
  - by apply (pass_pointwise sameSlot).
Qed.

(** X1.  Identity is stable: whatever is done to the engine short of
    loading a new shape (clicks, passes, dismantles, rebuilds, frames in
    any state), the number of particles does not change and the particle
    of each slot keeps its [id] and its colour. *)
Theorem identity_stable (ops : list Op) (e e' : Engine) :
  Forall notLoad ops ->
  run ops e = Some e' ->
  length (voxels e') = length (voxels e) /\
  forall i v, voxels e !! i = Some v ->
    exists v', voxels e' !! i = Some v' /\
      id v' = id v /\ color v' = color v.
Proof.
  intros Hops Hrun.
  assert (Forall2 sameSlot (voxels e) (voxels e')) as Hall.
  { revert Hrun.
    apply (forEach_invariant
             (fun a => Forall2 sameSlot (voxels e) (voxels a))).
    - intros op a a' Hin Ha Hstep.
      eapply (pointwise_trans sameSlot sameSlot_trans); [exact Ha|].
      apply (exec_sameSlot op); [|done].
      by apply (proj1 (Forall_forall _ _) Hops).
    - apply pointwise_refl, sameSlot_refl. }
  split; [symmetry; by eapply Forall2_length|].
  intros i v Hv.
  destruct (Forall2_lookup_l _ _ _ _ _ Hall Hv) as (v' & Hv' & Hs).
  by exists v'.
Qed.

Lemma exec_samePose op e e' :
  noMotion op -> exec op e = Some e' ->
  Forall2 samePose (voxels e) (voxels e').
Proof.
  destruct op; simpl; intros Hop Hrun; try done.
  - by apply (onMouseClick_pointwise samePose samePose_refl samePose_trans)
      with (i := instanceId).
  - by apply (dismantle_pointwise samePose samePose_refl samePose_trans).
  - simplify_eq. apply pointwise_refl, samePose_refl.
  - by apply (triggerFalling_pointwise samePose samePose_refl)
      with (i := index).
  - by apply (pass_pointwise samePose).
Qed.

(** X2.  Only frames move particles: clicks, passes, dismantles and
    rebuilds, in any number and order, leave the position and the rotation
    of every particle exactly as they were. *)
Theorem only_frames_move (ops : list Op) (e e' : Engine) :
  Forall noMotion ops ->
  run ops e = Some e' ->
  forall i v, voxels e !! i = Some v ->
    exists v', voxels e' !! i = Some v' /\
      x v' = x v /\ y v' = y v /\ z v' = z v /\
      rx v' = rx v /\ ry v' = ry v /\ rz v' = rz v.
Proof.
  intros Hops Hrun.
  assert (Forall2 samePose (voxels e) (voxels e')) as Hall.
  { revert Hrun.
    apply (forEach_invariant
             (fun a => Forall2 samePose (voxels e) (voxels a))).
    - intros op a a' Hin Ha Hstep.
      eapply (pointwise_trans samePose samePose_trans); [exact Ha|].
      apply (exec_samePose op); [|done].
      by apply (proj1 (Forall_forall _ _) Hops).
    - apply pointwise_refl, samePose_refl. }
  intros i v Hv.
  destruct (Forall2_lookup_l _ _ _ _ _ Hall Hv) as (v' & Hv' & Hs).
  by exists v'.
Qed.

(** ** Falling is for good *)

Lemma triggerFalling_state i e e' :
  triggerFalling i e = Some e' -> state e' = state e.
Proof.
  unfold triggerFalling. intros Hrun.
  destruct (voxels e !! i) as [v|]; simpl in Hrun; [|done].
  destruct (isFalling v); by simplify_eq.
Qed.

Lemma scatterAt_state i e e' : scatterAt i e = Some e' -> state e' = state e.
Proof.
  unfold scatterAt. intros Hrun.
  destruct (voxels e !! i) as [v|]; simpl in Hrun; [|done].
  destruct (triggerFalling (id v) e) as [e1|] eqn:H1; simpl in Hrun; [|done].
  destruct (voxels e1 !! i) as [v1|]; simpl in Hrun; [|done].
  simplify_eq. simpl. by eapply triggerFalling_state.
Qed.

Lemma dismantle_state e e' :
  dismantle e = Some e' -> state e' = DISMANTLING \/ e' = e.
Proof.
  unfold dismantle. case_decide; [|intros; simplify_eq; by right].
  intros Hrun. left. revert Hrun.
  apply (forEach_invariant (fun a => state a = DISMANTLING)); [|done].
  intros i a a' _ Ha Hstep. by rewrite (scatterAt_state i a a' Hstep).
Qed.

Lemma exec_not_rebuilding op e e' :
  noReassembly op -> state e <> REBUILDING -> exec op e = Some e' ->
  state e' <> REBUILDING.
Proof.
  destruct op; simpl; intros Hop Hs Hrun; try done.
  - unfold onMouseClick in Hrun. case_decide; [|by simplify_eq].
    destruct (triggerFalling instanceId e) as [e1|] eqn:H1;
      simpl in Hrun; [|done].
    destruct (pass_outcome e1 e' Hrun) as (_ & _ & _ & _ & _ & _ & -> & _).
    by rewrite (triggerFalling_state _ _ _ H1).
  - destruct (dismantle_state e e' Hrun) as [->| ->]; done.
  - unfold updatePhysics in Hrun. case_decide; [done|]. by simplify_eq.
  - by rewrite (triggerFalling_state _ _ _ Hrun).
  - by destruct (pass_outcome e e' Hrun) as (_ & _ & _ & _ & _ & _ & -> & _).
Qed.

Lemma exec_staysFalling op e e' :
  noReassembly op -> state e <> REBUILDING -> exec op e = Some e' ->
  Forall2 staysFalling (voxels e) (voxels e').
Proof.
  assert (forall v, staysFalling v v) as Hrefl by (intros v Hf; exact Hf).
  destruct op; simpl; intros Hop Hs Hrun; try done.
  - by apply (onMouseClick_pointwise staysFalling Hrefl staysFalling_trans)
      with (i := instanceId).
  - by apply (dismantle_pointwise staysFalling Hrefl staysFalling_trans).
  - apply (fall_pointwise staysFalling now e e'); [|done|done].
    apply staysFalling_fall.
  - by apply (triggerFalling_pointwise staysFalling Hrefl)
      with (i := index).
  - by apply (pass_pointwise staysFalling).
Qed.

(** X3.  Falling is for good: starting outside a rebuild, no sequence of
    clicks, passes, dismantles and frames brings a falling particle back
    to rest; a particle falling before is falling after.  Only the
    convergence of a rebuild, or a new shape, clears [isFalling]. *)
Theorem falling_is_for_good (ops : list Op) (e e' : Engine) (i : nat)
    (v : SimulationVoxel) :
  Forall noReassembly ops ->
  state e <> REBUILDING ->
  run ops e = Some e' ->
  voxels e !! i = Some v ->
  isFalling v = true ->
  exists v', voxels e' !! i = Some v' /\ isFalling v' = true.
Proof.
  intros Hops Hs Hrun Hv Hf.
  assert (state e' <> REBUILDING /\
          Forall2 staysFalling (voxels e) (voxels e')) as [_ Hall].
  { revert Hrun.
    apply (forEach_invariant
             (fun a => state a <> REBUILDING /\
                       Forall2 staysFalling (voxels e) (voxels a))).
    - intros op a a' Hin [Hsa Ha] Hstep.
      pose proof (proj1 (Forall_forall _ _) Hops op Hin) as Hop.
      split; [by eapply exec_not_rebuilding|].
      eapply (pointwise_trans staysFalling staysFalling_trans); [exact Ha|].
      by apply (exec_staysFalling op).
    - split; [done|]. apply pointwise_refl. intros w Hw. exact Hw. }
  destruct (Forall2_lookup_l _ _ _ _ _ Hall Hv) as (v' & Hv' & Hs').
  exists v'. split; [done|]. by apply Hs'.
Qed.

(** ** The engine from a loaded shape *)

(** X4.  Nothing raises: once a shape is loaded, whatever the engine was
    before, every sequence of operations whose clicks and [triggerFalling]
    calls name existing particles runs to its end, and leaves the engine
    with each [id] equal to its slot and, in state [REBUILDING], one
    assignment per particle. *)
Theorem never_raises (e0 : Engine) (data : list VoxelData.t)
    (ops : list Op) :
  validOps (length data) ops ->
  exists e', run (OpLoad data :: ops) e0 = Some e' /\ wellFormed e'.
Proof.
  intros Hvalid.
  destruct (loadInitialModel_wf data e0) as [Hwf Hlen].
  destruct (run_total ops (loadInitialModel data e0) Hwf)
    as (e' & Hrun & Hwf'); [by rewrite Hlen|].
  exists e'. split; [|done]. unfold run in *. simpl. exact Hrun.
Qed.

Lemma setVoxels_same e : setVoxels (voxels e) e = e.
Proof. by destruct e. Qed.

Lemma frame_at_rest now e :
  state e <> REBUILDING ->
  (forall v, v ∈ voxels e -> isFalling v = false) ->
  updatePhysics now e = Some e.
Proof.
  intros Hs Hrest. unfold updatePhysics. case_decide; [done|].
  assert (fall <$> voxels e = voxels e) as ->.
  { apply list_eq. intros i. rewrite list_lookup_fmap.
    destruct (voxels e !! i) as [v|] eqn:Hv; [|done]. simpl.
    unfold fall. by rewrite (Hrest v (list_elem_of_lookup_2 _ _ _ Hv)). }
  by rewrite setVoxels_same.
Qed.

Lemma loaded_frames data e0 nows :
  run (OpFrame <$> nows) (loadInitialModel data e0)
  = Some (loadInitialModel data e0).
Proof.
  assert (forall now, updatePhysics now (loadInitialModel data e0)
                      = Some (loadInitialModel data e0)) as Hframe.
  { intros now. apply frame_at_rest; [done|].
    intros v Hv. apply list_elem_of_lookup_1 in Hv as [i Hv].
    simpl in Hv. by apply list_lookup_imap_Some in Hv as (d & _ & ->). }
  generalize dependent (loadInitialModel data e0). intros e Hframe.
  unfold run. induction nows as [|now nows IH]; [done|].
  simpl. change (exec (OpFrame now) e) with (updatePhysics now e).
  rewrite Hframe. simpl. exact IH.
Qed.

(** X5.  A loaded shape rests: [loadInitialModel] makes one particle per
    entry, in order, at the entry's position, not falling, grounded (no
    support check is made), without velocity or rotation, sets the state
    to [STABLE] and reports the new count; and any number of frames then
    leave the engine exactly as loaded. *)
Theorem loaded_shape_rests (data : list VoxelData.t) (e0 : Engine)
    (nows : list Q) :
  let e := loadInitialModel data e0 in
  length (voxels e) = length data /\
  state e = STABLE /\
  countChanges e = length data :: countChanges e0 /\
  stateChanges e = STABLE :: stateChanges e0 /\
  (forall i d, data !! i = Some d ->
     exists v, voxels e !! i = Some v /\ id v = i /\
       x v = VoxelData.x d /\ y v = VoxelData.y d /\ z v = VoxelData.z d /\
       isFalling v = false /\ grounded v = true /\
       vx v = 0 /\ vy v = 0 /\ vz v = 0 /\
       rx v = 0 /\ ry v = 0 /\ rz v = 0 /\
       rvx v = 0 /\ rvy v = 0 /\ rvz v = 0) /\
  run (OpFrame <$> nows) e = Some e.
Proof.
  intros e. split; [apply length_imap|]. split; [done|].
  split; [simpl; by rewrite length_imap|]. split; [done|]. split.
  - intros i d Hd. eexists. split.
    + simpl. apply list_lookup_imap_Some. by exists d.
    + simpl. repeat split.
  - apply loaded_frames.
Qed.

(** ** The floor *)

Lemma updatePhysics_fall_inv now e e' i v' :
  state e <> REBUILDING -> updatePhysics now e = Some e' ->
  voxels e' !! i = Some v' ->
  exists v, voxels e !! i = Some v /\ v' = fall v.
Proof.
  unfold updatePhysics. intros Hs Hrun Hv'. case_decide; [done|].
  simplify_eq. simpl in Hv'. rewrite list_lookup_fmap in Hv'.
  destruct (voxels e !! i) as [v|]; simpl in Hv'; [|done].
  injection Hv' as <-. by exists v.
Qed.

(** X6.  No falling particle ends a frame below the floor plane: after a
    physics step outside a rebuild, every particle that is falling is at
    height [FLOOR_Y + 0.5] or above. *)
Theorem never_below_floor (now : Q) (e e' : Engine) (i : nat)
    (v' : SimulationVoxel) :
  state e <> REBUILDING ->
  updatePhysics now e = Some e' ->
  voxels e' !! i = Some v' ->
  isFalling v' = true ->
  FLOOR_Y + 0.5 <= y v'.
Proof.
  intros Hs Hrun Hv' Hf.
  destruct (updatePhysics_fall_inv now e e' i v' Hs Hrun Hv')
    as (v & Hv & ->).
  rewrite (proj1 (fall_flags v)) in Hf. unfold fall. rewrite Hf.
  destruct (Qltb (y v + (vy v - 0.052)) (FLOOR_Y + 0.5)) eqn:Hc.
  - destruct (_ && _); simpl; apply Qle_refl.
  - simpl. by apply Qltb_ge.
Qed.

Lemma fall_atRest v : atRest v -> atRest (fall v) /\ samePlace v (fall v).
Proof.
  intros (Hf & Hy & Hvx & Hvy & Hvz & Hrx & Hry & Hrz).
  assert (crossesFloor v) as Hc.
  { unfold crossesFloor. rewrite Hy, Hvy. unfold FLOOR_Y. lra. }
  assert (restsOnBounce v) as Hr.
  { unfold restsOnBounce. rewrite Hvx, Hvy, Hvz.
    repeat split; vm_compute; reflexivity. }
  rewrite (fall_bounce v Hf Hc).
  apply restsOnBounce_test in Hr. rewrite Hr.
  split.
  - unfold atRest. simpl. repeat split; reflexivity.
  - unfold samePlace. simpl.
    rewrite Hvx, Hvz, Hrx, Hry, Hrz, Hy.
    repeat split; ring.
Qed.

Lemma samePlace_trans v1 v2 v3 :
  samePlace v1 v2 -> samePlace v2 v3 -> samePlace v1 v3.
Proof.
  intros (A1 & A2 & A3 & A4 & A5 & A6) (B1 & B2 & B3 & B4 & B5 & B6).
  unfold samePlace.
  rewrite B1, B2, B3, B4, B5, B6, A1, A2, A3, A4, A5, A6.
  repeat split; reflexivity.
Qed.

(** X7.  Rest is stable: a falling particle that lies on the floor plane
    with all six velocities zero (as the rest snap leaves it) is, after any
    number of frames taken outside a rebuild, still falling, still
    without velocity, and at the same position and rotation. *)
Theorem rest_is_stable (nows : list Q) (e e' : Engine) (i : nat)
    (v : SimulationVoxel) :
  state e <> REBUILDING ->
  run (OpFrame <$> nows) e = Some e' ->
  voxels e !! i = Some v ->
  atRest v ->
  exists v', voxels e' !! i = Some v' /\ atRest v' /\ samePlace v v'.
Proof.
  unfold run. revert e v.
  induction nows as [|now nows IH]; simpl; intros e v Hs Hrun Hv Hrest.
  - simplify_eq. exists v. split; [done|]. split; [done|].
    unfold samePlace. repeat split; reflexivity.
  - change (exec (OpFrame now) e) with (updatePhysics now e) in Hrun.
    destruct (updatePhysics now e) as [e1|] eqn:H1; simpl in Hrun; [|done].
    pose proof (updatePhysics_fall now e e1 i v Hs H1 Hv) as Hv1.
    destruct (fall_atRest v Hrest) as [Hrest1 Hplace1].
    assert (state e1 <> REBUILDING) as Hs1.
    { unfold updatePhysics in H1. case_decide; [done|]. by simplify_eq. }
    destruct (IH e1 (fall v) Hs1 Hrun Hv1 Hrest1) as (v' & Hv' & Hr' & Hp').
    exists v'. split; [done|]. split; [done|].
    by eapply samePlace_trans.
Qed.

(** ** Frames of a rebuild *)

(** X8.  The frame that ends a rebuild leaves every matched particle
    exactly on its target: when a frame taken in state [REBUILDING]
    switches the state to [STABLE], each particle whose assignment is not
    rubble has the target's position, no rotation, no linear velocity, is
    no longer falling and is grounded; its angular velocity is what it
    was. *)
Theorem rebuild_ends_on_target (now : Q) (e e' : Engine) (i : nat)
    (v : SimulationVoxel) (t : RebuildTarget.t) :
  state e = REBUILDING ->
  updatePhysics now e = Some e' ->
  state e' = STABLE ->
  voxels e !! i = Some v ->
  rebuildTargets e !! i = Some t ->
  RebuildTarget.isRubble t = false ->
  exists v', voxels e' !! i = Some v' /\
    x v' = RebuildTarget.x t /\ y v' = RebuildTarget.y t /\
    z v' = RebuildTarget.z t /\
    rx v' = 0 /\ ry v' = 0 /\ rz v' = 0 /\
    vx v' = 0 /\ vy v' = 0 /\ vz v' = 0 /\
    isFalling v' = false /\ grounded v' = true /\
    rvx v' = rvx v /\ rvy v' = rvy v /\ rvz v' = rvz v /\
    id v' = id v /\ color v' = color v.
Proof.
  intros Hs Hrun Hs' Hv Ht Hr.
  destruct (updatePhysics_rebuilding now e e' Hs Hrun)
    as (res & Hc & Hvs & _ & _ & Hst & _).
  assert (res.2 = true) as Hdone.
  { destruct res.2; [done|]. congruence. }
  pose proof (proj1 (convergeAll_done _ _ _ _ Hc) Hdone i v t Hv Ht) as Harr.
  destruct (convergeAll_lookup _ _ _ _ i v Hc Hv) as (t' & Ht' & Hres).
  assert (t' = t) as -> by congruence.
  eexists. split; [by rewrite Hvs|].
  unfold arrived in Harr. unfold converge in *. rewrite Hr in *.
  destruct (Qltb _ (RebuildTarget.delay t)); [done|].
  destruct (Qltb 0.01 _); [done|]. simpl. repeat split.
Qed.

(** X9.  Before its delay has passed nothing happens to a matched
    particle: a frame in state [REBUILDING] whose elapsed time is below
    the delay of the particle's assignment leaves the particle as it was,
    and the rebuild does not end on that frame. *)
Theorem waiting_is_frozen (now : Q) (e e' : Engine) (i : nat)
    (v : SimulationVoxel) (t : RebuildTarget.t) :
  state e = REBUILDING ->
  updatePhysics now e = Some e' ->
  voxels e !! i = Some v ->
  rebuildTargets e !! i = Some t ->
  RebuildTarget.isRubble t = false ->
  now - rebuildStartTime e < RebuildTarget.delay t ->
  voxels e' !! i = Some v /\ state e' = REBUILDING /\
  stateChanges e' = stateChanges e.
Proof.
  intros Hs Hrun Hv Ht Hr Hwait.
  destruct (updatePhysics_rebuilding now e e' Hs Hrun)
    as (res & Hc & Hvs & _ & _ & Hst & Hsc).
  destruct (convergeAll_lookup _ _ _ _ i v Hc Hv) as (t' & Ht' & Hres).
  assert (t' = t) as -> by congruence.
  assert (converge (now - rebuildStartTime e) v t = (v, false)) as Hcv.
  { unfold converge. rewrite Hr.
    destruct (Qltb _ (RebuildTarget.delay t)) eqn:Hd; [done|].
    apply Qltb_ge in Hd. lra. }
  assert (res.2 = false) as Hnd.
  { destruct res.2 eqn:Hd; [|done].
    pose proof (proj1 (convergeAll_done _ _ _ _ Hc) Hd i v t Hv Ht) as Harr.
    unfold arrived in Harr. by rewrite Hcv in Harr. }
  rewrite Hnd in Hst, Hsc. rewrite Hcv in Hres.
  split; [by rewrite Hvs|]. done.
Qed.

(** ** Clicks and the pass *)

Lemma triggerFalling_falls i e e1 :
  triggerFalling i e = Some e1 ->
  state e1 = state e /\ stateChanges e1 = stateChanges e /\
  countChanges e1 = countChanges e /\
  length (voxels e1) = length (voxels e) /\
  exists v1, voxels e1 !! i = Some v1 /\ isFalling v1 = true.
Proof.
  unfold triggerFalling. intros Hrun.
  destruct (voxels e !! i) as [v|] eqn:Hv; simpl in Hrun; [|done].
  destruct (isFalling v) eqn:Hf; simplify_eq; simpl.
  - do 4 (split; [done|]). by exists v.
  - do 3 (split; [done|]). split; [by rewrite length_insert|].
    exists (kick (draws e) v). split; [|reflexivity].
    apply list_lookup_insert_eq. by eapply lookup_lt_Some.
Qed.

(** X10.  A click in state [STABLE] detaches the clicked particle: after
    [onMouseClick] it is falling and not grounded, whatever the pass finds;
    the state is still [STABLE] and neither callback is called.  In any
    other state the click changes nothing. *)
Theorem click_detaches (i : nat) (e e' : Engine) :
  onMouseClick i e = Some e' ->
  state e' = state e /\ stateChanges e' = stateChanges e /\
  countChanges e' = countChanges e /\
  length (voxels e') = length (voxels e) /\
  (state e <> STABLE -> e' = e) /\
  (state e = STABLE ->
   exists v', voxels e' !! i = Some v' /\
     isFalling v' = true /\ grounded v' = false).
Proof.
  unfold onMouseClick. intros Hrun. case_decide as Hs.
  - destruct (triggerFalling i e) as [e1|] eqn:H1; simpl in Hrun; [|done].
    destruct (triggerFalling_falls i e e1 H1)
      as (Hs1 & Hsc1 & Hcc1 & Hlen1 & v1 & Hv1 & Hf1).
    destruct (pass_outcome e1 e' Hrun)
      as (vs3 & _ & _ & Hlen & _ & _ & Hs2 & Hsc2 & Hcc2 & Hall).
    split; [congruence|]. split; [congruence|]. split; [congruence|].
    split; [congruence|]. split; [done|]. intros _.
    destruct (Hall i v1 Hv1) as (u & v' & _ & Hv' & _ & Hfall & _).
    destruct (Hfall Hf1) as [_ ->]. eexists. split; [done|]. by simpl.
  - simplify_eq. do 4 (split; [done|]). split; [done|]. done.
Qed.

Lemma isAnchor_spec v :
  isAnchor v = true <-> isFalling v = false /\ y v <= FLOOR_Y + 1.2.
Proof.
  unfold isAnchor. rewrite andb_true_iff, negb_true_iff, Qle_bool_iff. done.
Qed.

Lemma isAnchor_base v : isAnchor (setGrounded false v) = isAnchor v.
Proof. done. Qed.

(** X11.  A particle that is not falling and whose height is at most
    [FLOOR_Y + 1.2] comes out of every pass grounded and otherwise
    unchanged, also when several particles share its cell. *)
Theorem anchors_stay_grounded (e e' : Engine) (i : nat)
    (v : SimulationVoxel) :
  checkStructuralIntegrity e = Some e' ->
  voxels e !! i = Some v ->
  isFalling v = false ->
  y v <= FLOOR_Y + 1.2 ->
  voxels e' !! i = Some (setGrounded true v).
Proof.
  intros Hrun Hv Hf Hy.
  destruct (pass_outcome e e' Hrun)
    as (vs3 & Hfin & _ & _ & _ & _ & _ & _ & _ & Hall).
  destruct (Hall i v Hv) as (u & v' & Hu & Hv' & _ & _ & Hkeep & _).
  destruct Hfin as (_ & Hgrows & _).
  assert (isAnchor v = true) as Ha by by apply isAnchor_spec.
  destruct (Hgrows i (setGrounded true v)) as (u' & Hu' & Hg'); [|done|].
  { rewrite list_lookup_fmap. unfold base. rewrite list_lookup_fmap, Hv.
    simpl. unfold groundAnchor. by rewrite isAnchor_base, Ha. }
  assert (u' = u) as -> by congruence.
  by rewrite (Hkeep Hf Hg') in Hv'.
Qed.

(** X12.  A particle above the anchor height with no standing particle in
    any of the six adjacent cells is dropped by every pass: it comes out
    with its position, rotation, colour and id, falling, not grounded, and
    with six freshly drawn velocities. *)
Theorem isolated_falls (e e' : Engine) (i : nat) (v : SimulationVoxel) :
  checkStructuralIntegrity e = Some e' ->
  voxels e !! i = Some v ->
  isFalling v = false ->
  FLOOR_Y + 1.2 < y v ->
  (forall j w, voxels e !! j = Some w -> isFalling w = false ->
     ~ adjacent (cell w) (cell v)) ->
  exists n, voxels e' !! i = Some (kick n v).
Proof.
  intros Hrun Hv Hf Hy Halone.
  destruct (pass_outcome e e' Hrun)
    as (vs3 & Hfin & _ & _ & _ & _ & _ & _ & _ & Hall).
  destruct (Hall i v Hv) as (u & v' & Hu & Hv' & _ & _ & _ & Hdrop).
  destruct Hfin as (_ & _ & Hclosed).
  destruct (grounded u) eqn:Hg.
  - destruct (Hclosed i u Hu Hg) as [Hsup _]. exfalso.
    pose proof (base_lookup _ _ _ Hv) as Hbv.
    inversion Hsup as [i0 b Hb Ha|j0 i0 b0 b Hsup0 Hb0 Hb Hfb Hadj]; subst.
    + assert (b = setGrounded false v) as -> by congruence.
      rewrite isAnchor_base in Ha. apply isAnchor_spec in Ha as [_ Ha]. lra.
    + assert (b = setGrounded false v) as -> by congruence.
      destruct (base_lookup_inv _ _ _ Hb0) as (w & Hw & ->).
      pose proof (supported_not_falling _ _ _ Hsup0 Hb0) as Hfw.
      by apply (Halone j0 w Hw Hfw).
  - destruct (Hdrop Hf eq_refl) as [n ->]. by exists n.
Qed.

(** ** dismantle *)

(** One turn of the loop of [dismantle] on a particle whose [id] is its
    slot. *)
Lemma scatterAt_spec i e e' v :
  voxels e !! i = Some v -> id v = i -> scatterAt i e = Some e' ->
  exists n w,
    (draws e <= n)%nat /\
    (w = v /\ isFalling v = true \/
     isFalling v = false /\ exists m, w = kick m v) /\
    voxels e' =
      <[i := setVelocity ((Math_random n - 0.5) * 1.6)
               (Math_random (n + 1) * 1.4)
               ((Math_random (n + 2) - 0.5) * 1.6) w]> (voxels e) /\
    state e' = state e /\ stateChanges e' = stateChanges e /\
    countChanges e' = countChanges e /\
    rebuildTargets e' = rebuildTargets e /\
    rebuildStartTime e' = rebuildStartTime e.
Proof.
  intros Hv Hid. unfold scatterAt, triggerFalling. rewrite Hv. simpl.
  rewrite Hid, Hv. simpl.
  pose proof (lookup_lt_Some _ _ _ Hv) as Hi.
  destruct (isFalling v) eqn:Hf; simpl.
  - rewrite Hv. simpl. intros Hrun. simplify_eq. simpl.
    exists (draws e), v. split; [lia|]. split; [by left|]. done.
  - rewrite list_lookup_insert_eq by done. simpl. intros Hrun.
    simplify_eq. simpl. exists (draws e + 6)%nat, (kick (draws e) v).
    split; [lia|]. split; [right; split; [done|by eexists]|].
    by rewrite list_insert_insert_eq.
Qed.

Lemma scatter_loop k :
  forall a e e',
    (forall i v, voxels e !! i = Some v -> id v = i) ->
    (a + k <= length (voxels e))%nat ->
    forEach scatterAt (seq a k) e = Some e' ->
    state e' = state e /\ stateChanges e' = stateChanges e /\
    countChanges e' = countChanges e /\
    length (voxels e') = length (voxels e) /\
    forall i v, voxels e !! i = Some v ->
      ((i < a \/ a + k <= i)%nat -> voxels e' !! i = Some v) /\
      ((a <= i < a + k)%nat ->
       exists n w,
         (w = v /\ isFalling v = true \/
          isFalling v = false /\ exists m, w = kick m v) /\
         voxels e' !! i =
           Some (setVelocity ((Math_random n - 0.5) * 1.6)
                   (Math_random (n + 1) * 1.4)
                   ((Math_random (n + 2) - 0.5) * 1.6) w)).
Proof.
  induction k as [|k IH]; simpl; intros a e e' Hid Hlen Hrun.
  - simplify_eq. do 4 (split; [done|]). intros i v Hv. split; [done|lia].
  - destruct (scatterAt a e) as [e1|] eqn:H1; simpl in Hrun; [|done].
    destruct (lookup_lt_is_Some_2 (voxels e) a) as [va Hva]; [lia|].
    destruct (scatterAt_spec a e e1 va Hva (Hid a va Hva) H1)
      as (n & w & _ & Hw & Hvs & Hs & Hsc & Hcc & _ & _).
    assert (id w = id va) as Hidw.
    { destruct Hw as [[-> _]|[_ [m ->]]]; done. }
    destruct (IH (S a) e1 e') as (Hs' & Hsc' & Hcc' & Hlen' & Hall).
    { intros i v. rewrite Hvs. intros Hv.
      destruct (decide (i = a)) as [->|Hne].
      - rewrite list_lookup_insert_eq in Hv by (by eapply lookup_lt_Some).
        simplify_eq. simpl. rewrite Hidw. by apply Hid.
      - rewrite list_lookup_insert_ne in Hv by done. by apply Hid. }
    { rewrite Hvs, length_insert. lia. }
    { done. }
    split; [congruence|]. split; [congruence|]. split; [congruence|].
    split; [by rewrite Hlen', Hvs, length_insert|].
    intros i v Hv. destruct (decide (i = a)) as [->|Hne].
    + assert (v = va) as -> by congruence. split; [lia|]. intros _.
      exists n, w. split; [done|].
      apply (Hall a); [|lia]. rewrite Hvs.
      apply list_lookup_insert_eq. by eapply lookup_lt_Some.
    + assert (voxels e1 !! i = Some v) as Hv1.
      { by rewrite Hvs, list_lookup_insert_ne. }
      destruct (Hall i v Hv1) as [Hout Hin]. split.
      * intros Hi. apply Hout. lia.
      * intros Hi. apply Hin. lia.
Qed.

(** X13.  From state [STABLE], on an engine whose particles carry their
    slot as [id], [dismantle] does not raise, switches the state to
    [DISMANTLING] with one call of the state callback, and leaves every
    particle falling at its position with a freshly drawn scatter velocity:
    [vx], [vz] drawn as [(r - 0.5) * 1.6] and [vy] as [r * 1.4].  A particle
    that was not falling also has its [grounded] flag cleared; one that was
    already falling keeps everything but its linear velocity.  A second
    [dismantle] changes nothing. *)
Theorem dismantle_scatters (e : Engine) :
  wellFormed e ->
  state e = STABLE ->
  exists e',
    dismantle e = Some e' /\
    state e' = DISMANTLING /\
    stateChanges e' = DISMANTLING :: stateChanges e /\
    countChanges e' = countChanges e /\
    length (voxels e') = length (voxels e) /\
    dismantle e' = Some e' /\
    forall i v, voxels e !! i = Some v ->
      exists v' n,
        voxels e' !! i = Some v' /\
        isFalling v' = true /\
        x v' = x v /\ y v' = y v /\ z v' = z v /\
        vx v' = (Math_random n - 0.5) * 1.6 /\
        vy v' = Math_random (n + 1) * 1.4 /\
        vz v' = (Math_random (n + 2) - 0.5) * 1.6 /\
        (isFalling v = false -> grounded v' = false) /\
        (isFalling v = true ->
         v' = setVelocity (vx v') (vy v') (vz v') v).
Proof.
  intros Hwf Hs.
  destruct (dismantle_total e Hwf) as (e' & Hrun & _ & _).
  exists e'. split; [done|].
  unfold dismantle in Hrun. case_decide; [|done].
  destruct (scatter_loop (length (voxels e)) 0 (setState DISMANTLING e) e')
    as (Hs' & Hsc' & Hcc' & Hlen' & Hall); [apply Hwf|simpl; lia|done|].
  simpl in *. do 4 (split; [done|]). split.
  { apply dismantle_guard. by rewrite Hs'. }
  intros i v Hv. pose proof (lookup_lt_Some _ _ _ Hv) as Hi.
  destruct (Hall i v Hv) as [_ Hin].
  destruct Hin as (n & w & Hw & Hv'); [lia|].
  eexists. exists n. split; [exact Hv'|].
  destruct Hw as [[-> Hf]|[Hf [m ->]]]; simpl.
  - rewrite Hf. repeat split; try done; intros; congruence.
  - repeat split; try done; intros; congruence.
Qed.

(** ** More targets than particles *)

Lemma assignedCount_full ms i :
  assignedCount ms = length ms -> (i < length ms)%nat ->
  exists t, ms !! i = Some (Some t).
Proof.
  revert i. induction ms as [|[t|] ms IH]; simpl; intros i Hfull Hi.
  - lia.
  - destruct i as [|i]; [by exists t|]. apply IH; lia.
  - pose proof (assignedCount_le ms). lia.
Qed.

Lemma planState_app vs tm1 tm2 :
  planState vs (tm1 ++ tm2) = foldl assign (planState vs tm1) tm2.
Proof. unfold planState. by rewrite foldl_app. Qed.

Lemma assign_all_exhausted st tm :
  (forall c, c ∈ st.1 -> Candidate.taken c = true) -> foldl assign st tm = st.
Proof.
  intros Hall. induction tm as [|target tm IH]; [done|].
  simpl. by rewrite (assign_exhausted st target Hall).
Qed.

Lemma plan_saturated vs targetModel :
  (length vs <= length targetModel)%nat ->
  withinBound vs targetModel = true ->
  forall c, c ∈ (planState vs targetModel).1 -> Candidate.taken c = true.
Proof.
  intros Hlen Hb c Hc.
  pose proof (planState_planned vs targetModel) as Hst.
  pose proof (plan_count vs targetModel Hb) as Hcount. unfold plan in Hcount.
  rewrite Nat.min_l in Hcount by done.
  rewrite <- (planned_map _ _ _ Hst) in Hcount.
  apply list_elem_of_lookup_1 in Hc as [i Hi].
  apply (planned_taken _ _ _ Hst i c Hi).
  apply assignedCount_full; [done|].
  rewrite (planned_map _ _ _ Hst), <- (planned_pool _ _ _ Hst).
  by eapply lookup_lt_Some.
Qed.

(** X14.  With at least as many targets as particles (and colour distances
    below the bound of the scan) no particle is left as rubble: every
    particle is sent to a target of the model; and the targets that come
    after the pool is used up are dropped, the assignment being the one
    the first targets alone would give. *)
Theorem surplus_targets_dropped (targetModel more : list VoxelData.t)
    (now : Q) (e : Engine) :
  (length (voxels e) <= length targetModel)%nat ->
  withinBound (voxels e) targetModel = true ->
  let e1 := rebuild targetModel now e in
  rebuild (targetModel ++ more) now e = e1 /\
  rubbleCount (rebuildTargets e1) = 0%nat /\
  matchedCount (rebuildTargets e1) = length (voxels e) /\
  forall i v, voxels e !! i = Some v ->
    exists target, target ∈ targetModel /\
      rebuildTargets e1 !! i = Some (matched target).
Proof.
  intros Hlen Hb e1.
  pose proof (plan_saturated _ _ Hlen Hb) as Hsat.
  pose proof (planState_planned (voxels e) targetModel) as Hst.
  pose proof (plan_count _ _ Hb) as Hcount.
  rewrite Nat.min_l in Hcount by done.
  destruct (fillRubble_counts (voxels e) (plan (voxels e) targetModel))
    as [Hm Hr].
  { apply (planned_map _ _ _ Hst). }
  { intros i t Ht.
    by destruct (planned_from _ _ _ Hst i t Ht) as (tg & _ & ->). }
  split; [|split; [|split]].
  - unfold e1, rebuild, plan. simpl.
    by rewrite planState_app, (assign_all_exhausted _ more Hsat).
  - simpl. lia.
  - simpl. lia.
  - intros i v Hv. simpl.
    destruct (assignedCount_full (plan (voxels e) targetModel) i)
      as [t Ht].
    { rewrite Hcount. symmetry. apply (planned_map _ _ _ Hst). }
    { unfold plan. rewrite (planned_map _ _ _ Hst).
      by eapply lookup_lt_Some. }
    destruct (planned_from _ _ _ Hst i t Ht) as (tg & Htg & ->).
    exists tg. split; [done|].
    apply fillRubble_lookup. by exists v, (Some (matched tg)).
Qed.

(** ** A rebuild comes to an end *)

Lemma dist2_nonneg v t : 0 <= dist2 v t.
Proof.
  unfold dist2.
  pose proof (square_nonneg (RebuildTarget.x t - x v)).
  pose proof (square_nonneg (RebuildTarget.y t - y v)).
  pose proof (square_nonneg (RebuildTarget.z t - z v)).
  assert ((RebuildTarget.x t - x v) ^ 2 + (RebuildTarget.y t - y v) ^ 2
          + (RebuildTarget.z t - z v) ^ 2
          == (RebuildTarget.x t - x v) * (RebuildTarget.x t - x v)
             + (RebuildTarget.y t - y v) * (RebuildTarget.y t - y v)
             + (RebuildTarget.z t - z v) * (RebuildTarget.z t - z v))
    as -> by ring.
  lra.
Qed.

(** One step on a matched particle whose delay has passed: the squared
    distance to the target shrinks by 0.7744 or more, the particle snaps
    once the eased distance is within 0.1, and a particle reported done is
    on its target. *)
Lemma converge_late elapsed v t :
  RebuildTarget.isRubble t = false ->
  RebuildTarget.delay t <= elapsed ->
  dist2 (converge elapsed v t).1 t <= 0.7744 * dist2 v t /\
  (0.7744 * dist2 v t <= 0.01 -> (converge elapsed v t).2 = true) /\
  ((converge elapsed v t).2 = true -> onTarget (converge elapsed v t).1 t).
Proof.
  intros Hr Hd. unfold converge. rewrite Hr.
  destruct (Qltb elapsed (RebuildTarget.delay t)) eqn:Hw.
  { apply Qltb_lt in Hw. lra. }
  assert ((RebuildTarget.x t - (x v + (RebuildTarget.x t - x v) * 0.12)) ^ 2
          + (RebuildTarget.y t - (y v + (RebuildTarget.y t - y v) * 0.12)) ^ 2
          + (RebuildTarget.z t - (z v + (RebuildTarget.z t - z v) * 0.12)) ^ 2
          == 0.7744 * dist2 v t) as Heased.
  { unfold dist2. ring. }
  simpl.
  destruct (Qltb 0.01 _) eqn:Hfar; simpl.
  - apply Qltb_lt in Hfar. split; [|split].
    + unfold dist2. simpl. rewrite Heased. apply Qle_refl.
    + intros Hnear. rewrite Heased in Hfar. lra.
    + done.
  - split; [|split].
    + unfold dist2 at 1. simpl.
      pose proof (dist2_nonneg v t).
      assert ((RebuildTarget.x t - RebuildTarget.x t) ^ 2
              + (RebuildTarget.y t - RebuildTarget.y t) ^ 2
              + (RebuildTarget.z t - RebuildTarget.z t) ^ 2 == 0)
        as -> by ring.
      lra.
    + done.
    + intros _. unfold onTarget. simpl. repeat split.
Qed.

Lemma frames_keep_standing nows :
  forall e, state e <> REBUILDING ->
    exists e', run (OpFrame <$> nows) e = Some e' /\ state e' = state e /\
      forall i v, voxels e !! i = Some v -> isFalling v = false ->
        voxels e' !! i = Some v.
Proof.
  unfold run. induction nows as [|now nows IH]; intros e Hs; simpl.
  - by exists e.
  - change (exec (OpFrame now) e) with (updatePhysics now e).
    assert (updatePhysics now e = Some (setVoxels (fall <$> voxels e) e))
      as H1.
    { unfold updatePhysics. by case_decide. }
    rewrite H1. simpl.
    destruct (IH (setVoxels (fall <$> voxels e) e) Hs)
      as (e' & Hrun & Hs' & Hall).
    exists e'. split; [done|]. split; [done|].
    intros i v Hv Hf. apply Hall; [|done]. simpl.
    rewrite list_lookup_fmap, Hv. simpl. unfold fall. by rewrite Hf.
Qed.

(** X15.  A rebuild comes to an end.  Take an engine in state [REBUILDING]
    with one assignment per particle, and frames whose times are all past
    the delays of the matched targets.  If every matched particle starts
    within squared distance [D] of its target and the number [N >= 1] of
    frames satisfies [0.7744^N * D <= 0.01], the frames run without
    raising, the state at the end is [STABLE], and every matched particle
    sits exactly on its target, at rest, not falling and grounded. *)
Theorem rebuild_completes (nows : list Q) (e : Engine) (D : Q) :
  nows <> [] ->
  state e = REBUILDING ->
  length (rebuildTargets e) = length (voxels e) ->
  (forall now, now ∈ nows ->
     lateFor (rebuildTargets e) (rebuildStartTime e) now) ->
  (forall i v t, voxels e !! i = Some v -> rebuildTargets e !! i = Some t ->
     RebuildTarget.isRubble t = false -> dist2 v t <= D) ->
  shrink (length nows) * D <= 0.01 ->
  exists e',
    run (OpFrame <$> nows) e = Some e' /\
    state e' = STABLE /\
    forall i t, rebuildTargets e !! i = Some t ->
      RebuildTarget.isRubble t = false ->
      exists v', voxels e' !! i = Some v' /\ onTarget v' t.
Proof.
  revert e D.
  induction nows as [|now rest IH]; intros e D Hne Hs Hlen Hlate Hdist Hsmall;
    [done|].
  destruct (convergeAll_total (now - rebuildStartTime e) (voxels e)
              (rebuildTargets e)) as [res Hc]; [lia|].
  assert (exists e1, updatePhysics now e = Some e1) as [e1 H1].
  { unfold updatePhysics. case_decide; [|done]. rewrite Hc.
    destruct res as [vs allDone]. simpl. by eexists. }
  destruct (updatePhysics_rebuilding now e e1 Hs H1)
    as (res' & Hc' & Hvs & Hrt & Hstart & Hst & _).
  assert (res' = res) as -> by congruence.
  assert (lateFor (rebuildTargets e) (rebuildStartTime e) now) as Hnow.
  { apply Hlate. by left. }
  assert (forall i v t, voxels e !! i = Some v ->
            rebuildTargets e !! i = Some t ->
            voxels e1 !! i = Some (converge (now - rebuildStartTime e) v t).1)
    as Hstep.
  { intros i v t Hv Ht.
    destruct (convergeAll_lookup _ _ _ _ i v Hc Hv) as (t' & Ht' & Hres).
    assert (t' = t) as -> by congruence. by rewrite Hvs. }
  assert (forall i t, rebuildTargets e !! i = Some t ->
            exists v, voxels e !! i = Some v) as Hhas.
  { intros i t Ht. apply lookup_lt_is_Some_2. rewrite <- Hlen.
    by eapply lookup_lt_Some. }
  unfold run. simpl.
  change (exec (OpFrame now) e) with (updatePhysics now e).
  rewrite H1. simpl.
  destruct res.2 eqn:Hdone.
  - (* the rebuild ends on this frame *)
    assert (state e1 <> REBUILDING) as Hs1 by (by rewrite Hst).
    destruct (frames_keep_standing rest e1 Hs1) as (e' & Hrun & Hs' & Hall).
    exists e'. split; [exact Hrun|]. split; [congruence|].
    intros i t Ht Hr. destruct (Hhas i t Ht) as [v Hv].
    pose proof (proj1 (convergeAll_done _ _ _ _ Hc) Hdone i v t Hv Ht) as Harr.
    destruct (converge_late (now - rebuildStartTime e) v t Hr)
      as (_ & _ & Hon).
    { apply Hnow; [|done]. by eapply list_elem_of_lookup_2. }
    specialize (Hon Harr). eexists. split; [|exact Hon].
    apply Hall; [by eapply Hstep|]. apply Hon.
  - (* some particle is still on its way *)
    assert (state e1 = REBUILDING) as Hs1 by done.
    destruct rest as [|now2 rest].
    { exfalso.
      assert (res.2 = true) as Habs; [|congruence].
      apply (convergeAll_done _ _ _ _ Hc). intros i v t Hv Ht.
      unfold arrived.
      destruct (RebuildTarget.isRubble t) eqn:Hr.
      - unfold converge. by rewrite Hr.
      - destruct (converge_late (now - rebuildStartTime e) v t Hr)
          as (_ & Hsnap & _).
        { apply Hnow; [|done]. by eapply list_elem_of_lookup_2. }
        apply Hsnap. pose proof (Hdist i v t Hv Ht Hr).
        simpl in Hsmall. lra. }
    destruct (IH e1 (0.7744 * D)) as (e' & Hrun & Hs' & Hall).
    + done.
    + done.
    + rewrite Hrt, Hvs, (convergeAll_length _ _ _ _ Hc). done.
    + intros now' Hin. rewrite Hrt, Hstart. apply Hlate. by right.
    + intros i v1 t Hv1 Ht Hr. rewrite Hrt in Ht.
      destruct (Hhas i t Ht) as [v Hv].
      rewrite (Hstep i v t Hv Ht) in Hv1. injection Hv1 as <-.
      destruct (converge_late (now - rebuildStartTime e) v t Hr)
        as (Hshrink & _ & _).
      { apply Hnow; [|done]. by eapply list_elem_of_lookup_2. }
      pose proof (Hdist i v t Hv Ht Hr). lra.
    + change (shrink (length (now :: now2 :: rest)))
        with (0.7744 * shrink (length (now2 :: rest))) in Hsmall.
      assert (shrink (length (now2 :: rest)) * (0.7744 * D)
              == 0.7744 * shrink (length (now2 :: rest)) * D) as ->
        by ring.
      exact Hsmall.
    + exists e'. split; [exact Hrun|]. split; [done|].
      intros i t Ht Hr. apply Hall; [by rewrite Hrt|done].
Qed.

(** ** A second pass *)

Lemma forEach_fixed {A B : Type} (body : B -> A -> option A) (l : list B) a :
  (forall b, b ∈ l -> body b a = Some a) -> forEach body l a = Some a.
Proof.
  induction l as [|b l IH]; intros Hfix; [done|].
  simpl. rewrite (Hfix b) by left. simpl. apply IH.
  intros b' Hb'. apply Hfix. by right.
Qed.

(** With every particle falling or grounded the last loop of the pass
    does nothing. *)
Lemma dropUnsupported_none e :
  (forall v, v ∈ voxels e -> unsupportedNow v = false) ->
  dropUnsupported e = Some e.
Proof.
  intros Hnone. unfold dropUnsupported. apply forEach_fixed.
  intros i Hi. apply elem_of_seq in Hi. unfold dropAt.
  destruct (lookup_lt_is_Some_2 (voxels e) i) as [v Hv]; [lia|].
  rewrite Hv. simpl. fold (unsupportedNow v).
  by rewrite (Hnone v (list_elem_of_lookup_2 _ _ _ Hv)).
Qed.

(** The index [voxelMap] holds for a cell is the last particle of that
    cell that is not falling. *)
Lemma buildMap_last i vs m c j :
  buildMap i vs m !! c = Some j ->
  (m !! c = Some j /\
   forall k v, vs !! k = Some v -> isFalling v = false -> cell v <> c) \/
  exists k v, j = (i + k)%nat /\ vs !! k = Some v /\
    isFalling v = false /\ cell v = c /\
    forall k' v', (k < k')%nat -> vs !! k' = Some v' ->
      isFalling v' = false -> cell v' <> c.
Proof.
  revert i m. induction vs as [|v vs IH]; intros i m Hj; simpl in Hj.
  - left. split; [done|]. intros k v Hk. done.
  - apply IH in Hj as [[Hj Hnone]|(k & w & -> & Hk & Hf & Hc & Hlast)].
    + destruct (isFalling v) eqn:Hfv.
      * left. split; [done|]. intros [|k] w Hk Hfw; simpl in Hk.
        -- congruence.
        -- by apply (Hnone k w).
      * destruct (decide (cell v = c)) as [Hc|Hne].
        -- rewrite <- Hc, lookup_insert_eq in Hj. injection Hj as <-.
           right. exists 0%nat, v. split; [lia|]. split; [done|].
           split; [done|]. split; [done|].
           intros [|k'] v' Hlt Hk' Hf'; [lia|]. simpl in Hk'.
           by apply (Hnone k' v').
        -- rewrite lookup_insert_ne in Hj by done. left. split; [done|].
           intros [|k] w Hk Hfw; simpl in Hk.
           ++ by simplify_eq.
           ++ by apply (Hnone k w).
    + right. exists (S k), w. split; [lia|]. split; [done|].
      split; [done|]. split; [done|].
      intros [|k'] v' Hlt Hk' Hf'; [lia|]. simpl in Hk'.
      apply (Hlast k' v'); [lia|done|done].
Qed.

Lemma visit_linked voxelMap B i b v d st st' :
  linked voxelMap B i -> B !! i = Some b -> cell b = cell v ->
  d ∈ neighbors ->
  linkedInv voxelMap B st -> visit voxelMap v d st = Some st' ->
  linkedInv voxelMap B st'.
Proof.
  intros Hi Hb Hc Hd (Hbase & Hq & Hg). unfold visit.
  destruct (voxelMap !! shift (cell v) d) as [j|] eqn:Hj;
    [|by intros [= <-]].
  destruct (st.1 !! j) as [nv|] eqn:Hnv; simpl; [|done].
  destruct (negb (isFalling nv) && negb (grounded nv)) eqn:Ht;
    intros [= <-]; [|done].
  subst B.
  apply andb_true_iff in Ht as [Hf _]. apply negb_true_iff in Hf.
  assert (linked voxelMap (base st.1) j) as Hlj.
  { apply (linked_step _ _ i j b (setGrounded false nv) d); try done.
    - by rewrite Hc.
    - by apply base_lookup. }
  split; [|split]; simpl.
  - by apply base_insert.
  - intros k Hk. apply elem_of_app in Hk as [Hk|Hk]; [by apply Hq|].
    by apply list_elem_of_singleton in Hk as ->.
  - intros k u Hu Hgu. destruct (decide (k = j)) as [->|Hne]; [done|].
    rewrite list_lookup_insert_ne in Hu by done. by apply (Hg k u).
Qed.

Lemma bfs_linked voxelMap B fuel :
  forall vs queue head vs',
    linkedInv voxelMap B (vs, queue) ->
    bfs fuel voxelMap vs queue head = Some vs' ->
    forall k u, vs' !! k = Some u -> grounded u = true ->
      linked voxelMap B k.
Proof.
  induction fuel as [|fuel IH]; intros vs queue head vs' Hinv Hrun; simpl in Hrun.
  - destruct (queue !! head); [done|]. simplify_eq. apply Hinv.
  - destruct (queue !! head) as [i|] eqn:Hhead;
      [|simplify_eq; apply Hinv].
    destruct (vs !! i) as [v|] eqn:Hv; simpl in Hrun; [|done].
    destruct (visitAll voxelMap v (vs, queue)) as [[vs1 queue1]|] eqn:Hvisit;
      simpl in Hrun; [|done].
    apply (IH vs1 queue1 (S head) vs'); [|done].
    assert (linked voxelMap B i) as Hi.
    { apply Hinv. simpl. by eapply list_elem_of_lookup_2. }
    assert (B !! i = Some (setGrounded false v)) as Hb.
    { destruct Hinv as (<- & _). by apply base_lookup. }
    revert Hvisit. unfold visitAll.
    apply (forEach_invariant (linkedInv voxelMap B)); [|done].
    intros d st st' Hd Hst Hstep.
    by apply (visit_linked voxelMap B i (setGrounded false v) v d st st').
Qed.

(** When the traversal starts, the grounded particles are the anchors. *)
Lemma linkedInv_start vs voxelMap :
  linkedInv voxelMap (base vs)
    (groundAnchor <$> base vs, (markAnchors 0 (base vs)).2).
Proof.
  split; [|split]; simpl.
  - rewrite groundAnchor_base. apply base_base.
  - intros j Hj. apply markAnchors_queue in Hj as (k & b & -> & Hk & Ha).
    by apply (linked_anchor _ _ _ b).
  - intros k u Hu Hg. rewrite list_lookup_fmap in Hu.
    destruct (base vs !! k) as [b|] eqn:Hk; simpl in Hu; [|done].
    injection Hu as <-. apply (linked_anchor _ _ k b Hk).
    unfold groundAnchor in Hg. destruct (isAnchor b); [done|].
    rewrite (base_grounded vs b) in Hg; [done|].
    by eapply list_elem_of_lookup_2.
Qed.

Lemma flags_determine a b :
  setGrounded false a = setGrounded false b -> grounded a = grounded b ->
  a = b.
Proof.
  intros Heq Hg. rewrite <- (setGrounded_same a), <- (setGrounded_same b).
  rewrite Hg.
  change (setGrounded (grounded b) (setGrounded false a)
          = setGrounded (grounded b) (setGrounded false b)).
  by rewrite Heq.
Qed.

Lemma anchor_grounded B voxelMap vs3 k b :
  bfsFinal B voxelMap (groundAnchor <$> B) vs3 ->
  B !! k = Some b -> isAnchor b = true ->
  exists u, vs3 !! k = Some u /\ grounded u = true.
Proof.
  intros (_ & Hgrows & _) Hb Ha.
  apply (Hgrows k (setGrounded true b)); [|done].
  rewrite list_lookup_fmap, Hb. simpl. unfold groundAnchor. by rewrite Ha.
Qed.

(** X16.  The pass is idempotent: run on its own result it changes
    nothing, so no further particle falls and no random number is drawn,
    also when particles share cells. *)
Theorem pass_idempotent (e e1 : Engine) :
  checkStructuralIntegrity e = Some e1 ->
  checkStructuralIntegrity e1 = Some e1.
Proof.
  intros H1.
  destruct (pass_trace e e1 H1) as (vs3 & Hbfs & Hdrop).
  destruct (pass_outcome_at e e1 vs3 Hbfs Hdrop)
    as (Hfin & _ & _ & _ & _ & _ & _ & Hall).
  pose proof (bfs_linked _ _ _ _ _ _ _
                (linkedInv_start (voxels e) (buildMap 0 (base (voxels e)) ∅))
                Hbfs) as Hlink.
  destruct (checkStructuralIntegrity_total e1) as [e2 H2].
  destruct (pass_trace e1 e2 H2) as (vs3' & Hbfs' & Hdrop').
  destruct (pass_outcome_at e1 e2 vs3' Hbfs' Hdrop')
    as (Hfin' & _ & _ & _ & _ & _ & _ & Hall').
  (* what the first pass leaves *)
  assert (forall i v, voxels e !! i = Some v ->
            exists u v', vs3 !! i = Some u /\ voxels e1 !! i = Some v' /\
              cell v' = cell v /\
              (isFalling v' = true /\ grounded v' = false \/
               isFalling v' = false /\ grounded v' = true /\
               isFalling v = false /\ grounded u = true /\
               v' = setGrounded true v) /\
              (isFalling v = false -> grounded u = true ->
               v' = setGrounded true v)) as Hleft.
  { intros i v Hv.
    destruct (Hall i v Hv) as (u & v' & Hu & Hv' & _ & Hfall & Hkeep & Hkick).
    exists u, v'. split; [done|]. split; [done|].
    destruct (isFalling v) eqn:Hf.
    - destruct (Hfall eq_refl) as [Hg ->]. split; [done|].
      split; [left; by simpl|]. done.
    - destruct (grounded u) eqn:Hg.
      + rewrite (Hkeep eq_refl eq_refl). split; [done|].
        split; [right; by simpl|]. done.
      + destruct (Hkick eq_refl eq_refl) as [n ->]. split; [done|].
        split; [left; by simpl|]. done. }
  (* every particle the first pass reached is reached again *)
  assert (forall k, linked (buildMap 0 (base (voxels e)) ∅) (base (voxels e)) k ->
            (exists u, vs3 !! k = Some u /\ grounded u = true) /\
            (exists u', vs3' !! k = Some u' /\ grounded u' = true)) as Hagain.
  { intros k Hk.
    induction Hk as [k b Hb Ha|i j b w d _ IH Hb Hd Hj Hw Hfw].
    - destruct (anchor_grounded _ _ _ k b Hfin Hb Ha) as (u & Hu & Hg).
      split; [by exists u|].
      apply base_lookup_inv in Hb as (v & Hv & ->).
      destruct (Hleft k v Hv) as (u0 & v' & Hu0 & Hv' & _ & _ & Hkeep).
      assert (u0 = u) as -> by congruence.
      assert (isFalling v = false) as Hf.
      { unfold isAnchor in Ha. simpl in Ha. by destruct (isFalling v). }
      rewrite (Hkeep Hf Hg) in Hv'.
      apply (anchor_grounded _ _ _ k (setGrounded false (setGrounded true v))
               Hfin'); [by apply base_lookup|done].
    - destruct IH as [(u & Hu & Hg) (u' & Hu' & Hg')].
      destruct (base_lookup_inv _ _ _ Hb) as (v & Hv & ->).
      destruct (base_lookup_inv _ _ _ Hw) as (vj & Hvj & ->).
      change (isFalling vj = false) in Hfw.
      change (cell (setGrounded false v)) with (cell v) in Hj.
      destruct (Hleft i v Hv) as (u0 & v' & Hu0 & Hv' & Hcv & _).
      assert (u0 = u) as -> by congruence.
      pose proof Hfin as (Hbase & _ & Hclosed).
      pose proof Hfin' as (Hbase' & _ & Hclosed').
      assert (cell u = cell v) as Hcu.
      { apply base_lookup in Hu, Hv. rewrite Hbase in Hu.
        assert (setGrounded false u = setGrounded false v) as Heq
          by congruence.
        change (cell (setGrounded false u) = cell (setGrounded false v)).
        by rewrite Heq. }
      assert (cell u' = cell v) as Hcu'.
      { apply base_lookup in Hu', Hv'. rewrite Hbase' in Hu'.
        assert (setGrounded false u' = setGrounded false v') as Heq
          by congruence.
        change (cell (setGrounded false u') = cell v).
        rewrite Heq. exact Hcv. }
      destruct (Hclosed i u Hu Hg) as [_ Hcl].
      destruct (Hcl d j Hd) as (uj & Huj & Hgj); [by rewrite Hcu|].
      split; [by exists uj|].
      destruct (Hleft j vj Hvj) as (u1 & vj' & Hu1 & Hvj' & Hcj & _ & Hkeepj).
      assert (u1 = uj) as -> by congruence.
      rewrite (Hkeepj Hfw Hgj) in Hvj'.
      destruct (Hclosed' i u' Hu' Hg') as [_ Hcl'].
      apply (Hcl' d j Hd). rewrite Hcu'.
      apply buildMap_last in Hj
        as [[Hj _]|(k & wk & -> & Hk & Hfk & Hck & Hlast)];
        [by rewrite lookup_empty in Hj|].
      simpl in *.
      assert (wk = setGrounded false vj) as -> by congruence.
      rewrite <- Hck.
      apply (buildMap_complete 0 (base (voxels e1)) ∅ k
               (setGrounded false (setGrounded true vj))).
      + by apply base_lookup.
      + done.
      + intros k' w' Hlt Hk' Hfw' Hcw'.
        apply base_lookup_inv in Hk' as (v1 & Hv1 & ->).
        destruct (lookup_lt_is_Some_2 (voxels e) k') as [v0 Hv0].
        { destruct (pass_outcome e e1 H1) as (_ & _ & _ & Hlen & _).
          rewrite <- Hlen. by eapply lookup_lt_Some. }
        destruct (Hleft k' v0 Hv0) as (u2 & v1' & _ & Hv1' & Hc1 & Hcase & _).
        assert (v1' = v1) as -> by congruence.
        destruct Hcase as [[Hf1 _]|(_ & _ & Hf0 & _ & _)].
        * simpl in Hfw'. congruence.
        * apply (Hlast k' (setGrounded false v0)); [done| |done|].
          -- by apply base_lookup.
          -- change (cell v0 = shift (cell v) d).
             rewrite <- Hc1, <- Hck. exact Hcw'. }
  (* so the second traversal ends on the particles as they are *)
  assert (vs3' = voxels e1) as ->.
  { pose proof Hfin' as (Hbase' & _ & _).
    apply list_eq. intros k.
    destruct (voxels e1 !! k) as [v'|] eqn:Hv'.
    - destruct (Hall' k v' Hv') as (u' & v2 & Hu' & _ & Heq & Hfall' & _).
      rewrite Hu'. f_equal. apply flags_determine; [done|].
      destruct (lookup_lt_is_Some_2 (voxels e) k) as [v Hv].
      { destruct (pass_outcome e e1 H1) as (_ & _ & _ & Hlen & _).
        rewrite <- Hlen. by eapply lookup_lt_Some. }
      destruct (Hleft k v Hv) as (u & v1 & Hu & Hv1 & _ & Hcase & _).
      assert (v1 = v') as -> by congruence.
      destruct Hcase as [[Hf Hg]|(Hf & Hg & _ & Hgu & _)].
      + destruct (Hfall' Hf) as [Hgu' _]. congruence.
      + destruct (proj2 (Hagain k (Hlink k u Hu Hgu))) as (u0 & Hu0 & Hg0).
        congruence.
    - apply lookup_ge_None in Hv'. apply lookup_ge_None.
      rewrite <- (base_length vs3'), Hbase', base_length. done. }
  rewrite setVoxels_same in Hdrop'.
  rewrite dropUnsupported_none in Hdrop'; [congruence|].
  intros v' Hin. apply list_elem_of_lookup_1 in Hin as [k Hv'].
  destruct (lookup_lt_is_Some_2 (voxels e) k) as [v Hv].
  { destruct (pass_outcome e e1 H1) as (_ & _ & _ & Hlen & _).
    rewrite <- Hlen. by eapply lookup_lt_Some. }
  destruct (Hleft k v Hv) as (u & v1 & _ & Hv1 & _ & Hcase & _).
  assert (v1 = v') as -> by congruence.
  unfold unsupportedNow.
  destruct Hcase as [[-> _]|(_ & -> & _)]; [done|].
  apply andb_false_r.
Qed.

(** ** getJsonData *)

Lemma toFixed2_error q : Qabs (toFixed2 q - q) <= 0.005.
Proof.
  unfold toFixed2.
  pose proof (Qfloor_le (Qabs q * 100 + 0.5)) as Hlo.
  pose proof (Qlt_floor (Qabs q * 100 + 0.5)) as Hhi.
  rewrite inject_Z_plus in Hhi.
  change (inject_Z 1) with 1 in Hhi.
  apply Qabs_Qle_condition. rewrite inject_Z_opp.
  unfold Qdiv. change (/ 100) with (1 # 100).
  generalize dependent (inject_Z (Qfloor (Qabs q * 100 + 0.5))).
  intros N Hlo Hhi.
  destruct (Qltb q 0) eqn:Hs.
  - apply Qltb_lt in Hs.
    assert (Qabs q == - q) by (apply Qabs_neg; lra).
    split; lra.
  - apply Qltb_ge in Hs. pose proof (Qabs_pos q Hs).
    split; lra.
Qed.

Lemma Qfloor_half (m : Z) : Qfloor (inject_Z m + 0.5) = m.
Proof.
  pose proof (Qfloor_le (inject_Z m + 0.5)) as Hlo.
  pose proof (Qlt_floor (inject_Z m + 0.5)) as Hhi.
  assert (inject_Z (Qfloor (inject_Z m + 0.5)) < inject_Z (m + 1)) as H1.
  { rewrite inject_Z_plus. change (inject_Z 1) with 1. lra. }
  assert (inject_Z m < inject_Z (Qfloor (inject_Z m + 0.5) + 1)) as H2 by lra.
  rewrite <- Zlt_Qlt in H1, H2. lia.
Qed.

(** A whole number of hundredths is exported as it is. *)
Lemma toFixed2_exact q : centesimal q -> toFixed2 q == q.
Proof.
  intros [m Hq]. revert Hq.
  unfold toFixed2, Qdiv. change (/ 100) with (1 # 100). intros Hq.
  assert (Qabs q * 100 + 0.5 == inject_Z (Z.abs m) + 0.5) as Hm.
  { rewrite Hq. destruct (Z_le_gt_dec 0 m) as [Hle|Hgt].
    - rewrite Z.abs_eq by done. rewrite Qabs_pos; [ring|].
      rewrite Zle_Qle in Hle. change (inject_Z 0) with 0 in Hle. lra.
    - rewrite Z.abs_neq by lia. rewrite Qabs_neg, inject_Z_opp; [ring|].
      assert (m < 0)%Z as Hlt by lia.
      rewrite Zlt_Qlt in Hlt. change (inject_Z 0) with 0 in Hlt. lra. }
  assert (Qfloor (Qabs q * 100 + 0.5) = Z.abs m) as ->
    by (rewrite Hm; apply Qfloor_half).
  destruct (Qltb q 0) eqn:Hs.
  - apply Qltb_lt in Hs.
    assert (inject_Z m < 0) as Hm0 by lra.
    change 0 with (inject_Z 0) in Hm0. rewrite <- Zlt_Qlt in Hm0.
    rewrite Z.abs_neq, Z.opp_involutive by lia. lra.
  - apply Qltb_ge in Hs.
    assert (0 <= inject_Z m) as Hm0 by lra.
    change 0 with (inject_Z 0) in Hm0. rewrite <- Zle_Qle in Hm0.
    rewrite Z.abs_eq by done. lra.
Qed.

Lemma toFixed2_centesimal q : centesimal (toFixed2 q).
Proof.
  unfold toFixed2. destruct (Qltb q 0); eexists; reflexivity.
Qed.

(** X17.  [getJsonData] exports one record per particle, in order, whose
    [id] is the particle's slot, whose colour is that of the particle, and
    whose coordinates are whole numbers of hundredths within 0.005 of the
    particle's; exporting rounded coordinates again changes nothing. *)
Theorem export_rounds {Str : Type} (hex : Color -> Str) (e : Engine) :
  length (getJsonData hex e) = length (voxels e) /\
  (forall i v, voxels e !! i = Some v ->
     exists j, getJsonData hex e !! i = Some j /\
       JsonVoxel.id j = i /\ JsonVoxel.c j = hex (color v) /\
       Qabs (JsonVoxel.x j - x v) <= 0.005 /\
       Qabs (JsonVoxel.y j - y v) <= 0.005 /\
       Qabs (JsonVoxel.z j - z v) <= 0.005 /\
       centesimal (JsonVoxel.x j) /\ centesimal (JsonVoxel.y j) /\
       centesimal (JsonVoxel.z j)) /\
  (forall q, toFixed2 (toFixed2 q) == toFixed2 q).
Proof.
  split; [apply length_imap|]. split.
  - intros i v Hv. eexists. split.
    + unfold getJsonData. apply list_lookup_imap_Some. by exists v.
    + simpl. split; [done|]. split; [done|].
      split; [apply toFixed2_error|]. split; [apply toFixed2_error|].
      split; [apply toFixed2_error|].
      split; [apply toFixed2_centesimal|].
      split; apply toFixed2_centesimal.
  - intros q. apply toFixed2_exact, toFixed2_centesimal.
Qed.

(** X18.  Load, run, export: a model whose coordinates are whole numbers
    of hundredths comes back from [getJsonData] with the coordinates it
    was loaded with, entry by entry, also after any number of frames. *)
Theorem export_of_loaded {Str : Type} (hex : Color -> Str)
    (data : list VoxelData.t) (e0 e' : Engine) (nows : list Q) :
  Forall centesimalData data ->
  run (OpLoad data :: (OpFrame <$> nows)) e0 = Some e' ->
  length (getJsonData hex e') = length data /\
  forall i d, data !! i = Some d ->
    exists j, getJsonData hex e' !! i = Some j /\
      JsonVoxel.id j = i /\
      JsonVoxel.x j == VoxelData.x d /\ JsonVoxel.y j == VoxelData.y d /\
      JsonVoxel.z j == VoxelData.z d.
Proof.
  intros Hdata Hrun.
  assert (e' = loadInitialModel data e0) as ->.
  { pose proof (loaded_frames data e0 nows) as Hrest.
    unfold run in *. simpl in Hrun. congruence. }
  split.
  { unfold getJsonData. rewrite length_imap. simpl. apply length_imap. }
  intros i d Hd.
  rewrite Forall_lookup in Hdata. destruct (Hdata i d Hd) as (Hx & Hy & Hz).
  eexists. split.
  - unfold getJsonData. apply list_lookup_imap_Some. eexists. split; [|done].
    simpl. apply list_lookup_imap_Some. by exists d.
  - simpl. split; [done|].
    split; [by apply toFixed2_exact|]. split; by apply toFixed2_exact.
Qed.

(** ** The callbacks and the state machine *)

Lemma scatterAt_fields i e e' :
  scatterAt i e = Some e' ->
  state e' = state e /\ stateChanges e' = stateChanges e /\
  countChanges e' = countChanges e /\
  length (voxels e') = length (voxels e).
Proof.
  unfold scatterAt. intros Hrun.
  destruct (voxels e !! i) as [v|]; simpl in Hrun; [|done].
  destruct (triggerFalling (id v) e) as [e1|] eqn:H1; simpl in Hrun; [|done].
  destruct (voxels e1 !! i) as [v1|]; simpl in Hrun; [|done].
  destruct (triggerFalling_falls _ _ _ H1) as (Hs & Hsc & Hcc & Hlen & _).
  simplify_eq. simpl. rewrite length_insert. done.
Qed.

(** What one operation does to the state, to the two logs and to the
    number of particles. *)
Lemma exec_fields op e e' :
  exec op e = Some e' ->
  (state e' = state e /\ stateChanges e' = stateChanges e \/
   stateChanges e' = state e' :: stateChanges e /\
   (state e' = state e \/
    (exists data, op = OpLoad data) /\ state e' = STABLE \/
    op = OpDismantle /\ state e = STABLE /\ state e' = DISMANTLING \/
    (exists targetModel now, op = OpRebuild targetModel now) /\
      state e' = REBUILDING \/
    (exists now, op = OpFrame now) /\ state e = REBUILDING /\
      state e' = STABLE)) /\
  (countChanges e' = countChanges e /\
   length (voxels e') = length (voxels e) \/
   (exists data, op = OpLoad data) /\
   countChanges e' = length (voxels e') :: countChanges e).
Proof.
  destruct op; simpl; intros Hrun.
  - simplify_eq. split; right.
    + split; [done|]. right. left. split; [by eexists|done].
    + split; [by eexists|]. done.
  - unfold onMouseClick in Hrun. case_decide.
    + destruct (triggerFalling instanceId e) as [e1|] eqn:H1;
        simpl in Hrun; [|done].
      destruct (triggerFalling_falls _ _ _ H1) as (Hs & Hsc & Hcc & Hlen & _).
      destruct (pass_outcome e1 e' Hrun)
        as (vs3 & _ & _ & Hlen' & _ & _ & Hs' & Hsc' & Hcc' & _).
      split; left; split; congruence.
    + simplify_eq. split; left; done.
  - unfold dismantle in Hrun. case_decide as Hs.
    + assert (state e' = DISMANTLING /\
              stateChanges e' = DISMANTLING :: stateChanges e /\
              countChanges e' = countChanges e /\
              length (voxels e') = length (voxels e)) as (H1 & H2 & H3 & H4).
      { revert Hrun.
        apply (forEach_invariant
                 (fun a => state a = DISMANTLING /\
                           stateChanges a = DISMANTLING :: stateChanges e /\
                           countChanges a = countChanges e /\
                           length (voxels a) = length (voxels e))); [|done].
        intros i a a' _ (A1 & A2 & A3 & A4) Hstep.
        destruct (scatterAt_fields i a a' Hstep) as (B1 & B2 & B3 & B4).
        repeat split; congruence. }
      split; [right|left; done].
      split; [congruence|]. right. right. left. done.
    + simplify_eq. split; left; done.
  - simplify_eq. split; [right|left; done].
    split; [done|]. right. right. right. left. split; [by eexists; eexists|done].
  - unfold updatePhysics in Hrun. case_decide as Hs.
    + destruct (convergeAll _ _ _) as [[vs allDone]|] eqn:Hc;
        simpl in Hrun; [|done].
      pose proof (convergeAll_length _ _ _ _ Hc) as Hlen. simpl in Hlen.
      destruct allDone; simplify_eq; simpl.
      * split; [right|left; done]. split; [done|].
        right. right. right. right. split; [by eexists|done].
      * split; left; done.
    + simplify_eq. simpl. rewrite length_fmap. split; left; done.
  - destruct (triggerFalling_falls _ _ _ Hrun) as (Hs & Hsc & Hcc & Hlen & _).
    split; left; done.
  - destruct (pass_outcome e e' Hrun)
      as (vs3 & _ & _ & Hlen' & _ & _ & Hs' & Hsc' & Hcc' & _).
    split; left; done.
Qed.

(** X19.  The callbacks mirror the engine: once a shape has been loaded,
    whatever operations follow, the state last passed to [onStateChange]
    is the state of the engine and the count last passed to
    [onCountChange] is its number of particles. *)
Theorem callbacks_mirror (e0 e' : Engine) (data : list VoxelData.t)
    (ops : list Op) :
  run (OpLoad data :: ops) e0 = Some e' ->
  mirrored e'.
Proof.
  unfold run. simpl.
  assert (mirrored (loadInitialModel data e0)) as Hm.
  { split; simpl; [done|]. by rewrite !length_imap. }
  revert Hm. generalize (loadInitialModel data e0).
  induction ops as [|op ops IH]; intros e Hm Hrun; simpl in Hrun.
  - by simplify_eq.
  - destruct (exec op e) as [e1|] eqn:H1; simpl in Hrun; [|done].
    apply (IH e1); [|done].
    destruct Hm as [Hs Hc].
    destruct (exec_fields op e e1 H1) as [Hstate Hcount]. split.
    + destruct Hstate as [[-> ->]|[-> _]]; done.
    + destruct Hcount as [[-> ->]|[_ ->]]; done.
Qed.

(** X20.  The state machine: an operation that changes the state is a
    [dismantle] from [STABLE] (to [DISMANTLING]), a [rebuild] (to
    [REBUILDING]), a load (to [STABLE]), or a frame that ends a rebuild
    (from [REBUILDING] to [STABLE]).  Clicks, passes, [triggerFalling] and
    all other frames leave the state alone, and the state callback is
    called on no other occasion than a load, a [rebuild], a [dismantle]
    from [STABLE] and the frame that ends a rebuild. *)
Theorem state_machine (op : Op) (e e' : Engine) :
  exec op e = Some e' ->
  (state e' <> state e ->
   (exists data, op = OpLoad data) /\ state e' = STABLE \/
   op = OpDismantle /\ state e = STABLE /\ state e' = DISMANTLING \/
   (exists targetModel now, op = OpRebuild targetModel now) /\
     state e' = REBUILDING \/
   (exists now, op = OpFrame now) /\ state e = REBUILDING /\
     state e' = STABLE) /\
  (stateChanges e' <> stateChanges e ->
   stateChanges e' = state e' :: stateChanges e /\
   ((exists data, op = OpLoad data) \/
    op = OpDismantle /\ state e = STABLE \/
    (exists targetModel now, op = OpRebuild targetModel now) \/
    (exists now, op = OpFrame now) /\ state e = REBUILDING /\
      state e' = STABLE)).
Proof.
  intros Hrun.
  destruct (exec_fields op e e' Hrun) as [[[Hs Hsc]|[Hsc Hs]] _].
  - split; intros Hne; congruence.
  - split.
    + intros Hne. destruct Hs as [Hs|Hs]; [congruence|done].
    + intros _. split; [done|].
      destruct op; simpl in Hrun.
      * left. by eexists.
      * exfalso. unfold onMouseClick in Hrun. case_decide.
        -- destruct (triggerFalling instanceId e) as [e1|] eqn:H1;
             simpl in Hrun; [|done].
           destruct (triggerFalling_falls _ _ _ H1) as (_ & Hsc1 & _).
           destruct (pass_outcome e1 e' Hrun)
             as (vs3 & _ & _ & _ & _ & _ & _ & Hsc' & _).
           rewrite Hsc', Hsc1 in Hsc.
           by apply (f_equal length) in Hsc; simpl in Hsc; lia.
        -- simplify_eq. by apply (f_equal length) in Hsc; simpl in Hsc; lia.
      * right. left. split; [done|].
        unfold dismantle in Hrun. case_decide; [done|]. simplify_eq.
        by apply (f_equal length) in Hsc; simpl in Hsc; lia.
      * right. right. left. by eexists; eexists.
      * right. right. right.
        unfold updatePhysics in Hrun. case_decide as Hst.
        -- destruct (convergeAll _ _ _) as [[vs allDone]|];
             simpl in Hrun; [|done].
           destruct allDone; simplify_eq; simpl in *.
           ++ split; [by eexists|done].
           ++ by apply (f_equal length) in Hsc; simpl in Hsc; lia.
        -- simplify_eq. simpl in Hsc.
           by apply (f_equal length) in Hsc; simpl in Hsc; lia.
      * exfalso.
        destruct (triggerFalling_falls _ _ _ Hrun) as (_ & Hsc1 & _).
        rewrite Hsc1 in Hsc.
        by apply (f_equal length) in Hsc; simpl in Hsc; lia.
      * exfalso.
        destruct (pass_outcome e e' Hrun)
          as (vs3 & _ & _ & _ & _ & _ & _ & Hsc' & _).
        rewrite Hsc' in Hsc.
        by apply (f_equal length) in Hsc; simpl in Hsc; lia.
Qed.

(** ** Free flight *)

Lemma frames_succ k : frames (S k) == frames k + 1.
Proof.
  unfold frames. rewrite Nat2Z.inj_succ. unfold Z.succ.
  by rewrite inject_Z_plus.
Qed.

Lemma frames_nonneg k : 0 <= frames k.
Proof.
  unfold frames. change 0 with (inject_Z 0). rewrite <- Zle_Qle. lia.
Qed.

(** A step that does not reach the floor plane. *)
Lemma fall_free v :
  isFalling v = true -> FLOOR_Y + 0.5 <= y v + (vy v - 0.052) ->
  fall v =
    {| id := id v; x := x v + vx v; y := y v + (vy v - 0.052);
       z := z v + vz v; color := color v;
       vx := vx v; vy := vy v - 0.052; vz := vz v;
       rx := rx v + rvx v; ry := ry v + rvy v; rz := rz v + rvz v;
       rvx := rvx v; rvy := rvy v; rvz := rvz v;
       isFalling := isFalling v; grounded := grounded v |}.
Proof.
  intros Hf Hy. unfold fall. rewrite Hf.
  destruct (Qltb _ (FLOOR_Y + 0.5)) eqn:Hc; [|done].
  apply Qltb_lt in Hc. lra.
Qed.

(** X21.  Free flight is a parabola.  A falling particle whose computed
    heights [y + k vy - 0.026 k (k + 1)] stay at or above [FLOOR_Y + 0.5]
    for [k = 1 .. n] is, after [n] frames outside a rebuild, at exactly
    that height for [k = n], has moved by [n] times its horizontal
    velocity and turned by [n] times its angular velocity, has lost
    [0.052 n] of vertical velocity, and kept its other velocities. *)
Theorem free_flight (nows : list Q) (e e' : Engine) (i : nat)
    (v : SimulationVoxel) :
  state e <> REBUILDING ->
  run (OpFrame <$> nows) e = Some e' ->
  voxels e !! i = Some v ->
  isFalling v = true ->
  (forall k, (1 <= k <= length nows)%nat -> FLOOR_Y + 0.5 <= flightY v k) ->
  exists v', voxels e' !! i = Some v' /\ flownTo (length nows) v v'.
Proof.
  unfold run. revert e v.
  induction nows as [|now nows IH]; simpl; intros e v Hs Hrun Hv Hf Hfree.
  - simplify_eq. exists v. split; [done|].
    unfold flownTo, flightY, frames. simpl.
    split; [done|]. repeat split; ring.
  - change (exec (OpFrame now) e) with (updatePhysics now e) in Hrun.
    destruct (updatePhysics now e) as [e1|] eqn:H1; simpl in Hrun; [|done].
    pose proof (updatePhysics_fall now e e1 i v Hs H1 Hv) as Hv1.
    assert (state e1 <> REBUILDING) as Hs1.
    { unfold updatePhysics in H1. case_decide; [done|]. by simplify_eq. }
    assert (FLOOR_Y + 0.5 <= y v + (vy v - 0.052)) as Hfirst.
    { assert (1 <= 1 <= S (length nows))%nat as Hk by lia.
      pose proof (Hfree 1%nat Hk) as H0. unfold flightY, frames in H0.
      change (inject_Z (Z.of_nat 1)) with 1 in H0. lra. }
    rewrite (fall_free v Hf Hfirst) in Hv1.
    destruct (IH e1 _ Hs1 Hrun Hv1 Hf) as (v' & Hv' & Hflown).
    { intros k Hk. pose proof (Hfree (S k)) as H0.
      assert (1 <= S k <= S (length nows))%nat as Hk' by lia.
      specialize (H0 Hk'). unfold flightY in *. simpl.
      rewrite frames_succ in H0.
      assert (y v + (vy v - 0.052) + frames k * (vy v - 0.052)
              - 0.026 * frames k * (frames k + 1)
              == y v + (frames k + 1) * vy v
                 - 0.026 * (frames k + 1) * (frames k + 1 + 1)) as ->
        by ring.
      exact H0. }
    exists v'. split; [done|].
    destruct Hflown as (F0 & F1 & F2 & F3 & F4 & F5 & F6 & F7 & F8 & F9
                        & F10 & F11 & F12).
    unfold flownTo, flightY in *. simpl in *.
    rewrite F1, F2, F3, F4, F5, F6, F7, F8, F9, F10, F11, F12.
    rewrite !frames_succ.
    split; [done|]. repeat split; ring.
Qed.

(** ** The particles a pass grounds *)

Lemma buildMap_mono i vs m c :
  is_Some (m !! c) -> is_Some (buildMap i vs m !! c).
Proof.
  revert i m. induction vs as [|v vs IH]; intros i m Hm; [done|].
  simpl. apply IH. destruct (isFalling v); [done|].
  destruct (decide (cell v = c)) as [->|Hne].
  - rewrite lookup_insert_eq. by eexists.
  - by rewrite lookup_insert_ne.
Qed.

(** Every cell that holds a particle not falling has an entry in the map. *)
Lemma buildMap_hit i vs m k v :
  vs !! k = Some v -> isFalling v = false ->
  is_Some (buildMap i vs m !! cell v).
Proof.
  revert i m k. induction vs as [|w vs IH]; intros i m k Hk Hf; [done|].
  destruct k as [|k]; simpl in *.
  - injection Hk as ->. rewrite Hf. apply buildMap_mono.
    rewrite lookup_insert_eq. by eexists.
  - by apply (IH _ _ k).
Qed.

Lemma lastInCell_base vs i : lastInCell vs i <-> lastInCell (base vs) i.
Proof.
  split.
  - intros Hlast b j w Hb Hw Hlt Hf.
    apply base_lookup_inv in Hb as (v & Hv & ->).
    apply base_lookup_inv in Hw as (w0 & Hw0 & ->).
    by apply (Hlast v j w0).
  - intros Hlast v j w Hv Hw Hlt Hf.
    apply (Hlast (setGrounded false v) j (setGrounded false w));
      try done; by apply base_lookup.
Qed.

Lemma aloneInCell_last vs i : aloneInCell vs i -> lastInCell vs i.
Proof.
  intros Halone v j w Hv Hw Hlt Hf. apply (Halone v j w); try done. lia.
Qed.

(** When the traversal has ended, the cell of every reachable particle
    holds a grounded particle. *)
Lemma cell_grounded vs vs3 :
  let B := base vs in
  bfsFinal B (buildMap 0 B ∅) (groundAnchor <$> B) vs3 ->
  forall i, supported B i ->
    exists k u b, vs3 !! k = Some u /\ grounded u = true /\
      B !! i = Some b /\ cell u = cell b.
Proof.
  intros B Hfin i Hs. pose proof Hfin as (Hbase & _ & Hclosed).
  assert (forall k u, vs3 !! k = Some u ->
            exists b, B !! k = Some b /\ cell u = cell b) as Hcell.
  { intros k u Hu. exists (setGrounded false u). split; [|done].
    rewrite <- Hbase. by apply base_lookup. }
  induction Hs as [i b Hb Ha|i j b w _ IH Hbi Hbj Hf Hadj].
  - destruct (anchor_grounded _ _ _ i b Hfin Hb Ha) as (u & Hu & Hg).
    exists i, u, b. split; [done|]. split; [done|]. split; [done|].
    destruct (Hcell i u Hu) as (b' & Hb' & ->). congruence.
  - destruct IH as (k & u & b' & Hu & Hg & Hb' & Hcu).
    assert (b' = b) as -> by congruence.
    destruct (Hclosed k u Hu Hg) as [_ Hcl].
    apply adjacent_shift in Hadj as (d & Hd & Hcw).
    destruct (buildMap_hit 0 B ∅ j w Hbj Hf) as [k' Hk'].
    destruct (Hcl d k' Hd) as (u' & Hu' & Hg'); [by rewrite Hcu, <- Hcw|].
    exists k', u', w. split; [done|]. split; [done|]. split; [done|].
    destruct (voxelMap_sound B _ _ Hk') as (b2 & Hb2 & _ & Hc2).
    destruct (Hcell k' u' Hu') as (b3 & Hb3 & ->). congruence.
Qed.

(** A reachable particle that is an anchor or the last of its cell is
    grounded when the traversal has ended. *)
Lemma last_grounded vs vs3 i b :
  let B := base vs in
  bfsFinal B (buildMap 0 B ∅) (groundAnchor <$> B) vs3 ->
  supported B i -> B !! i = Some b ->
  isAnchor b = true \/ lastInCell B i ->
  exists u, vs3 !! i = Some u /\ grounded u = true.
Proof.
  intros B. subst B. intros Hfin Hs Hb [Ha|Hlast];
    [by eapply anchor_grounded|].
  pose proof Hfin as (_ & _ & Hclosed).
  inversion Hs as [i0 b0 Hb0 Ha|i0 j0 b0 w Hs0 Hb0 Hw Hf Hadj]; subst.
  - assert (b0 = b) as -> by congruence. by eapply anchor_grounded.
  - assert (w = b) as -> by congruence.
    destruct (cell_grounded vs vs3 Hfin i0 Hs0)
      as (k & u & b' & Hu & Hg & Hb' & Hcu).
    assert (b' = b0) as -> by congruence.
    destruct (Hclosed k u Hu Hg) as [_ Hcl].
    apply adjacent_shift in Hadj as (d & Hd & Hcw).
    apply (Hcl d i Hd). rewrite Hcu, <- Hcw.
    apply (buildMap_complete 0 (base vs) ∅ i b Hb Hf).
    intros k' v' Hlt Hk' Hf'. by apply (Hlast b k' v').
Qed.

(** A grounded particle is an anchor or the last of its cell. *)
Lemma linked_last vs i b :
  let B := base vs in
  linked (buildMap 0 B ∅) B i -> B !! i = Some b ->
  isAnchor b = true \/ lastInCell B i.
Proof.
  intros B. subst B. intros Hl Hb.
  inversion Hl as [i0 b0 Hb0 Ha|i0 j0 b0 w d _ Hb0 Hd Hj Hw Hf]; subst.
  - left. congruence.
  - right. assert (w = b) as -> by congruence.
    apply buildMap_last in Hj
      as [[Hj _]|(k & wk & -> & Hk & Hfk & Hck & Hlast)];
      [by rewrite lookup_empty in Hj|].
    simpl in *. assert (wk = b) as -> by congruence.
    intros b' j w' Hb' Hw' Hlt Hf'.
    assert (b' = b) as -> by congruence.
    rewrite Hck. by apply (Hlast j w').
Qed.

(** C2, as amended.  The pass completes.  A particle that was falling
    keeps everything but [grounded], which is cleared.  A particle that
    was not falling ends either grounded and otherwise as it was, or
    falling with the kick of [triggerFalling].  It ends grounded exactly
    when it is reachable from a ground anchor through 6-connected cells of
    particles that are not falling and is itself a ground anchor or the
    last particle of its cell that is not falling; in particular every
    reachable particle with no other standing particle in its cell ends
    grounded. *)
Theorem integrity_pass (e : Engine) :
  exists e',
    checkStructuralIntegrity e = Some e' /\
    length (voxels e') = length (voxels e) /\
    state e' = state e /\
    forall i v, voxels e !! i = Some v ->
      exists v', voxels e' !! i = Some v' /\
        (isFalling v = true -> v' = setGrounded false v) /\
        (isFalling v = false -> grounded v' = true ->
           v' = setGrounded true v /\ supported (voxels e) i /\
           (isAnchor v = true \/ lastInCell (voxels e) i)) /\
        (isFalling v = false -> grounded v' = false ->
           exists n, v' = kick n v) /\
        (isFalling v = false -> supported (voxels e) i ->
           isAnchor v = true \/ lastInCell (voxels e) i ->
           grounded v' = true) /\
        (isFalling v = false -> supported (voxels e) i ->
           aloneInCell (voxels e) i -> grounded v' = true).
Proof.
  destruct (checkStructuralIntegrity_total e) as [e' Hrun].
  destruct (pass_trace e e' Hrun) as (vs3 & Hbfs & Hdrop).
  destruct (pass_outcome_at e e' vs3 Hbfs Hdrop)
    as (Hfin & Hlen & _ & _ & Hst & _ & _ & Hall).
  pose proof (bfs_linked _ _ _ _ _ _ _
                (linkedInv_start (voxels e) (buildMap 0 (base (voxels e)) ∅))
                Hbfs) as Hlink.
  pose proof Hfin as (_ & _ & Hclosed).
  exists e'. split; [done|]. split; [done|]. split; [done|].
  intros i v Hv.
  destruct (Hall i v Hv) as (u & v' & Hu & Hv' & Huv & Hfall & Hkeep & Hkick).
  pose proof (base_lookup _ _ _ Hv) as Hb.
  assert (isFalling v = false -> supported (voxels e) i ->
          isAnchor v = true \/ lastInCell (voxels e) i ->
          grounded v' = true) as Hcomplete.
  { intros Hf Hs Hcase.
    destruct (last_grounded (voxels e) vs3 i (setGrounded false v) Hfin)
      as (u' & Hu' & Hg').
    - apply (supported_base (voxels e)); [by rewrite base_base|done].
    - done.
    - destruct Hcase as [Ha|Hlast]; [by left|right].
      by apply (proj1 (lastInCell_base (voxels e) i)).
    - assert (u' = u) as -> by congruence.
      by rewrite (Hkeep Hf Hg'). }
  exists v'. split; [done|]. split; [|split; [|split; [|split]]].
  - intros Hf. by destruct (Hfall Hf) as [_ ->].
  - intros Hf Hg'. destruct (grounded u) eqn:Hg.
    + split; [by apply Hkeep|]. split.
      * destruct (Hclosed i u Hu Hg) as [Hs _].
        apply (supported_base (base (voxels e))); [apply base_base|done].
      * destruct (linked_last (voxels e) i (setGrounded false v)
                    (Hlink i u Hu Hg) Hb) as [Ha|Hlast]; [by left|right].
        by apply (proj2 (lastInCell_base (voxels e) i)).
    + destruct (Hkick Hf eq_refl) as [n ->]. done.
  - intros Hf Hg'. destruct (grounded u) eqn:Hg.
    + rewrite (Hkeep Hf eq_refl) in Hg'. done.
    + by apply Hkick.
  - exact Hcomplete.
  - intros Hf Hs Halone. apply Hcomplete; [done|done|].
    right. by apply aloneInCell_last.
Qed.

End Properties.

(** * Concrete runs *)

#[local] Existing Instance sampleHost.

(** ** Instances of the theorems *)

Lemma flags_exclusive_after_pass_witness :
  checkStructuralIntegrity sampleEngine = Some samplePassed /\
  run sampleOps samplePassed = Some sampleEnd /\
  forall v, v ∈ voxels sampleEnd ->
    ~ (isFalling v = true /\ grounded v = true).
Proof.
  split; [vm_compute; reflexivity|].
  split; [vm_compute; reflexivity|].
  apply (flags_exclusive_after_pass sampleEngine samplePassed sampleEnd
           sampleOps); vm_compute; reflexivity.
Defined.

Lemma stackedEngine_last : lastInCell (voxels stackedEngine) 2.
Proof.
  intros v j w Hv Hw Hlt _.
  destruct j as [|[|[|j]]]; simpl in Hw; try done; lia.
Qed.

Lemma stackedEngine_supported : supported (voxels stackedEngine) 2.
Proof.
  eapply (supported_step _ 0 2); [| reflexivity | reflexivity | reflexivity
                                  | vm_compute; reflexivity].
  eapply (supported_anchor _ 0); [reflexivity|]. vm_compute; reflexivity.
Qed.

(** Of the two particles that share the cell above the anchor, the last one
    is reachable and ends grounded. *)
Lemma integrity_pass_witness :
  checkStructuralIntegrity stackedEngine = Some stackedPassed /\
  supported (voxels stackedEngine) 2 /\
  lastInCell (voxels stackedEngine) 2 /\
  exists v', voxels stackedPassed !! 2%nat = Some v' /\ grounded v' = true.
Proof.
  assert (checkStructuralIntegrity stackedEngine = Some stackedPassed)
    as Hrun by (vm_compute; reflexivity).
  split; [exact Hrun|]. split; [exact stackedEngine_supported|].
  split; [exact stackedEngine_last|].
  destruct (integrity_pass stackedEngine) as (e' & Hrun' & _ & _ & Hall).
  rewrite Hrun in Hrun'. injection Hrun' as <-.
  destruct (Hall 2%nat _ eq_refl) as (v' & Hv' & _ & _ & _ & Hreach & _).
  exists v'. split; [exact Hv'|].
  exact (Hreach eq_refl stackedEngine_supported
           (or_intror stackedEngine_last)).
Defined.

Lemma floor_bounce_witness :
  state (engineOf fastVoxel) <> REBUILDING /\
  updatePhysics 16 (engineOf fastVoxel) = Some (engineOf fastVoxel') /\
  isFalling fastVoxel = true /\
  crossesFloor fastVoxel /\
  ~ restsOnBounce fastVoxel /\
  y fastVoxel' = FLOOR_Y + 0.5 /\
  vy fastVoxel' = (vy fastVoxel - 0.052) * -0.42 /\
  vx fastVoxel' = vx fastVoxel * 0.75 /\ vz fastVoxel' = vz fastVoxel * 0.75 /\
  rvx fastVoxel' = rvx fastVoxel * 0.65 /\
  rvy fastVoxel' = rvy fastVoxel * 0.65 /\
  rvz fastVoxel' = rvz fastVoxel * 0.65.
Proof.
  assert (state (engineOf fastVoxel) <> REBUILDING) as Hs by done.
  assert (updatePhysics 16 (engineOf fastVoxel) = Some (engineOf fastVoxel'))
    as Hrun by (vm_compute; reflexivity).
  assert (crossesFloor fastVoxel) as Hc by (vm_compute; reflexivity).
  assert (~ restsOnBounce fastVoxel) as Hn.
  { intros [Hvy _]. vm_compute in Hvy. discriminate. }
  destruct (floor_bounce 16 (engineOf fastVoxel) (engineOf fastVoxel') 0
              fastVoxel fastVoxel' Hs Hrun eq_refl eq_refl eq_refl Hc)
    as [Hy Hv].
  specialize (Hv Hn). tauto.
Defined.

Lemma rest_snap_witness :
  state (engineOf slowVoxel) <> REBUILDING /\
  updatePhysics 16 (engineOf slowVoxel) = Some (engineOf slowVoxel') /\
  isFalling slowVoxel = true /\
  crossesFloor slowVoxel /\
  restsOnBounce slowVoxel /\
  (vx slowVoxel' = 0 /\ vy slowVoxel' = 0 /\ vz slowVoxel' = 0 /\
   rvx slowVoxel' = 0 /\ rvy slowVoxel' = 0 /\ rvz slowVoxel' = 0) /\
  isFalling slowVoxel' = true /\ grounded slowVoxel' = grounded slowVoxel.
Proof.
  assert (state (engineOf slowVoxel) <> REBUILDING) as Hs by done.
  assert (updatePhysics 16 (engineOf slowVoxel) = Some (engineOf slowVoxel'))
    as Hrun by (vm_compute; reflexivity).
  assert (crossesFloor slowVoxel) as Hc by (vm_compute; reflexivity).
  assert (restsOnBounce slowVoxel) as Hr.
  { repeat split; vm_compute; reflexivity. }
  pose proof (rest_snap 16 (engineOf slowVoxel) (engineOf slowVoxel') 0
                slowVoxel slowVoxel' Hs Hrun eq_refl eq_refl eq_refl Hc Hr).
  tauto.
Defined.

Lemma planner_deterministic_witness :
  color <$> voxels sampleEngine = color <$> voxels movedEngine /\
  plan (voxels sampleEngine) sampleTargets
  = plan (voxels movedEngine) sampleTargets /\
  rebuildTargets (rebuild sampleTargets 100 sampleEngine) !! 3%nat
  = Some (matched (VoxelData.mk 0 0 0 0xffffff)) /\
  rebuildTargets (rebuild sampleTargets 200 movedEngine) !! 3%nat
  = Some (matched (VoxelData.mk 0 0 0 0xffffff)) /\
  chosen (voxels sampleEngine) (plan (voxels sampleEngine) [])
    (VoxelData.mk 0 0 0 0xffffff) 3.
Proof.
  assert (color <$> voxels sampleEngine = color <$> voxels movedEngine)
    as Hcol by (vm_compute; reflexivity).
  assert (rebuildTargets (rebuild sampleTargets 100 sampleEngine) !! 3%nat
          = Some (matched (VoxelData.mk 0 0 0 0xffffff))) as H1
    by (vm_compute; reflexivity).
  destruct (planner_deterministic sampleEngine movedEngine sampleTargets
              100 200 Hcol) as (Hplan & Hsame & _ & _ & Hsnoc & _).
  split; [exact Hcol|]. split; [exact Hplan|]. split; [exact H1|].
  split; [exact (Hsame 3%nat _ H1)|].
  destruct (Hsnoc [] (VoxelData.mk 0 0 0 0xffffff))
    as [[_ Heq]|(j & Hch & _ & Heq)].
  - vm_compute in Heq. discriminate.
  - destruct j as [|[|[|[|j]]]]; [..|vm_compute in Heq; discriminate];
      [vm_compute in Heq; discriminate ..|exact Hch].
Defined.

Lemma rubble_count_witness :
  (length sampleTargets < length (voxels sampleEngine))%nat /\
  withinBound (voxels sampleEngine) sampleTargets = true /\
  matchedCount (rebuildTargets (rebuild sampleTargets 100 sampleEngine)) = 2%nat /\
  rubbleCount (rebuildTargets (rebuild sampleTargets 100 sampleEngine)) = 4%nat.
Proof.
  assert (length sampleTargets < length (voxels sampleEngine))%nat as Hlt
    by (vm_compute; lia).
  assert (withinBound (voxels sampleEngine) sampleTargets = true) as Hb
    by (vm_compute; reflexivity).
  destruct (rubble_count sampleTargets 100 sampleEngine Hlt Hb)
    as (Hm & Hr & _).
  split; [done|]. split; [done|]. split; [exact Hm|exact Hr].
Defined.

Lemma delay_monotone_witness :
  exists t1 t2,
    rebuildTargets (rebuild sampleTargets 100 sampleEngine) !! 3%nat = Some t1 /\
    rebuildTargets (rebuild sampleTargets 100 sampleEngine) !! 2%nat = Some t2 /\
    RebuildTarget.isRubble t1 = false /\
    RebuildTarget.isRubble t2 = false /\
    RebuildTarget.y t1 <= RebuildTarget.y t2 /\
    RebuildTarget.delay t1 <= RebuildTarget.delay t2 /\
    RebuildTarget.delay t1
      == Qmax 0 ((RebuildTarget.y t1 - FLOOR_Y) / 15) * 800.
Proof.
  exists (matched (VoxelData.mk 0 0 0 0xffffff)),
         (matched (VoxelData.mk 0 3 0 0x0000fe)).
  assert (rebuildTargets (rebuild sampleTargets 100 sampleEngine) !! 3%nat
          = Some (matched (VoxelData.mk 0 0 0 0xffffff))) as H1
    by (vm_compute; reflexivity).
  assert (rebuildTargets (rebuild sampleTargets 100 sampleEngine) !! 2%nat
          = Some (matched (VoxelData.mk 0 3 0 0x0000fe))) as H2
    by (vm_compute; reflexivity).
  assert (RebuildTarget.y (matched (VoxelData.mk 0 0 0 0xffffff))
          <= RebuildTarget.y (matched (VoxelData.mk 0 3 0 0x0000fe))) as Hle
    by (vm_compute; discriminate).
  destruct (delay_monotone sampleTargets 100 sampleEngine) as [Hform Hmono].
  split; [exact H1|]. split; [exact H2|]. split; [done|]. split; [done|].
  split; [exact Hle|].
  split; [exact (Hmono 3%nat 2%nat _ _ H1 H2 eq_refl eq_refl Hle)|].
  exact (proj2 (Hform 3%nat _ H1 eq_refl)).
Defined.

Lemma rubble_untouched_witness :
  exists v t,
    run (OpFrame <$> [120; 136]) sampleRebuilding = Some sampleRebuilding1 /\
    state sampleRebuilding1 = REBUILDING /\
    updatePhysics 152 sampleRebuilding1 = Some sampleRebuilding2 /\
    voxels sampleRebuilding !! 4%nat = Some v /\
    rebuildTargets sampleRebuilding !! 4%nat = Some t /\
    RebuildTarget.isRubble t = true /\
    voxels sampleRebuilding2 !! 4%nat = Some v /\
    rebuildTargets sampleRebuilding2 = rebuildTargets sampleRebuilding.
Proof.
  eexists _, _.
  assert (run (OpFrame <$> [120; 136]) sampleRebuilding
          = Some sampleRebuilding1) as Hrun by (vm_compute; reflexivity).
  assert (updatePhysics 152 sampleRebuilding1 = Some sampleRebuilding2)
    as Hstep by (vm_compute; reflexivity).
  split; [exact Hrun|]. split; [reflexivity|]. split; [exact Hstep|].
  split; [reflexivity|]. split; [reflexivity|]. split; [reflexivity|].
  exact (rubble_untouched [120; 136] 152 sampleRebuilding sampleRebuilding1
           sampleRebuilding2 4 _ _ Hrun eq_refl Hstep eq_refl eq_refl eq_refl).
Defined.

(** ** Where the specification and the engine part *)

(** C2 as stated fails with two particles in one cell: particle 1 is not
    falling and is reachable from the anchor 0 below it, yet the pass makes
    it fall, because the map holds particle 2 for their common cell. *)
Lemma integrity_pass_counterexample :
  checkStructuralIntegrity stackedEngine = Some stackedPassed /\
  exists v v',
    voxels stackedEngine !! 1%nat = Some v /\
    voxels stackedPassed !! 1%nat = Some v' /\
    isFalling v = false /\
    supported (voxels stackedEngine) 1 /\
    grounded v' = false /\ isFalling v' = true.
Proof.
  split; [vm_compute; reflexivity|].
  eexists _, _. split; [reflexivity|]. split; [reflexivity|].
  split; [reflexivity|]. split; [|split; reflexivity].
  eapply (supported_step _ 0 1).
  - eapply (supported_anchor _ 0); [reflexivity|]. vm_compute; reflexivity.
  - reflexivity.
  - reflexivity.
  - reflexivity.
  - vm_compute; reflexivity.
Qed.

(** C3 as stated fails when the bounce brings the particle to rest: the
    particle crosses the floor plane, and its vertical velocity ends 0, not
    -0.42 times the velocity it was moved with. *)
Lemma floor_bounce_counterexample :
  state (engineOf slowVoxel) <> REBUILDING /\
  updatePhysics 16 (engineOf slowVoxel) = Some (engineOf slowVoxel') /\
  isFalling slowVoxel = true /\
  crossesFloor slowVoxel /\
  ~ (vy slowVoxel' == (vy slowVoxel - 0.052) * -0.42) /\
  ~ (vx slowVoxel' == vx slowVoxel * 0.75) /\
  ~ (rvx slowVoxel' == rvx slowVoxel * 0.65).
Proof.
  split; [done|]. split; [vm_compute; reflexivity|]. split; [done|].
  split; [vm_compute; reflexivity|].
  repeat split; intros Heq; vm_compute in Heq; discriminate.
Qed.

(** C4 as stated fails in the air: the three linear components of the
    particle are below 0.05 in magnitude before and after the step, the
    particle is falling, and none of its velocities is set to 0. *)
Lemma rest_snap_counterexample :
  state (engineOf floatingVoxel) <> REBUILDING /\
  updatePhysics 16 (engineOf floatingVoxel)
    = Some (engineOf floatingVoxel') /\
  isFalling floatingVoxel = true /\
  (Qabs (vx floatingVoxel) < 0.05 /\ Qabs (vy floatingVoxel) < 0.05 /\
   Qabs (vz floatingVoxel) < 0.05) /\
  (Qabs (vx floatingVoxel') < 0.05 /\ Qabs (vy floatingVoxel') < 0.05 /\
   Qabs (vz floatingVoxel') < 0.05) /\
  ~ (vx floatingVoxel' == 0) /\ ~ (vy floatingVoxel' == 0) /\
  ~ (vz floatingVoxel' == 0) /\ ~ (rvx floatingVoxel' == 0) /\
  ~ (rvy floatingVoxel' == 0) /\ ~ (rvz floatingVoxel' == 0).
Proof.
  split; [done|]. split; [vm_compute; reflexivity|]. split; [done|].
  split; [repeat split; vm_compute; reflexivity|].
  split; [repeat split; vm_compute; reflexivity|].
  repeat split; intros Heq; vm_compute in Heq; discriminate.
Qed.

(** ** Instances of the further properties *)

Lemma identity_stable_witness :
  Forall notLoad sampleOps /\
  run sampleOps samplePassed = Some sampleEnd /\
  length (voxels sampleEnd) = length (voxels samplePassed) /\
  exists v v',
    voxels samplePassed !! 3%nat = Some v /\
    voxels sampleEnd !! 3%nat = Some v' /\
    id v' = id v /\ color v' = color v.
Proof.
  assert (Forall notLoad sampleOps) as Hops by (repeat constructor).
  assert (run sampleOps samplePassed = Some sampleEnd) as Hrun
    by (vm_compute; reflexivity).
  destruct (identity_stable sampleOps samplePassed sampleEnd Hops Hrun)
    as [Hlen Hall].
  split; [exact Hops|]. split; [exact Hrun|]. split; [exact Hlen|].
  destruct (Hall 3%nat _ eq_refl) as (v' & Hv' & Hid & Hcol).
  eexists _, v'. split; [reflexivity|]. split; [exact Hv'|].
  split; [exact Hid|exact Hcol].
Defined.

Lemma only_frames_move_witness :
  Forall noMotion stillOps /\
  run stillOps samplePassed = Some sampleStill /\
  exists v v',
    voxels samplePassed !! 1%nat = Some v /\
    voxels sampleStill !! 1%nat = Some v' /\
    x v' = x v /\ y v' = y v /\ z v' = z v /\
    rx v' = rx v /\ ry v' = ry v /\ rz v' = rz v.
Proof.
  assert (Forall noMotion stillOps) as Hops by (repeat constructor).
  assert (run stillOps samplePassed = Some sampleStill) as Hrun
    by (vm_compute; reflexivity).
  split; [exact Hops|]. split; [exact Hrun|].
  destruct (only_frames_move stillOps samplePassed sampleStill Hops Hrun
              1%nat _ eq_refl) as (v' & Hv' & Hpose).
  eexists _, v'. split; [reflexivity|]. split; [exact Hv'|exact Hpose].
Defined.

Lemma falling_is_for_good_witness :
  Forall noReassembly fallOps /\
  state samplePassed <> REBUILDING /\
  run fallOps samplePassed = Some sampleFallen /\
  exists v v',
    voxels samplePassed !! 3%nat = Some v /\ isFalling v = true /\
    voxels sampleFallen !! 3%nat = Some v' /\ isFalling v' = true.
Proof.
  assert (Forall noReassembly fallOps) as Hops by (repeat constructor).
  assert (state samplePassed <> REBUILDING) as Hs by discriminate.
  assert (run fallOps samplePassed = Some sampleFallen) as Hrun
    by (vm_compute; reflexivity).
  split; [exact Hops|]. split; [exact Hs|]. split; [exact Hrun|].
  destruct (falling_is_for_good fallOps samplePassed sampleFallen 3%nat _
              Hops Hs Hrun eq_refl eq_refl) as (v' & Hv' & Hf').
  eexists _, v'. split; [reflexivity|]. split; [reflexivity|].
  split; [exact Hv'|exact Hf'].
Defined.

Lemma never_raises_witness :
  validOps (length sampleData) sampleOps /\
  exists e',
    run (OpLoad sampleData :: sampleOps) newEngine = Some e' /\ wellFormed e'.
Proof.
  assert (validOps (length sampleData) sampleOps) as Hvalid
    by (simpl; split; [lia|done]).
  split; [exact Hvalid|].
  exact (never_raises newEngine sampleData sampleOps Hvalid).
Defined.

Lemma never_below_floor_witness :
  state (engineOf fastVoxel) <> REBUILDING /\
  updatePhysics 16 (engineOf fastVoxel) = Some (engineOf fastVoxel') /\
  isFalling fastVoxel' = true /\
  FLOOR_Y + 0.5 <= y fastVoxel'.
Proof.
  assert (state (engineOf fastVoxel) <> REBUILDING) as Hs by discriminate.
  assert (updatePhysics 16 (engineOf fastVoxel) = Some (engineOf fastVoxel'))
    as Hrun by (vm_compute; reflexivity).
  split; [exact Hs|]. split; [exact Hrun|]. split; [reflexivity|].
  exact (never_below_floor 16 (engineOf fastVoxel) (engineOf fastVoxel')
           0%nat fastVoxel' Hs Hrun eq_refl eq_refl).
Defined.

Lemma rest_is_stable_witness :
  state (engineOf slowVoxel') <> REBUILDING /\
  run (OpFrame <$> restFrames) (engineOf slowVoxel') = Some restedEngine /\
  atRest slowVoxel' /\
  exists v', voxels restedEngine !! 0%nat = Some v' /\
    atRest v' /\ samePlace slowVoxel' v'.
Proof.
  assert (state (engineOf slowVoxel') <> REBUILDING) as Hs by discriminate.
  assert (run (OpFrame <$> restFrames) (engineOf slowVoxel')
          = Some restedEngine) as Hrun by (vm_compute; reflexivity).
  assert (atRest slowVoxel') as Hrest
    by (repeat split; vm_compute; reflexivity).
  split; [exact Hs|]. split; [exact Hrun|]. split; [exact Hrest|].
  exact (rest_is_stable restFrames (engineOf slowVoxel') restedEngine 0%nat
           slowVoxel' Hs Hrun eq_refl Hrest).
Defined.

Lemma rebuild_ends_on_target_witness :
  state driftAlmost = REBUILDING /\
  updatePhysics 748 driftAlmost = Some driftDone /\
  state driftDone = STABLE /\
  exists v t v',
    voxels driftAlmost !! 0%nat = Some v /\
    rebuildTargets driftAlmost !! 0%nat = Some t /\
    RebuildTarget.isRubble t = false /\
    voxels driftDone !! 0%nat = Some v' /\
    x v' = RebuildTarget.x t /\ y v' = RebuildTarget.y t /\
    z v' = RebuildTarget.z t /\ isFalling v' = false /\ grounded v' = true.
Proof.
  assert (updatePhysics 748 driftAlmost = Some driftDone) as Hrun
    by (vm_compute; reflexivity).
  split; [reflexivity|]. split; [exact Hrun|]. split; [reflexivity|].
  destruct (rebuild_ends_on_target 748 driftAlmost driftDone 0%nat _ _
              eq_refl Hrun eq_refl eq_refl eq_refl eq_refl)
    as (v' & Hv' & Hx & Hy & Hz & _ & _ & _ & _ & _ & _ & Hf & Hg & _).
  eexists _, _, v'. split; [reflexivity|]. split; [reflexivity|].
  split; [reflexivity|]. split; [exact Hv'|]. split; [exact Hx|].
  split; [exact Hy|]. split; [exact Hz|]. split; [exact Hf|exact Hg].
Defined.

Lemma waiting_is_frozen_witness :
  state sampleRebuilding = REBUILDING /\
  updatePhysics 120 sampleRebuilding = Some sampleWaiting /\
  exists v t,
    voxels sampleRebuilding !! 3%nat = Some v /\
    rebuildTargets sampleRebuilding !! 3%nat = Some t /\
    RebuildTarget.isRubble t = false /\
    120 - rebuildStartTime sampleRebuilding < RebuildTarget.delay t /\
    voxels sampleWaiting !! 3%nat = Some v /\
    state sampleWaiting = REBUILDING.
Proof.
  assert (updatePhysics 120 sampleRebuilding = Some sampleWaiting) as Hrun
    by (vm_compute; reflexivity).
  split; [reflexivity|]. split; [exact Hrun|].
  eexists _, _. split; [reflexivity|]. split; [reflexivity|].
  split; [reflexivity|].
  assert (120 - rebuildStartTime sampleRebuilding
          < RebuildTarget.delay
              {| RebuildTarget.x := 0; RebuildTarget.y := 0;
                 RebuildTarget.z := 0; RebuildTarget.delay := 9600 # 15;
                 RebuildTarget.isRubble := false |}) as Hwait
    by (vm_compute; reflexivity).
  split; [exact Hwait|].
  destruct (waiting_is_frozen 120 sampleRebuilding sampleWaiting 3%nat _ _
              eq_refl Hrun eq_refl eq_refl eq_refl Hwait) as (Hv & Hs & _).
  split; [exact Hv|exact Hs].
Defined.

Lemma click_detaches_witness :
  onMouseClick 1 samplePassed = Some sampleClicked /\
  state samplePassed = STABLE /\
  state sampleClicked = STABLE /\
  stateChanges sampleClicked = stateChanges samplePassed /\
  exists v', voxels sampleClicked !! 1%nat = Some v' /\
    isFalling v' = true /\ grounded v' = false.
Proof.
  assert (onMouseClick 1 samplePassed = Some sampleClicked) as Hrun
    by (vm_compute; reflexivity).
  split; [exact Hrun|]. split; [reflexivity|].
  destruct (click_detaches 1 samplePassed sampleClicked Hrun)
    as (Hs & Hsc & _ & _ & _ & Hclick).
  split; [exact Hs|]. split; [exact Hsc|]. exact (Hclick eq_refl).
Defined.

Lemma anchors_stay_grounded_witness :
  checkStructuralIntegrity sampleEngine = Some samplePassed /\
  exists v,
    voxels sampleEngine !! 0%nat = Some v /\
    isFalling v = false /\ y v <= FLOOR_Y + 1.2 /\
    voxels samplePassed !! 0%nat = Some (setGrounded true v).
Proof.
  assert (checkStructuralIntegrity sampleEngine = Some samplePassed) as Hrun
    by (vm_compute; reflexivity).
  split; [exact Hrun|].
  eexists. split; [reflexivity|]. split; [reflexivity|].
  assert (-12 <= FLOOR_Y + 1.2) as Hy by (vm_compute; discriminate).
  split; [exact Hy|].
  exact (anchors_stay_grounded sampleEngine samplePassed 0%nat _ Hrun
           eq_refl eq_refl Hy).
Defined.

Lemma sampleEngine_isolated :
  forall j w, voxels sampleEngine !! j = Some w -> isFalling w = false ->
    ~ adjacent (cell w) (5, -9, 0)%Z.
Proof.
  intros j w Hw _ Hadj.
  destruct j as [|[|[|[|[|[|j]]]]]]; simpl in Hw; try done;
    injection Hw as <-; vm_compute in Hadj; discriminate.
Qed.

Lemma isolated_falls_witness :
  checkStructuralIntegrity sampleEngine = Some samplePassed /\
  exists v n,
    voxels sampleEngine !! 3%nat = Some v /\
    isFalling v = false /\ FLOOR_Y + 1.2 < y v /\
    voxels samplePassed !! 3%nat = Some (kick n v).
Proof.
  assert (checkStructuralIntegrity sampleEngine = Some samplePassed) as Hrun
    by (vm_compute; reflexivity).
  split; [exact Hrun|].
  assert (FLOOR_Y + 1.2 < -9) as Hy by (vm_compute; reflexivity).
  destruct (isolated_falls sampleEngine samplePassed 3%nat _ Hrun eq_refl
              eq_refl Hy sampleEngine_isolated) as [n Hn].
  eexists _, n. split; [reflexivity|]. split; [reflexivity|].
  split; [exact Hy|exact Hn].
Defined.

Lemma sampleEngine_wf : wellFormed sampleEngine.
Proof. exact (proj1 (loadInitialModel_wf sampleData newEngine)). Qed.

Lemma dismantle_scatters_witness :
  wellFormed sampleEngine /\
  state sampleEngine = STABLE /\
  dismantle sampleEngine = Some sampleDismantled /\
  state sampleDismantled = DISMANTLING /\
  exists v', voxels sampleDismantled !! 2%nat = Some v' /\
    isFalling v' = true.
Proof.
  split; [exact sampleEngine_wf|]. split; [reflexivity|].
  assert (dismantle sampleEngine = Some sampleDismantled) as Hrun
    by (vm_compute; reflexivity).
  split; [exact Hrun|].
  destruct (dismantle_scatters sampleEngine sampleEngine_wf eq_refl)
    as (e' & Hrun' & Hs & _ & _ & _ & _ & Hall).
  assert (e' = sampleDismantled) as -> by congruence.
  split; [exact Hs|].
  destruct (Hall 2%nat _ eq_refl) as (v' & n & Hv' & Hf & _).
  exists v'. split; [exact Hv'|exact Hf].
Defined.

Lemma surplus_targets_dropped_witness :
  (length (voxels stackedEngine) <= length fullTargets)%nat /\
  withinBound (voxels stackedEngine) fullTargets = true /\
  rebuild (fullTargets ++ moreTargets) 100 stackedEngine
  = rebuild fullTargets 100 stackedEngine /\
  rubbleCount (rebuildTargets (rebuild fullTargets 100 stackedEngine))
  = 0%nat.
Proof.
  assert (length (voxels stackedEngine) <= length fullTargets)%nat as Hlen
    by (vm_compute; lia).
  assert (withinBound (voxels stackedEngine) fullTargets = true) as Hb
    by (vm_compute; reflexivity).
  destruct (surplus_targets_dropped fullTargets moreTargets 100 stackedEngine
              Hlen Hb) as (Hsame & Hr & _).
  split; [exact Hlen|]. split; [exact Hb|]. split; [exact Hsame|exact Hr].
Defined.

Lemma driftEngine_late :
  forall now, now ∈ driftFrames ->
    lateFor (rebuildTargets driftEngine) (rebuildStartTime driftEngine) now.
Proof.
  intros now Hnow t Ht Hr.
  apply list_elem_of_In in Ht. simpl in Ht.
  destruct Ht as [<-|[<-|[]]]; [|done].
  apply list_elem_of_In in Hnow. simpl in Hnow.
  destruct Hnow as [<-|[<-|[<-|[<-|[]]]]]; vm_compute; discriminate.
Qed.

Lemma driftEngine_near :
  forall i v t,
    voxels driftEngine !! i = Some v ->
    rebuildTargets driftEngine !! i = Some t ->
    RebuildTarget.isRubble t = false -> dist2 v t <= 0.0225.
Proof.
  intros i v t Hv Ht Hr.
  destruct i as [|[|i]]; simpl in Hv, Ht; try done;
    injection Hv as <-; injection Ht as <-; [|done].
  vm_compute. discriminate.
Qed.

Lemma rebuild_completes_witness :
  driftFrames <> [] /\
  state driftEngine = REBUILDING /\
  length (rebuildTargets driftEngine) = length (voxels driftEngine) /\
  shrink (length driftFrames) * 0.0225 <= 0.01 /\
  exists e',
    run (OpFrame <$> driftFrames) driftEngine = Some e' /\
    state e' = STABLE /\
    exists v', voxels e' !! 0%nat = Some v' /\
      onTarget v' (matched (VoxelData.mk 0 0 0 0xffffff)).
Proof.
  assert (driftFrames <> []) as Hne by discriminate.
  assert (shrink (length driftFrames) * 0.0225 <= 0.01) as Hsmall
    by (vm_compute; discriminate).
  split; [exact Hne|]. split; [reflexivity|]. split; [reflexivity|].
  split; [exact Hsmall|].
  destruct (rebuild_completes driftFrames driftEngine 0.0225 Hne eq_refl
              eq_refl driftEngine_late driftEngine_near Hsmall)
    as (e' & Hrun & Hs & Hall).
  exists e'. split; [exact Hrun|]. split; [exact Hs|].
  exact (Hall 0%nat _ eq_refl eq_refl).
Defined.

Lemma pass_idempotent_witness :
  checkStructuralIntegrity sampleEngine = Some samplePassed /\
  checkStructuralIntegrity samplePassed = Some samplePassed.
Proof.
  assert (checkStructuralIntegrity sampleEngine = Some samplePassed) as Hrun
    by (vm_compute; reflexivity).
  split; [exact Hrun|].
  exact (pass_idempotent sampleEngine samplePassed Hrun).
Defined.

Lemma towerData_centesimal : Forall centesimalData towerData.
Proof.
  repeat constructor;
    match goal with
    | |- centesimal ?q => exists (Qnum q * 100)%Z; vm_compute; reflexivity
    end.
Qed.

Lemma export_of_loaded_witness :
  Forall centesimalData towerData /\
  run (OpLoad towerData :: (OpFrame <$> [0; 16])) newEngine
  = Some towerEngine /\
  length (getJsonData color_of_self towerEngine) = length towerData /\
  exists j, getJsonData color_of_self towerEngine !! 2%nat = Some j /\
    JsonVoxel.id j = 2%nat /\
    JsonVoxel.x j == 0 /\ JsonVoxel.y j == -9 /\ JsonVoxel.z j == 0.
Proof.
  assert (run (OpLoad towerData :: (OpFrame <$> [0; 16])) newEngine
          = Some towerEngine) as Hrun by (vm_compute; reflexivity).
  destruct (export_of_loaded color_of_self towerData newEngine towerEngine
              [0; 16] towerData_centesimal Hrun) as [Hlen Hall].
  split; [exact towerData_centesimal|]. split; [exact Hrun|].
  split; [exact Hlen|].
  exact (Hall 2%nat _ eq_refl).
Defined.

Lemma callbacks_mirror_witness :
  run (OpLoad sampleData :: sampleOps) newEngine = Some sampleLoadedEnd /\
  mirrored sampleLoadedEnd.
Proof.
  assert (run (OpLoad sampleData :: sampleOps) newEngine
          = Some sampleLoadedEnd) as Hrun by (vm_compute; reflexivity).
  split; [exact Hrun|].
  exact (callbacks_mirror newEngine sampleLoadedEnd sampleData sampleOps Hrun).
Defined.

Lemma state_machine_witness :
  exec OpDismantle sampleEngine = Some sampleDismantled /\
  state sampleDismantled <> state sampleEngine /\
  state sampleEngine = STABLE /\ state sampleDismantled = DISMANTLING /\
  stateChanges sampleDismantled
  = state sampleDismantled :: stateChanges sampleEngine.
Proof.
  assert (exec OpDismantle sampleEngine = Some sampleDismantled) as Hrun
    by (vm_compute; reflexivity).
  assert (state sampleDismantled <> state sampleEngine) as Hne
    by discriminate.
  assert (stateChanges sampleDismantled <> stateChanges sampleEngine) as Hlog
    by discriminate.
  destruct (state_machine OpDismantle sampleEngine sampleDismantled Hrun)
    as [_ Hcall].
  destruct (Hcall Hlog) as [Hsc _].
  split; [exact Hrun|]. split; [exact Hne|]. split; [reflexivity|].
  split; [reflexivity|exact Hsc].
Defined.

Lemma floatingVoxel_clear :
  forall k, (1 <= k <= length restFrames)%nat ->
    FLOOR_Y + 0.5 <= flightY floatingVoxel k.
Proof.
  intros k Hk. simpl in Hk.
  destruct k as [|[|[|[|k]]]]; try lia; vm_compute; discriminate.
Qed.

Lemma free_flight_witness :
  state (engineOf floatingVoxel) <> REBUILDING /\
  run (OpFrame <$> restFrames) (engineOf floatingVoxel) = Some floatedEngine /\
  isFalling floatingVoxel = true /\
  exists v', voxels floatedEngine !! 0%nat = Some v' /\
    flownTo (length restFrames) floatingVoxel v'.
Proof.
  assert (state (engineOf floatingVoxel) <> REBUILDING) as Hs by discriminate.
  assert (run (OpFrame <$> restFrames) (engineOf floatingVoxel)
          = Some floatedEngine) as Hrun by (vm_compute; reflexivity).
  split; [exact Hs|]. split; [exact Hrun|]. split; [reflexivity|].
  exact (free_flight restFrames (engineOf floatingVoxel) floatedEngine 0%nat
           floatingVoxel Hs Hrun eq_refl eq_refl floatingVoxel_clear).
Defined.
